(** * wedopp: the hub protocol layer and hub discovery

    A shallow embedding of [include/wedopp.hpp]: the raw file wrapper
    ([detail::File]), the report framing ([detail::Processor]), the slot
    views ([Device]), [Hub] and the two platform variants of [findHubs],
    followed by the properties of the protocol and of the scan.

    Conventions of the embedding.
    - [std::uint8_t] values and array indices are integers of [Z]; the
      unsigned arithmetic of an index expression is written out with
      its wrap-around ([u32]).
    - A [std::array<std::uint8_t, 9>] is a [list Z]; an access outside
      the array is undefined behaviour in the source and is the outcome
      [Undefined] here.
    - A member function that can throw and that changes its object is a
      function from the state before to an [outcome]: a value and the
      state after, an exception and the state after, or [Undefined].
    - The operating system is not part of the header.  What a file
      descriptor answers to [read] and [write] is an instance of the
      class [RawChannel]; what the device enumeration answers during
      [findHubs] is a script ([Posix.world], [Win32.world]).
    - The loops of [findHubs] run over the list of entries the system
      returns; a list is shorter than the range of a [DWORD] index.
    - Failure of the allocations hidden in [std::string], [std::vector],
      [std::make_unique] and [new] is not modelled; the one allocation
      the header checks itself ([InterfaceDetailData]) is. *)

From Stdlib Require Import ZArith Lia Bool.
From stdpp Require Import base list strings.

Local Open Scope string_scope.
Local Open Scope list_scope.
Local Open Scope Z_scope.

(** ** Exceptions and outcomes *)

Inductive exception : Type :=
| system_error (code : Z) (what : string)
| bad_alloc.

(** [catch (const std::system_error&)] *)
Definition is_system_error (e : exception) : bool :=
  match e with
  | system_error _ _ => true
  | bad_alloc => false
  end.

(** [catch (const std::exception&)]: both exceptions of the header
    derive from [std::exception]. *)
Definition is_std_exception (e : exception) : bool := true.

Inductive outcome (S A : Type) : Type :=
| Ret (a : A) (s : S)
| Throw (e : exception) (s : S)
| Undefined.

Arguments Ret {S A} a s.
Arguments Throw {S A} e s.
Arguments Undefined {S A}.

Definition M (S A : Type) : Type := S -> outcome S A.

Definition mret {S A} (a : A) : M S A := fun s => Ret a s.

Definition mbind {S A B} (m : M S A) (k : A -> M S B) : M S B :=
  fun s =>
    match m s with
    | Ret a s' => k a s'
    | Throw e s' => Throw e s'
    | Undefined => Undefined
    end.

Definition mthrow {S A} (e : exception) : M S A := fun s => Throw e s.

Notation "'let*' x ':=' m 'in' k" := (mbind m (fun x => k))
  (at level 10, x name, m at level 100, k at level 200,
   format "'[v' 'let*'  x  ':='  m  'in' '/' k ']'").
Notation "'do' m 'then' k" := (mbind m (fun _ => k))
  (at level 10, m at level 100, k at level 200,
   format "'[v' 'do'  m  'then' '/' k ']'").

(** The state an outcome leaves behind, when it leaves one. *)
Definition state_of {S A} (o : outcome S A) : option S :=
  match o with
  | Ret _ s => Some s
  | Throw _ s => Some s
  | Undefined => None
  end.

Definition is_undefined {S A} (o : outcome S A) : bool :=
  match o with
  | Undefined => true
  | _ => false
  end.

(** ** Integers and arrays *)

(** Arithmetic on [unsigned int]. *)
Definition u32 (z : Z) : Z := z mod 2 ^ 32.

(** [a[i]] for reading: defined only inside the array. *)
Definition array_get {S} (a : list Z) (i : Z) : M S Z :=
  fun s =>
    match a !! Z.to_nat i with
    | Some b => Ret b s
    | None => Undefined
    end.

(** [a[i] = v]: defined only inside the array. *)
Definition array_set (a : list Z) (i : Z) (v : Z) : option (list Z) :=
  if bool_decide (Z.to_nat i < length a)%nat
  then Some (<[Z.to_nat i := v]> a)
  else None.

(** ** The operating system behind a file descriptor *)

(** The result of a system call: a value, or the error code left in
    [errno] (in [GetLastError()] on Windows). *)
Inductive sysret (A : Type) : Type :=
| SysOk (a : A)
| SysErr (errno : Z).

Arguments SysOk {A} a.
Arguments SysErr {A} errno.

(** What an open descriptor does.  [sys_read d count] is
    [::read(fd, buf, count)]: on success the bytes the system placed at
    the start of [buf] (possibly fewer than [count]); [sys_write d data]
    is [::write(fd, data, size)]: on success the number of bytes taken.
    Both return the channel after the call.  The error code is the
    one the exception carries: [errno], or [GetLastError()] converted
    to [int]. *)
Class RawChannel (D : Type) : Type := {
  sys_read : D -> nat -> sysret (list Z) * D;
  sys_write : D -> list Z -> sysret Z * D
}.

(** The bytes of a transfer land at the start of the caller's buffer
    and never beyond its end. *)
Definition overwrite (buf received : list Z) : list Z :=
  take (length buf) received ++ drop (length received) buf.

(** ** [detail::File] *)

Module File.

Record t (D : Type) : Type := mk {
  fd : Z;
  chan : D
}.
Arguments mk {D} fd chan.
Arguments fd {D} _.
Arguments chan {D} _.

Section Ops.
Context {D : Type} `{RawChannel D}.

Definition get (f : t D) : Z := fd f.

Definition read (data : list Z) : M (t D) (list Z) :=
  fun f =>
    match sys_read (chan f) (length data) with
    | (SysErr e, d) =>
        Throw (system_error e "Failed to read from file") (mk (fd f) d)
    | (SysOk received, d) =>
        Ret (overwrite data received) (mk (fd f) d)
    end.

Definition write (data : list Z) : M (t D) unit :=
  fun f =>
    match sys_write (chan f) data with
    | (SysErr e, d) =>
        Throw (system_error e "Failed to write to file") (mk (fd f) d)
    | (SysOk _, d) => Ret tt (mk (fd f) d)
    end.
End Ops.

End File.

(** ** [detail::Processor] *)

Module Processor.

Record t (D : Type) : Type := mk {
  file : File.t D;
  readBuffer : list Z;
  writeBuffer : list Z
}.
Arguments mk {D} file readBuffer writeBuffer.
Arguments file {D} _.
Arguments readBuffer {D} _.
Arguments writeBuffer {D} _.

Section Ops.
Context {D : Type} `{RawChannel D}.

(** [Processor(File f)]: both buffers are value-initialised. *)
Definition ctor (f : File.t D) : t D :=
  mk f (replicate 9 0) (replicate 9 0).

(** [file.read(readBuffer)] *)
Definition read_report : M (t D) (list Z) :=
  fun p =>
    match File.read (readBuffer p) (file p) with
    | Ret rb f => Ret rb (mk f rb (writeBuffer p))
    | Throw e f => Throw e (mk f (readBuffer p) (writeBuffer p))
    | Undefined => Undefined
    end.

(** [file.write(writeBuffer)] *)
Definition write_report : M (t D) unit :=
  fun p =>
    match File.write (writeBuffer p) (file p) with
    | Ret u f => Ret u (mk f (readBuffer p) (writeBuffer p))
    | Throw e f => Throw e (mk f (readBuffer p) (writeBuffer p))
    | Undefined => Undefined
    end.

(** [writeBuffer[i] = v] *)
Definition store (i v : Z) : M (t D) unit :=
  fun p =>
    match array_set (writeBuffer p) i v with
    | Some wb => Ret tt (mk (file p) (readBuffer p) wb)
    | None => Undefined
    end.

(** The index expressions of the three member functions. *)
Definition type_index (slot : Z) : Z := u32 (4 + u32 (slot * 2)).
Definition value_index (slot : Z) : Z := u32 (3 + u32 (slot * 2)).
Definition write_index (slot : Z) : Z := u32 (2 + slot).

Definition readType (slot : Z) : M (t D) Z :=
  let* rb := read_report in
  array_get rb (type_index slot).

Definition readValue (slot : Z) : M (t D) Z :=
  let* rb := read_report in
  array_get rb (value_index slot).

Definition writeValue (slot value : Z) : M (t D) unit :=
  do store 1 64 then
  do store (write_index slot) value then
  write_report.
End Ops.

End Processor.

(** ** [Device] *)

Module Device.

Inductive Type_ : Type :=
| none
| motor
| servoMotor
| light
| distanceSensor
| tiltSensor.

(** A [Device] holds its slot and a pointer to the processor of its
    hub; the pointer is an address in the store of processors. *)
Record t : Type := mk {
  slot : Z;
  processor : nat
}.

Definition getDeviceType (b : Z) : Type_ :=
  match b with
  | 38 | 39 => tiltSensor
  | 102 | 103 => servoMotor
  | 177 | 178 | 179 | 180 => distanceSensor
  | 202 | 203 | 204 | 205 => light
  | 231 => none
  | 0 | 1 | 2 | 3 | 239 | 240 | 241 => motor
  | _ => none
  end.

Definition getSlot (d : t) : Z := slot d.

Section Ops.
Context {D : Type} `{RawChannel D}.

(** [processor->f(...)]: the call runs on the processor the pointer
    designates and leaves it changed in place; a pointer that
    designates nothing is undefined behaviour. *)
Definition deref {A} (a : nat) (m : M (Processor.t D) A)
  : M (list (Processor.t D)) A :=
  fun h =>
    match h !! a with
    | None => Undefined
    | Some p =>
        match m p with
        | Ret x p' => Ret x (<[a := p']> h)
        | Throw e p' => Throw e (<[a := p']> h)
        | Undefined => Undefined
        end
    end.

Definition getType (d : t) : M (list (Processor.t D)) Type_ :=
  let* b := deref (processor d) (Processor.readType (slot d)) in
  mret (getDeviceType b).

Definition getValue (d : t) : M (list (Processor.t D)) Z :=
  deref (processor d) (Processor.readValue (slot d)).

Definition setValue (d : t) (value : Z) : M (list (Processor.t D)) unit :=
  deref (processor d) (Processor.writeValue (slot d) value).
End Ops.

End Device.

(** ** [Hub] *)

Module Hub.

Record t : Type := mk {
  name : string;
  path : string;
  devices : list Device.t;
  processor : nat
}.

Definition getName (h : t) : string := name h.
Definition getPath (h : t) : string := path h.
Definition getDevices (h : t) : list Device.t := devices h.

Section Ops.
Context {D : Type} `{RawChannel D}.

(** [new detail::Processor(std::move(f))]: a fresh cell of the
    store; its address is the pointer. *)
Definition new_Processor (f : File.t D) : M (list (Processor.t D)) nat :=
  fun h => Ret (length h) (h ++ [Processor.ctor f]).

(** [devices.push_back(d)] on the hub under construction. *)
Definition push_back {A} (v : list A) (x : A) : list A := v ++ [x].

Definition ctor (n p : string) (f : File.t D)
  : M (list (Processor.t D)) t :=
  let* a := new_Processor f in
  let devices0 := [] in
  let devices1 := push_back devices0 (Device.mk 0 a) in
  let devices2 := push_back devices1 (Device.mk 1 a) in
  mret (mk n p devices2 a).
End Ops.

End Hub.

(** ** Control flow of [findHubs]: system calls, [try], scope exit *)

(** A system call whose failure the caller turns into a
    [std::system_error] carrying the error code and [msg]. *)
Definition syscall {S A} (r : sysret A) (msg : string) : M S A :=
  match r with
  | SysOk a => mret a
  | SysErr e => mthrow (system_error e msg)
  end.

(** [try { body } catch (const E& e) { handler }], where [catches]
    tells which exceptions are an [E]. *)
Definition try_catch {S A} (body : M S A) (catches : exception -> bool)
    (handler : exception -> M S A) : M S A :=
  fun s =>
    match body s with
    | Throw e s' => if catches e then handler e s' else Throw e s'
    | o => o
    end.

(** A destructor that runs when the scope is left, normally or by an
    exception. *)
Definition finally {S A} (body : M S A) (cleanup : M S unit) : M S A :=
  fun s =>
    match body s with
    | Ret a s' => (do cleanup then mret a) s'
    | Throw e s' => (do cleanup then mthrow e) s'
    | Undefined => Undefined
    end.

(** What [findHubs] does to the system besides its calls that only
    query: descriptors it closes, the enumeration handle it releases,
    lines it writes to [std::cerr]. *)
Inductive os_event : Type :=
| Close (fd : Z)
| CloseDir
| DestroyDevInfo
| Cerr (e : exception).

(** The store of processors allocated with [new] and the events so far. *)
Record env (D : Type) : Type := mk_env {
  procs : list (Processor.t D);
  trace : list os_event
}.
Arguments mk_env {D} procs trace.
Arguments procs {D} _.
Arguments trace {D} _.

Section Scan.
Context {D : Type} `{RawChannel D}.

Definition emit (e : os_event) : M (env D) unit :=
  fun s => Ret tt (mk_env (procs s) (trace s ++ [e])).

(** A computation on the store of processors, run inside [findHubs]. *)
Definition on_procs {A} (m : M (list (Processor.t D)) A) : M (env D) A :=
  fun s =>
    match m (procs s) with
    | Ret a h => Ret a (mk_env h (trace s))
    | Throw e h => Throw e (mk_env h (trace s))
    | Undefined => Undefined
    end.

(** [File(...)]: the constructor keeps the descriptor [open] (the
    handle [CreateFileA]) returned, [fd], and throws when that is
    [-1] ([INVALID_HANDLE_VALUE]); [error] is the error code then. *)
Definition File_ctor (fd error : Z) (d : D) : M (env D) (File.t D) :=
  if fd =? -1
  then mthrow (system_error error "Failed to open file")
  else mret (File.mk fd d).

(** [~File()]: [if (fd != -1) close(fd)]. *)
Definition File_dtor (f : File.t D) : M (env D) unit :=
  if File.fd f =? -1 then mret tt else emit (Close (File.fd f)).

(** [File(File&& other)]: the new object takes the descriptor and
    [other] is left with [-1]. *)
Definition moved_to (f : File.t D) : File.t D := f.
Definition moved_from (f : File.t D) : File.t D := File.mk (-1) (File.chan f).

(** A block with the local variable [file]: [body] returns its value
    together with the state of [file] at the closing brace; [~File()]
    runs there, or on the way out when [body] throws (no statement
    after the move throws, so [file] is then still as constructed). *)
Definition scoped {A} (file : File.t D) (body : M (env D) (A * File.t D))
  : M (env D) A :=
  fun s =>
    match body s with
    | Ret (a, file') s' => (do File_dtor file' then mret a) s'
    | Throw e s' => (do File_dtor file then mthrow e) s'
    | Undefined => Undefined
    end.
End Scan.

Definition vendorId : Z := 0x0694.
Definition productId : Z := 0x0003.

(** ** [findHubs], the [#else] branch: [/dev/usb] *)

Module Posix.

(** One entry of the directory and what the system answers when
    [findHubs] probes it. *)
Record node (D : Type) : Type := mk_node {
  d_name : string;
  n_open : Z;                    (* open(filename, O_RDWR) *)
  n_open_errno : Z;              (* errno when that is -1 *)
  n_chan : D;                    (* the device behind the descriptor *)
  n_devinfo : sysret (Z * Z);    (* HIDIOCGDEVINFO: vendor, product *)
  n_name : sysret string         (* HIDIOCGNAME *)
}.
Arguments mk_node {D} _ _ _ _ _ _.
Arguments d_name {D} _.
Arguments n_open {D} _.
Arguments n_open_errno {D} _.
Arguments n_chan {D} _.
Arguments n_devinfo {D} _.
Arguments n_name {D} _.

(** An open directory stream: the entries [readdir] still returns,
    and why it then returns a null pointer: [None] at the end of the
    directory, [Some errno] on a failure. *)
Record DIR (D : Type) : Type := mk_DIR {
  entries : list (node D);
  at_null : option Z
}.
Arguments mk_DIR {D} _ _.
Arguments entries {D} _.
Arguments at_null {D} _.

(** [opendir("/dev/usb")] *)
Record world (D : Type) : Type := mk_world {
  usb_dir : sysret (DIR D)
}.
Arguments mk_world {D} _.
Arguments usb_dir {D} _.

Section Ops.
Context {D : Type} `{RawChannel D}.

(** The body of [if (std::strncmp("hid", ent->d_name, 3) == 0)]. *)
Definition probe (ent : node D) (hubs : list Hub.t)
  : M (env D) (list Hub.t) :=
  try_catch
    (let filename := "/dev/usb/" +:+ d_name ent in
     let* file := File_ctor (n_open ent) (n_open_errno ent) (n_chan ent) in
     scoped file
       (let* devinfo := syscall (n_devinfo ent) "Failed to get device info" in
        if (fst devinfo =? vendorId) && (snd devinfo =? productId) then
          let* deviceName := syscall (n_name ent) "Failed to get device name" in
          let* hub := on_procs (Hub.ctor deviceName filename (moved_to file)) in
          mret (Hub.push_back hubs hub, moved_from file)
        else
          mret (hubs, file)))
    is_std_exception
    (fun e => do emit (Cerr e) then mret hubs).

(** [while (const dirent* ent = readdir(dir.get()))]: the loop
    ends at the first null pointer, whatever its cause. *)
Fixpoint scan (pending : list (node D)) (at_null : option Z)
    (hubs : list Hub.t) : M (env D) (list Hub.t) :=
  match pending with
  | ent :: rest =>
      let* hubs' :=
        (if String.prefix "hid" (d_name ent)
         then probe ent hubs
         else mret hubs) in
      scan rest at_null hubs'
  | [] =>
      match at_null with
      | None => mret hubs
      | Some _ => mret hubs
      end
  end.

Definition findHubs (w : world D) : M (env D) (list Hub.t) :=
  let hubs := [] in
  let* dir := syscall (usb_dir w) "Failed to open directory" in
  finally (scan (entries dir) (at_null dir) hubs) (emit CloseDir).
End Ops.

End Posix.

(** ** [findHubs], the [_WIN32] branch: SetupAPI *)

Module Win32.

Definition ERROR_INSUFFICIENT_BUFFER : Z := 122.
Definition ERROR_NO_MORE_ITEMS : Z := 259.

(** [static_cast<int>(GetLastError())] *)
Definition to_int (dword : Z) : Z := (dword + 2 ^ 31) mod 2 ^ 32 - 2 ^ 31.

(** A call that failed, with the code as [std::system_error] gets it. *)
Definition last_error {A} (r : sysret A) : sysret A :=
  match r with
  | SysOk a => SysOk a
  | SysErr e => SysErr (to_int e)
  end.

Definition win_syscall {S A} (r : sysret A) (msg : string) : M S A :=
  syscall (last_error r) msg.

(** One device interface and what the system answers about it. *)
Record iface (D : Type) : Type := mk_iface {
  i_size_query : sysret unit;    (* SetupDiGetDeviceInterfaceDetailA, no buffer *)
  i_required_length : Z;         (* what it leaves in requiredLength *)
  i_malloc : bool;               (* std::malloc(size) returned storage *)
  i_detail : sysret string;      (* SetupDiGetDeviceInterfaceDetailA: DevicePath *)
  i_open : Z;                    (* CreateFileA *)
  i_open_error : Z;              (* GetLastError() when that is invalid *)
  i_chan : D;                    (* the device behind the handle *)
  i_attributes : option (Z * Z); (* HidD_GetAttributes: VendorID, ProductID *)
  i_product_string : sysret unit;(* HidD_GetProductString *)
  i_utf8_size : sysret Z;        (* WideCharToMultiByte, no buffer *)
  i_utf8 : sysret string         (* WideCharToMultiByte into the buffer *)
}.
Arguments mk_iface {D} _ _ _ _ _ _ _ _ _ _ _.
Arguments i_size_query {D} _.
Arguments i_required_length {D} _.
Arguments i_malloc {D} _.
Arguments i_detail {D} _.
Arguments i_open {D} _.
Arguments i_open_error {D} _.
Arguments i_chan {D} _.
Arguments i_attributes {D} _.
Arguments i_product_string {D} _.
Arguments i_utf8_size {D} _.
Arguments i_utf8 {D} _.

(** A device information set: the interfaces that
    [SetupDiEnumDeviceInterfaces] returns for index 0, 1, ..., and
    the error code of the call that fails after them. *)
Record DevInfo (D : Type) : Type := mk_DevInfo {
  ifaces : list (iface D);
  enum_error : Z
}.
Arguments mk_DevInfo {D} _ _.
Arguments ifaces {D} _.
Arguments enum_error {D} _.

(** [SetupDiGetClassDevs] *)
Record world (D : Type) : Type := mk_world {
  class_devs : sysret (DevInfo D)
}.
Arguments mk_world {D} _.
Arguments class_devs {D} _.

Section Ops.
Context {D : Type} `{RawChannel D}.

(** [InterfaceDetailData(size)] *)
Definition InterfaceDetailData_ctor (i : iface D) (size : Z)
  : M (env D) unit :=
  if i_malloc i then mret tt else mthrow bad_alloc.

(** The first call of [SetupDiGetDeviceInterfaceDetailA]: a failure
    other than [ERROR_INSUFFICIENT_BUFFER] is thrown. *)
Definition required_length (i : iface D) : M (env D) Z :=
  match i_size_query i with
  | SysOk _ => mret (i_required_length i)
  | SysErr error =>
      if negb (error =? ERROR_INSUFFICIENT_BUFFER)
      then mthrow (system_error (to_int error) "Failed to get interface detail")
      else mret (i_required_length i)
  end.

(** The [try] block of one interface. *)
Definition probe (i : iface D) (DevicePath : string) (hubs : list Hub.t)
  : M (env D) (list Hub.t) :=
  try_catch
    (let* file := File_ctor (i_open i) (to_int (i_open_error i)) (i_chan i) in
     scoped file
       (match i_attributes i with
        | Some (VendorID, ProductID) =>
            if (VendorID =? vendorId) && (ProductID =? productId) then
              do win_syscall (i_product_string i) "Failed to get device name" then
              let* byteCount :=
                win_syscall (i_utf8_size i) "Failed to convert wide char to UTF-8" in
              let* buffer :=
                win_syscall (i_utf8 i) "Failed to convert wide char to UTF-8" in
              let* hub := on_procs (Hub.ctor buffer DevicePath (moved_to file)) in
              mret (Hub.push_back hubs hub, moved_from file)
            else mret (hubs, file)
        | None => mret (hubs, file)
        end))
    is_system_error
    (fun _ => mret hubs).

(** [for (DWORD index = 0;; ++index)] *)
Fixpoint scan (pending : list (iface D)) (enum_error : Z)
    (hubs : list Hub.t) : M (env D) (list Hub.t) :=
  match pending with
  | i :: rest =>
      let* requiredLength := required_length i in
      do InterfaceDetailData_ctor i requiredLength then
      let* DevicePath := win_syscall (i_detail i) "Failed to get interface detail" in
      let* hubs' := probe i DevicePath hubs in
      scan rest enum_error hubs'
  | [] =>
      if negb (enum_error =? ERROR_NO_MORE_ITEMS)
      then mthrow (system_error (to_int enum_error)
                     "Failed to enumerate device interfaces")
      else mret hubs
  end.

(** [~Hub()] on each hub of a vector: the [std::unique_ptr] deletes
    the processor of the hub, and [~Processor()] destroys its member
    [file], which closes the handle.  [ps] are the processors of the
    hubs, taken first to last (the order among them is the library's). *)
Fixpoint delete_processors (ps : list (Processor.t D)) : M (env D) unit :=
  match ps with
  | [] => mret tt
  | p :: rest =>
      do File_dtor (Processor.file p) then
      delete_processors rest
  end.

(** The scope of the local [std::vector<Hub> hubs].  It is declared
    before [devInfo], so when an exception leaves [findHubs] it is
    destroyed after [devInfo].  The hubs it holds then are those built
    since the call began, and each owns the processor allocated for
    it: the processors destroyed are the cells the store has gained
    since the call began.  When [findHubs] returns, the vector goes to
    the caller and nothing is destroyed. *)
Definition hubs_scope {A} (body : M (env D) A) : M (env D) A :=
  fun s =>
    match body s with
    | Throw e s' =>
        (do delete_processors (drop (length (procs s)) (procs s')) then
         mthrow e) s'
    | o => o
    end.

Definition findHubs (w : world D) : M (env D) (list Hub.t) :=
  hubs_scope
    (let hubs := [] in
     let* devInfo := win_syscall (class_devs w) "Failed to get devices" in
     finally (scan (ifaces devInfo) (enum_error devInfo) hubs)
             (emit DestroyDevInfo)).
End Ops.

End Win32.

(** ** Channels to run the code against *)

(** What a channel was asked to do, in order. *)
Inductive io_event : Type :=
| IoRead (count : nat)
| IoWrite (data : list Z).

(** Any channel, with a record of the transfers requested on it. *)
Module Logged.

Record t (D : Type) : Type := mk {
  inner : D;
  log : list io_event
}.
Arguments mk {D} inner log.
Arguments inner {D} _.
Arguments log {D} _.

#[global] Instance channel {D : Type} `{RawChannel D} : RawChannel (t D) := {
  sys_read l count :=
    let '(r, d) := sys_read (inner l) count in
    (r, mk d (log l ++ [IoRead count]));
  sys_write l data :=
    let '(r, d) := sys_write (inner l) data in
    (r, mk d (log l ++ [IoWrite data]))
}.

End Logged.

(** A stub that holds the read report it will deliver and echoes every
    write report into it: the value of slot [s], at write offset
    [2 + s], goes to read offset [3 + s * 2]. *)
Module Echo.

Definition t : Type := list Z.

Definition init : t := replicate 9 0.

Definition echo_slot (s : nat) (data : list Z) (report : t) : t :=
  match data !! (2 + s)%nat with
  | Some v => <[(3 + s * 2)%nat := v]> report
  | None => report
  end.

#[global] Instance channel : RawChannel t := {
  sys_read report count := (SysOk (take count report), report);
  sys_write report data :=
    (SysOk (Z.of_nat (length data)), echo_slot 1 data (echo_slot 0 data report))
}.

End Echo.

(** A device that has been unplugged: every transfer fails with
    [ENODEV]. *)
Module Unplugged.

Definition ENODEV : Z := 19.

#[global] Instance channel : RawChannel unit := {
  sys_read d count := (SysErr ENODEV, d);
  sys_write d data := (SysErr ENODEV, d)
}.

End Unplugged.

(** ** The decode table as the specification prints it *)

(** The rows of the type-decode table, each a closed range of bytes
    and the type it stands for, in the order of the table; a byte in
    no row is [none]. *)
Definition decode_table : list (Z * Z * Device.Type_) :=
  [ (38, 39, Device.tiltSensor);
    (102, 103, Device.servoMotor);
    (177, 180, Device.distanceSensor);
    (202, 205, Device.light);
    (231, 231, Device.none);
    (0, 3, Device.motor);
    (239, 241, Device.motor) ].

Definition in_row (b : Z) (row : Z * Z * Device.Type_) : bool :=
  (fst (fst row) <=? b) && (b <=? snd (fst row)).

Definition decodeType (b : Z) : Device.Type_ :=
  match List.find (in_row b) decode_table with
  | Some row => snd row
  | None => Device.none
  end.

(** ** The life of a processor *)

(** The calls a processor receives. *)
Inductive call : Type :=
| ReadType (slot : Z)
| ReadValue (slot : Z)
| WriteValue (slot value : Z).

Definition call_slot (c : call) : Z :=
  match c with
  | ReadType s | ReadValue s | WriteValue s _ => s
  end.

Section Life.
Context {D : Type} `{RawChannel D}.

(** One call; the caller keeps the processor whether the call
    returns or throws.  [None]: the call was undefined. *)
Definition run_call (c : call) (p : Processor.t D) : option (Processor.t D) :=
  match c with
  | ReadType s => state_of (Processor.readType s p)
  | ReadValue s => state_of (Processor.readValue s p)
  | WriteValue s v => state_of (Processor.writeValue s v p)
  end.

Fixpoint run_calls (cs : list call) (p : Processor.t D)
  : option (Processor.t D) :=
  match cs with
  | [] => Some p
  | c :: rest =>
      match run_call c p with
      | Some p' => run_calls rest p'
      | None => None
      end
  end.
End Life.

(** The write reports among the transfers of a log. *)
Definition written (l : list io_event) : list (list Z) :=
  omap (λ ev, match ev with IoWrite r => Some r | IoRead _ => None end) l.

(** The transfers recorded on the channel of a processor. *)
Definition log_of {D : Type} (p : Processor.t (Logged.t D)) : list io_event :=
  Logged.log (File.chan (Processor.file p)).

(** The bytes of a write report that no call assigns are zero. *)
Definition rest_zero (r : list Z) : Prop :=
  length r = 9%nat ∧ r !! 0%nat = Some 0 ∧
  ∀ i, (4 ≤ i ≤ 8)%nat → r !! i = Some 0.

(** Splits a list of known length 9 into its elements. *)
Ltac nine l Hlen :=
  do 9 (destruct l as [| ? l]; [discriminate Hlen |]);
  destruct l; [clear Hlen | discriminate Hlen].

(** ** What a scan produces *)

(** The outcome of [findHubs] as its caller sees it: the hubs or the
    exception, and the store of processors; the events are left out. *)
Definition result {D A : Type} (o : outcome (env D) A)
  : outcome (list (Processor.t D)) A :=
  match o with
  | Ret a s => Ret a (procs s)
  | Throw e s => Throw e (procs s)
  | Undefined => Undefined
  end.

(** A device that passed every step of the probe: the arguments of the
    [Hub] constructor. *)
Record candidate (D : Type) : Type := mk_candidate {
  c_name : string;
  c_path : string;
  c_file : File.t D
}.
Arguments mk_candidate {D} _ _ _.
Arguments c_name {D} _.
Arguments c_path {D} _.
Arguments c_file {D} _.

(** The hubs built from a list of candidates when the store holds
    [base] processors, and the processors allocated for them. *)
Definition built {D : Type} (base : nat) (cs : list (candidate D)) : list Hub.t :=
  imap (λ k c, Hub.mk (c_name c) (c_path c)
                 [Device.mk 0 (k + base); Device.mk 1 (k + base)]
                 (k + base)%nat) cs.

Definition allocated {D : Type} (cs : list (candidate D))
  : list (Processor.t D) :=
  (λ c, Processor.mk (c_file c) (replicate 9 0) (replicate 9 0)) <$> cs.

Definition option_list {A : Type} (o : option A) : list A :=
  match o with
  | Some a => [a]
  | None => []
  end.

(** What the probe of one directory entry comes to: the candidate, if
    the entry is accepted, and the events of the probe. *)
Definition posix_verdict {D : Type} (ent : Posix.node D)
  : option (candidate D) * list os_event :=
  if String.prefix "hid" (Posix.d_name ent) then
    if Posix.n_open ent =? -1 then
      (None, [Cerr (system_error (Posix.n_open_errno ent) "Failed to open file")])
    else
      match Posix.n_devinfo ent with
      | SysErr e =>
          (None, [Close (Posix.n_open ent);
                  Cerr (system_error e "Failed to get device info")])
      | SysOk (vendor, product) =>
          if (vendor =? vendorId) && (product =? productId) then
            match Posix.n_name ent with
            | SysErr e =>
                (None, [Close (Posix.n_open ent);
                        Cerr (system_error e "Failed to get device name")])
            | SysOk deviceName =>
                (Some (mk_candidate deviceName ("/dev/usb/" +:+ Posix.d_name ent)
                         (File.mk (Posix.n_open ent) (Posix.n_chan ent))), [])
            end
          else (None, [Close (Posix.n_open ent)])
      end
  else (None, []).

Definition posix_accepted {D : Type} (l : list (Posix.node D))
  : list (candidate D) :=
  l ≫= (λ ent, option_list (posix_verdict ent).1).

Definition posix_events {D : Type} (l : list (Posix.node D)) : list os_event :=
  l ≫= (λ ent, (posix_verdict ent).2).

(** The failures of the enumeration itself on one interface, which
    [findHubs] does not catch. *)
Definition win32_fatal {D : Type} (i : Win32.iface D) : option exception :=
  match Win32.i_size_query i with
  | SysErr error =>
      if negb (error =? Win32.ERROR_INSUFFICIENT_BUFFER)
      then Some (system_error (Win32.to_int error) "Failed to get interface detail")
      else if Win32.i_malloc i then
        match Win32.i_detail i with
        | SysErr e =>
            Some (system_error (Win32.to_int e) "Failed to get interface detail")
        | SysOk _ => None
        end
      else Some bad_alloc
  | SysOk _ =>
      if Win32.i_malloc i then
        match Win32.i_detail i with
        | SysErr e =>
            Some (system_error (Win32.to_int e) "Failed to get interface detail")
        | SysOk _ => None
        end
      else Some bad_alloc
  end.

Definition win32_path {D : Type} (i : Win32.iface D) : string :=
  match Win32.i_detail i with
  | SysOk DevicePath => DevicePath
  | SysErr _ => ""
  end.

(** What the [try] block of one interface comes to. *)
Definition win32_verdict {D : Type} (i : Win32.iface D)
  : option (candidate D) * list os_event :=
  if Win32.i_open i =? -1 then (None, [])
  else
    match Win32.i_attributes i with
    | Some (VendorID, ProductID) =>
        if (VendorID =? vendorId) && (ProductID =? productId) then
          match Win32.i_product_string i, Win32.i_utf8_size i, Win32.i_utf8 i with
          | SysOk _, SysOk _, SysOk buffer =>
              (Some (mk_candidate buffer (win32_path i)
                       (File.mk (Win32.i_open i) (Win32.i_chan i))), [])
          | _, _, _ => (None, [Close (Win32.i_open i)])
          end
        else (None, [Close (Win32.i_open i)])
    | None => (None, [Close (Win32.i_open i)])
    end.

(** The scan of a list of interfaces: the candidates accepted and the
    events up to the first failure of the enumeration, and that
    failure if there is one. *)
Fixpoint win32_scan {D : Type} (l : list (Win32.iface D)) (enum_error : Z)
  : list (candidate D) * list os_event * option exception :=
  match l with
  | [] =>
      ([], [],
       if negb (enum_error =? Win32.ERROR_NO_MORE_ITEMS)
       then Some (system_error (Win32.to_int enum_error)
                    "Failed to enumerate device interfaces")
       else None)
  | i :: rest =>
      match win32_fatal i with
      | Some e => ([], [], Some e)
      | None =>
          let '(cs, evs, e) := win32_scan rest enum_error in
          (option_list (win32_verdict i).1 ++ cs, (win32_verdict i).2 ++ evs, e)
      end
  end.

Definition win32_accepted {D : Type} (l : list (Win32.iface D))
  : list (candidate D) :=
  l ≫= (λ i, option_list (win32_verdict i).1).

Definition win32_events {D : Type} (l : list (Win32.iface D)) : list os_event :=
  l ≫= (λ i, (win32_verdict i).2).

(** ** The operations on a hub *)

(** What a caller can do with a hub: its three accessors, and the
    member functions of the device at position [i] of [getDevices()]. *)
Inductive hub_call : Type :=
| GetName
| GetPath
| GetDevices
| GetSlot (i : nat)
| GetType (i : nat)
| GetValue (i : nat)
| SetValue (i : nat) (value : Z).

(** The position a call indexes [getDevices()] with (0 for the
    accessors, which index nothing). *)
Definition hub_call_index (c : hub_call) : nat :=
  match c with
  | GetSlot i | GetType i | GetValue i | SetValue i _ => i
  | GetName | GetPath | GetDevices => 0
  end.

Inductive answer : Type :=
| AString (s : string)
| ADevices (ds : list Device.t)
| ASlot (slot : Z)
| AType (t : Device.Type_)
| AValue (v : Z)
| ADone.

Section HubCalls.
Context {D : Type} `{RawChannel D}.

(** [hub.getDevices()[i]]: outside the vector it is undefined. *)
Definition device_at (hub : Hub.t) (i : nat)
  : M (Hub.t * list (Processor.t D)) Device.t :=
  fun s =>
    match Hub.getDevices hub !! i with
    | Some d => Ret d s
    | None => Undefined
    end.

(** A member function of a device, run with the hub in scope: every
    member function of [Hub] and of [Device] is [const], the hub
    object comes out as it went in. *)
Definition on_store {A} (m : M (list (Processor.t D)) A)
  : M (Hub.t * list (Processor.t D)) A :=
  fun s =>
    match m s.2 with
    | Ret a h => Ret a (s.1, h)
    | Throw e h => Throw e (s.1, h)
    | Undefined => Undefined
    end.

Definition run_hub_call (c : hub_call)
  : M (Hub.t * list (Processor.t D)) answer :=
  fun s =>
    let hub := s.1 in
    match c with
    | GetName => mret (AString (Hub.getName hub)) s
    | GetPath => mret (AString (Hub.getPath hub)) s
    | GetDevices => mret (ADevices (Hub.getDevices hub)) s
    | GetSlot i =>
        (let* d := device_at hub i in mret (ASlot (Device.getSlot d))) s
    | GetType i =>
        (let* d := device_at hub i in
         let* t := on_store (Device.getType d) in mret (AType t)) s
    | GetValue i =>
        (let* d := device_at hub i in
         let* v := on_store (Device.getValue d) in mret (AValue v)) s
    | SetValue i value =>
        (let* d := device_at hub i in
         do on_store (Device.setValue d value) then mret ADone) s
    end.

(** The shape of a hub: two devices, slot 0 then slot 1, both
    pointing at the processor of the hub, which is in the store with
    its two 9-byte buffers. *)
Definition hub_shape (hub : Hub.t) (store : list (Processor.t D)) : Prop :=
  Hub.getDevices hub =
    [Device.mk 0 (Hub.processor hub); Device.mk 1 (Hub.processor hub)] ∧
  ∃ p, store !! Hub.processor hub = Some p ∧
       length (Processor.readBuffer p) = 9%nat ∧
       length (Processor.writeBuffer p) = 9%nat.

(** A sequence of calls on a hub; the caller keeps the hub whether a
    call returns or throws.  [None]: some call was undefined. *)
Fixpoint run_hub_calls (cs : list hub_call)
    (s : Hub.t * list (Processor.t D)) : option (Hub.t * list (Processor.t D)) :=
  match cs with
  | [] => Some s
  | c :: rest =>
      match state_of (run_hub_call c s) with
      | Some s' => run_hub_calls rest s'
      | None => None
      end
  end.
End HubCalls.

(** ** Inputs for the examples *)

(** A fresh processor on descriptor 3, talking to the echo stub. *)
Definition echo_processor : Processor.t Echo.t :=
  Processor.ctor (File.mk 3 Echo.init).

(** The same with its transfers recorded. *)
Definition logged_processor : Processor.t (Logged.t Echo.t) :=
  Processor.ctor (File.mk 3 (Logged.mk Echo.init [])).

(** A fresh processor whose device has been unplugged, recorded. *)
Definition unplugged_processor : Processor.t (Logged.t unit) :=
  Processor.ctor (File.mk 3 (Logged.mk tt [])).

(** Three entries of [/dev/usb]: one that cannot be opened, one of
    another product, and a hub; and a hub whose name cannot be read. *)
Definition ENOENT : Z := 2.
Definition EIO : Z := 5.
Definition EACCES : Z := 13.

Definition node_locked : Posix.node Echo.t :=
  Posix.mk_node "hiddev0" (-1) EACCES Echo.init (SysErr EACCES) (SysErr EACCES).

Definition node_other : Posix.node Echo.t :=
  Posix.mk_node "hiddev1" 4 0 Echo.init (SysOk (0x0694, 0x0002)) (SysOk "Other").

Definition node_hub : Posix.node Echo.t :=
  Posix.mk_node "hiddev2" 5 0 Echo.init (SysOk (0x0694, 0x0003))
    (SysOk "LEGO USB Hub").

Definition node_nameless : Posix.node Echo.t :=
  Posix.mk_node "hiddev3" 6 0 Echo.init (SysOk (0x0694, 0x0003)) (SysErr EIO).

Definition posix_three : Posix.world Echo.t :=
  Posix.mk_world (SysOk (Posix.mk_DIR [node_locked; node_other; node_hub] None)).

(** The same three as device interfaces. *)
Definition ERROR_ACCESS_DENIED : Z := 5.
Definition ERROR_GEN_FAILURE : Z := 31.

Definition iface_locked : Win32.iface Echo.t :=
  Win32.mk_iface (SysErr Win32.ERROR_INSUFFICIENT_BUFFER) 80 true
    (SysOk "hid#0") (-1) ERROR_ACCESS_DENIED Echo.init None
    (SysErr ERROR_GEN_FAILURE) (SysErr ERROR_GEN_FAILURE) (SysErr ERROR_GEN_FAILURE).

Definition iface_other : Win32.iface Echo.t :=
  Win32.mk_iface (SysErr Win32.ERROR_INSUFFICIENT_BUFFER) 80 true
    (SysOk "hid#1") 4 0 Echo.init (Some (0x0694, 0x0002))
    (SysOk tt) (SysOk 6) (SysOk "Other").

Definition iface_hub : Win32.iface Echo.t :=
  Win32.mk_iface (SysErr Win32.ERROR_INSUFFICIENT_BUFFER) 80 true
    (SysOk "hid#2") 5 0 Echo.init (Some (0x0694, 0x0003))
    (SysOk tt) (SysOk 13) (SysOk "LEGO USB Hub").

Definition iface_nameless : Win32.iface Echo.t :=
  Win32.mk_iface (SysErr Win32.ERROR_INSUFFICIENT_BUFFER) 80 true
    (SysOk "hid#3") 6 0 Echo.init (Some (0x0694, 0x0003))
    (SysErr ERROR_GEN_FAILURE) (SysOk 13) (SysOk "LEGO USB Hub").

Definition win32_three : Win32.world Echo.t :=
  Win32.mk_world
    (SysOk (Win32.mk_DevInfo [iface_locked; iface_other; iface_hub]
              Win32.ERROR_NO_MORE_ITEMS)).

(** Nothing allocated, nothing done yet. *)
Definition start : env Echo.t := mk_env [] [].

(** The hub that the third entry gives. *)
Definition the_hub : Hub.t :=
  Hub.mk "LEGO USB Hub" "/dev/usb/hiddev2" [Device.mk 0 0; Device.mk 1 0] 0.

(** ** Descriptors and lines of a trace *)

(** The descriptors a trace closes, and the exceptions it writes to
    [std::cerr], in order. *)
Definition closed_fds (tr : list os_event) : list Z :=
  omap (λ ev, match ev with Close fd => Some fd | _ => None end) tr.

(** The events of destroying a list of processors: each closes the
    descriptor of its file, unless that is [-1]. *)
Definition closes_of {D : Type} (ps : list (Processor.t D)) : list os_event :=
  ps ≫= (λ p, if File.fd (Processor.file p) =? -1
              then []
              else [Close (File.fd (Processor.file p))]).

Definition cerr_lines (tr : list os_event) : list exception :=
  omap (λ ev, match ev with Cerr e => Some e | _ => None end) tr.

(** The descriptors a list of processors holds. *)
Definition owned_fds {D : Type} (ps : list (Processor.t D)) : list Z :=
  (λ p, File.fd (Processor.file p)) <$> ps.

(** The entry is probed and [open] gives a descriptor. *)
Definition posix_opened {D : Type} (ent : Posix.node D) : bool :=
  String.prefix "hid" (Posix.d_name ent) && negb (Posix.n_open ent =? -1).

(** The entry passes every step of the probe. *)
Definition posix_accepts {D : Type} (ent : Posix.node D) : bool :=
  posix_opened ent &&
  match Posix.n_devinfo ent with
  | SysOk (vendor, product) => (vendor =? vendorId) && (product =? productId)
  | SysErr _ => false
  end &&
  match Posix.n_name ent with
  | SysOk _ => true
  | SysErr _ => false
  end.

(** The probe of the entry ends in the [catch] block. *)
Definition posix_throws {D : Type} (ent : Posix.node D) : bool :=
  String.prefix "hid" (Posix.d_name ent) &&
  ((Posix.n_open ent =? -1) ||
   match Posix.n_devinfo ent with
   | SysErr _ => true
   | SysOk (vendor, product) =>
       (vendor =? vendorId) && (product =? productId) &&
       match Posix.n_name ent with
       | SysErr _ => true
       | SysOk _ => false
       end
   end).

Definition win32_opened {D : Type} (i : Win32.iface D) : bool :=
  negb (Win32.i_open i =? -1).

Definition win32_accepts {D : Type} (i : Win32.iface D) : bool :=
  win32_opened i &&
  match Win32.i_attributes i with
  | Some (VendorID, ProductID) =>
      (VendorID =? vendorId) && (ProductID =? productId)
  | None => false
  end &&
  match Win32.i_product_string i, Win32.i_utf8_size i, Win32.i_utf8 i with
  | SysOk _, SysOk _, SysOk _ => true
  | _, _, _ => false
  end.

(** ** [File] objects: move construction, move assignment, destruction *)

(** [File] objects live at addresses; a member function that takes
    [File&& other] gets the address of [other], so that
    [this != &other] can be told. *)
Section FileObjects.
Context {D : Type} `{RawChannel D}.

(** [File(File&& other)]: a new object with the descriptor of [other],
    which is left with [-1]. *)
Definition File_move_ctor (other : nat)
  : M (list (File.t D) * env D) nat :=
  fun s =>
    match s.1 !! other with
    | None => Undefined
    | Some o =>
        Ret (length s.1)
            (<[other := moved_from o]> s.1 ++ [moved_to o], s.2)
    end.

(** [File& operator=(File&& other)]: [if (this != &other)] the
    descriptor of [other] is taken and [other] is left with [-1]. *)
Definition File_move_assign (this other : nat)
  : M (list (File.t D) * env D) unit :=
  fun s =>
    match s.1 !! this, s.1 !! other with
    | Some t, Some o =>
        if bool_decide (this ≠ other)
        then Ret tt (<[other := moved_from o]> (<[this := moved_to o]> s.1), s.2)
        else Ret tt s
    | _, _ => Undefined
    end.

(** [~File()] on the object at an address. *)
Definition File_destroy (a : nat) : M (list (File.t D) * env D) unit :=
  fun s =>
    match s.1 !! a with
    | None => Undefined
    | Some f =>
        match File_dtor f s.2 with
        | Ret u e => Ret u (s.1, e)
        | Throw x e => Throw x (s.1, e)
        | Undefined => Undefined
        end
    end.
End FileObjects.

(** ** Writes in a row *)

(** The value the last write for [slot] in a list of writes
    [(slot, value)] carries; [d] when there is none. *)
Fixpoint last_written (slot : Z) (d : Z) (ws : list (Z * Z)) : Z :=
  match ws with
  | [] => d
  | (s, v) :: rest => last_written slot (if s =? slot then v else d) rest
  end.

Definition write_calls (ws : list (Z * Z)) : list call :=
  (λ w, WriteValue w.1 w.2) <$> ws.

(** The transfer a call asks for: a read of 9 bytes, or a write. *)
Definition asks_for (c : call) (ev : io_event) : Prop :=
  match c, ev with
  | ReadType _, IoRead 9 => True
  | ReadValue _, IoRead 9 => True
  | WriteValue s v, IoWrite data =>
      length data = 9%nat ∧ data !! 1%nat = Some 64 ∧
      data !! Z.to_nat (2 + s) = Some v
  | _, _ => False
  end.

(** A second hub in [/dev/usb], and the directory with both. *)
Definition node_second_hub : Posix.node Echo.t :=
  Posix.mk_node "hiddev4" 7 0 Echo.init (SysOk (0x0694, 0x0003))
    (SysOk "LEGO USB Hub").

Definition posix_two_hubs : Posix.world Echo.t :=
  Posix.mk_world (SysOk (Posix.mk_DIR [node_hub; node_second_hub] None)).

(** The hub of the example on a device that has been unplugged. *)
Definition unplugged_store : list (Processor.t unit) :=
  [Processor.ctor (File.mk 5 tt)].

(** * Properties *)

(** ** Type decoding *)

Lemma getDeviceType_decodeType (b : Z) :
  Device.getDeviceType b = decodeType b.
Proof.
  destruct b as [|p|p]; [reflexivity| |reflexivity].
  do 8 (destruct p as [p|p|]; try reflexivity).
Qed.

Lemma decodeType_rows (b : Z) :
  decodeType b =
    if decide (b = 38 ∨ b = 39) then Device.tiltSensor
    else if decide (b = 102 ∨ b = 103) then Device.servoMotor
    else if decide (177 ≤ b ≤ 180) then Device.distanceSensor
    else if decide (202 ≤ b ≤ 205) then Device.light
    else if decide (b = 231) then Device.none
    else if decide (0 ≤ b ≤ 3 ∨ 239 ≤ b ≤ 241) then Device.motor
    else Device.none.
Proof.
  unfold decodeType, decode_table, in_row; cbn [List.find fst snd].
  repeat lazymatch goal with
         | |- context [decide ?P] => destruct (decide P); cbv iota
         end;
  repeat match goal with
         | |- context [?x <=? ?y] =>
             destruct (Z.leb_spec x y); cbn [andb]; cbv iota; try lia
         end;
  reflexivity.
Qed.

(** C1. For every byte [b], [getDeviceType b] is the type the decode
    table gives: 38 and 39 are the tilt sensor, 102 and 103 the servo
    motor, 177 to 180 the distance sensor, 202 to 205 the light, 231 is
    none, 0 to 3 and 239 to 241 are the motor, and every other byte is
    none.  The function is a total function of the byte alone. *)
Theorem getDeviceType_table (b : Z) :
  Device.getDeviceType b =
    if decide (b = 38 ∨ b = 39) then Device.tiltSensor
    else if decide (b = 102 ∨ b = 103) then Device.servoMotor
    else if decide (177 ≤ b ≤ 180) then Device.distanceSensor
    else if decide (202 ≤ b ≤ 205) then Device.light
    else if decide (b = 231) then Device.none
    else if decide (0 ≤ b ≤ 3 ∨ 239 ≤ b ≤ 241) then Device.motor
    else Device.none.
Proof.
  rewrite getDeviceType_decodeType. apply decodeType_rows.
Qed.

(** ** Report framing *)

Lemma length_overwrite (buf received : list Z) :
  length (overwrite buf received) = length buf.
Proof.
  unfold overwrite. rewrite length_app, length_take, length_drop. lia.
Qed.

Lemma array_set_Some (a : list Z) (i v : Z) :
  (Z.to_nat i < length a)%nat →
  array_set a i v = Some (<[Z.to_nat i := v]> a).
Proof.
  intros Hi. unfold array_set. rewrite bool_decide_eq_true_2; done.
Qed.

Lemma array_set_None (a : list Z) (i v : Z) :
  (length a ≤ Z.to_nat i)%nat → array_set a i v = None.
Proof.
  intros Hi. unfold array_set. rewrite bool_decide_eq_false_2; [done | lia].
Qed.

Section Framing.
Context {D : Type} `{RawChannel D}.

Lemma slot_indices (s : Z) :
  s = 0 ∨ s = 1 →
  Processor.type_index s = 4 + s * 2 ∧
  Processor.value_index s = 3 + s * 2 ∧
  Processor.write_index s = 2 + s.
Proof. intros [-> | ->]; repeat split; reflexivity. Qed.

(** [readType] and [readValue] are one transfer into the read buffer
    and one access to it. *)
Lemma readType_unfold (s : Z) (p : Processor.t D) :
  Processor.readType s p =
    match sys_read (File.chan (Processor.file p))
                   (length (Processor.readBuffer p)) with
    | (SysOk received, d) =>
        let rb := overwrite (Processor.readBuffer p) received in
        match rb !! Z.to_nat (Processor.type_index s) with
        | Some b =>
            Ret b (Processor.mk (File.mk (File.fd (Processor.file p)) d)
                     rb (Processor.writeBuffer p))
        | None => Undefined
        end
    | (SysErr e, d) =>
        Throw (system_error e "Failed to read from file")
          (Processor.mk (File.mk (File.fd (Processor.file p)) d)
             (Processor.readBuffer p) (Processor.writeBuffer p))
    end.
Proof.
  unfold Processor.readType, Processor.read_report, mbind, File.read, array_get.
  destruct (sys_read _ _) as [[received | e] d]; reflexivity.
Qed.

Lemma readValue_unfold (s : Z) (p : Processor.t D) :
  Processor.readValue s p =
    match sys_read (File.chan (Processor.file p))
                   (length (Processor.readBuffer p)) with
    | (SysOk received, d) =>
        let rb := overwrite (Processor.readBuffer p) received in
        match rb !! Z.to_nat (Processor.value_index s) with
        | Some b =>
            Ret b (Processor.mk (File.mk (File.fd (Processor.file p)) d)
                     rb (Processor.writeBuffer p))
        | None => Undefined
        end
    | (SysErr e, d) =>
        Throw (system_error e "Failed to read from file")
          (Processor.mk (File.mk (File.fd (Processor.file p)) d)
             (Processor.readBuffer p) (Processor.writeBuffer p))
    end.
Proof.
  unfold Processor.readValue, Processor.read_report, mbind, File.read, array_get.
  destruct (sys_read _ _) as [[received | e] d]; reflexivity.
Qed.

(** [writeValue] is two stores and one transfer of the write buffer. *)
Lemma writeValue_unfold (s v : Z) (p : Processor.t D) :
  Processor.writeValue s v p =
    match array_set (Processor.writeBuffer p) 1 64 with
    | None => Undefined
    | Some wb1 =>
        match array_set wb1 (Processor.write_index s) v with
        | None => Undefined
        | Some wb =>
            match sys_write (File.chan (Processor.file p)) wb with
            | (SysOk _, d) =>
                Ret tt (Processor.mk (File.mk (File.fd (Processor.file p)) d)
                          (Processor.readBuffer p) wb)
            | (SysErr e, d) =>
                Throw (system_error e "Failed to write to file")
                  (Processor.mk (File.mk (File.fd (Processor.file p)) d)
                     (Processor.readBuffer p) wb)
            end
        end
    end.
Proof.
  unfold Processor.writeValue, Processor.store, Processor.write_report,
    mbind, File.write.
  destruct (array_set _ 1 64) as [wb1 |]; [cbn | reflexivity].
  destruct (array_set wb1 _ v) as [wb |]; [cbn | reflexivity].
  destruct (sys_write _ _) as [[n | e] d]; reflexivity.
Qed.

(** C2. For a slot [s] of 0 or 1 and a byte [v], on a processor with
    its two 9-byte buffers: [readType s] asks the channel once for 9
    bytes and returns the byte at offset [4 + s * 2] of the read
    buffer as that transfer left it; [readValue s] does the same with
    offset [3 + s * 2]; [writeValue s v] puts 64 at offset 1 and [v]
    at offset [2 + s] of the write buffer and hands that whole 9-byte
    buffer to the channel once.  A transfer that fails is thrown. *)
Theorem report_framing (p : Processor.t D) (s v : Z) :
  s = 0 ∨ s = 1 →
  0 ≤ v ≤ 255 →
  length (Processor.readBuffer p) = 9%nat →
  length (Processor.writeBuffer p) = 9%nat →
  (∀ received d,
      sys_read (File.chan (Processor.file p)) 9 = (SysOk received, d) →
      ∃ b,
        overwrite (Processor.readBuffer p) received !! Z.to_nat (4 + s * 2)
          = Some b ∧
        Processor.readType s p =
          Ret b (Processor.mk (File.mk (File.fd (Processor.file p)) d)
                   (overwrite (Processor.readBuffer p) received)
                   (Processor.writeBuffer p))) ∧
  (∀ received d,
      sys_read (File.chan (Processor.file p)) 9 = (SysOk received, d) →
      ∃ b,
        overwrite (Processor.readBuffer p) received !! Z.to_nat (3 + s * 2)
          = Some b ∧
        Processor.readValue s p =
          Ret b (Processor.mk (File.mk (File.fd (Processor.file p)) d)
                   (overwrite (Processor.readBuffer p) received)
                   (Processor.writeBuffer p))) ∧
  (∀ e d,
      sys_read (File.chan (Processor.file p)) 9 = (SysErr e, d) →
      let p' := Processor.mk (File.mk (File.fd (Processor.file p)) d)
                  (Processor.readBuffer p) (Processor.writeBuffer p) in
      Processor.readType s p
        = Throw (system_error e "Failed to read from file") p' ∧
      Processor.readValue s p
        = Throw (system_error e "Failed to read from file") p') ∧
  (∃ wb,
      wb = <[Z.to_nat (2 + s) := v]> (<[1%nat := 64]> (Processor.writeBuffer p)) ∧
      length wb = 9%nat ∧
      wb !! 1%nat = Some 64 ∧
      wb !! Z.to_nat (2 + s) = Some v ∧
      ∀ r d,
        sys_write (File.chan (Processor.file p)) wb = (r, d) →
        Processor.writeValue s v p =
          match r with
          | SysOk _ =>
              Ret tt (Processor.mk (File.mk (File.fd (Processor.file p)) d)
                        (Processor.readBuffer p) wb)
          | SysErr e =>
              Throw (system_error e "Failed to write to file")
                (Processor.mk (File.mk (File.fd (Processor.file p)) d)
                   (Processor.readBuffer p) wb)
          end).
Proof.
  intros Hs Hv Hrb Hwb.
  destruct (slot_indices s Hs) as (Ht & Hval & Hw).
  split; [| split; [| split]].
  - intros received d Hread.
    assert (Hlt : (Z.to_nat (4 + s * 2) <
                   length (overwrite (Processor.readBuffer p) received))%nat)
      by (rewrite length_overwrite, Hrb; lia).
    apply lookup_lt_is_Some_2 in Hlt as [b Hb].
    exists b; split; [exact Hb |].
    rewrite readType_unfold, Hrb, Hread, Ht; cbn zeta. by rewrite Hb.
  - intros received d Hread.
    assert (Hlt : (Z.to_nat (3 + s * 2) <
                   length (overwrite (Processor.readBuffer p) received))%nat)
      by (rewrite length_overwrite, Hrb; lia).
    apply lookup_lt_is_Some_2 in Hlt as [b Hb].
    exists b; split; [exact Hb |].
    rewrite readValue_unfold, Hrb, Hread, Hval; cbn zeta. by rewrite Hb.
  - intros e d Hread p'; subst p'.
    rewrite readType_unfold, readValue_unfold, Hrb, Hread. by split.
  - eexists; split; [reflexivity |].
    split; [by rewrite !length_insert |].
    split; [rewrite list_lookup_insert_ne by lia;
            apply list_lookup_insert_eq; lia |].
    split; [apply list_lookup_insert_eq; rewrite length_insert; lia |].
    intros r d Hwrite.
    rewrite writeValue_unfold.
    rewrite (array_set_Some _ 1 64) by (rewrite Hwb; lia).
    rewrite array_set_Some by (rewrite length_insert, Hwb, Hw; lia).
    rewrite Hw. change (Z.to_nat 1) with 1%nat.
    rewrite Hwrite. by destruct r.
Qed.
End Framing.

(** The framing at a concrete processor: slot 1, value 200. *)
Lemma report_framing_witness :
  (1 = 0 ∨ 1 = 1) ∧ 0 ≤ 200 ≤ 255 ∧
  ∃ b, Processor.readValue 1 echo_processor = Ret b echo_processor.
Proof.
  split; [by right |]. split; [lia |].
  destruct (report_framing echo_processor 1 200) as (_ & Hvalue & _);
    [by right | lia | reflexivity | reflexivity |].
  destruct (Hvalue Echo.init Echo.init eq_refl) as (b & _ & Hb).
  exists b. exact Hb.
Defined.

(** ** The write buffer over the life of a processor *)

Section Recorded.
Context {D : Type} `{RawChannel D}.

Lemma logged_read (l : Logged.t D) (count : nat) :
  sys_read l count =
    ((sys_read (Logged.inner l) count).1,
     Logged.mk (sys_read (Logged.inner l) count).2
               (Logged.log l ++ [IoRead count])).
Proof. cbn. by destruct (sys_read (Logged.inner l) count). Qed.

Lemma logged_write (l : Logged.t D) (data : list Z) :
  sys_write l data =
    ((sys_write (Logged.inner l) data).1,
     Logged.mk (sys_write (Logged.inner l) data).2
               (Logged.log l ++ [IoWrite data])).
Proof. cbn. by destruct (sys_write (Logged.inner l) data). Qed.

(** A write with its index inside the buffer leaves a processor
    behind, whether the transfer succeeds or not; the report sent is
    the write buffer with the two stores applied, and the processor
    keeps it. *)
Lemma writeValue_recorded (s v : Z) (p : Processor.t (Logged.t D)) :
  length (Processor.writeBuffer p) = 9%nat →
  (Z.to_nat (Processor.write_index s) < 9)%nat →
  ∃ p',
    state_of (Processor.writeValue s v p) = Some p' ∧
    Processor.writeBuffer p' =
      <[Z.to_nat (Processor.write_index s) := v]>
        (<[1%nat := 64]> (Processor.writeBuffer p)) ∧
    Processor.readBuffer p' = Processor.readBuffer p ∧
    log_of p' = log_of p ++ [IoWrite (Processor.writeBuffer p')].
Proof.
  intros Hwb Hs. rewrite writeValue_unfold.
  rewrite (array_set_Some _ 1 64) by (rewrite Hwb; lia).
  rewrite array_set_Some by (rewrite length_insert, Hwb; lia).
  change (Z.to_nat 1) with 1%nat.
  rewrite logged_write.
  destruct (sys_write _ _) as [[n | e] d]; cbn; eexists; by repeat split.
Qed.

(** A read with its index inside the buffer leaves a processor
    behind with the write buffer as it was. *)
Lemma read_recorded (i : Z) (p : Processor.t (Logged.t D)) :
  length (Processor.readBuffer p) = 9%nat →
  (Z.to_nat i < 9)%nat →
  ∀ o,
    o = match sys_read (File.chan (Processor.file p))
                       (length (Processor.readBuffer p)) with
        | (SysOk received, d) =>
            let rb := overwrite (Processor.readBuffer p) received in
            match rb !! Z.to_nat i with
            | Some b =>
                Ret b (Processor.mk (File.mk (File.fd (Processor.file p)) d)
                         rb (Processor.writeBuffer p))
            | None => Undefined
            end
        | (SysErr e, d) =>
            Throw (system_error e "Failed to read from file")
              (Processor.mk (File.mk (File.fd (Processor.file p)) d)
                 (Processor.readBuffer p) (Processor.writeBuffer p))
        end →
    ∃ p',
      state_of o = Some p' ∧
      Processor.writeBuffer p' = Processor.writeBuffer p ∧
      length (Processor.readBuffer p') = 9%nat ∧
      log_of p' = log_of p ++ [IoRead 9].
Proof.
  intros Hrb Hi o ->. rewrite logged_read, Hrb.
  destruct (sys_read _ _) as [[received | e] d]; cbn.
  - assert (Hlt : (Z.to_nat i <
                   length (overwrite (Processor.readBuffer p) received))%nat)
      by (rewrite length_overwrite, Hrb; lia).
    apply lookup_lt_is_Some_2 in Hlt as [b Hb]. rewrite Hb. cbn.
    eexists; repeat split. cbn. by rewrite length_overwrite.
  - eexists; by repeat split.
Qed.

Lemma rest_zero_insert (r : list Z) (i : nat) (v : Z) :
  (1 ≤ i ≤ 3)%nat → rest_zero r → rest_zero (<[i := v]> r).
Proof.
  intros Hi (Hlen & H0 & Hrest). split; [by rewrite length_insert |].
  split; [by rewrite list_lookup_insert_ne by lia |].
  intros j Hj. rewrite list_lookup_insert_ne by lia. by apply Hrest.
Qed.

(** One call with a slot of 0 or 1 keeps the invariant, and what it
    sends satisfies it. *)
Lemma run_call_rest_zero (c : call) (p : Processor.t (Logged.t D)) :
  call_slot c = 0 ∨ call_slot c = 1 →
  length (Processor.readBuffer p) = 9%nat →
  rest_zero (Processor.writeBuffer p) →
  ∃ p' new,
    run_call c p = Some p' ∧
    length (Processor.readBuffer p') = 9%nat ∧
    rest_zero (Processor.writeBuffer p') ∧
    log_of p' = log_of p ++ new ∧
    Forall rest_zero (written new).
Proof.
  intros Hs Hrb Hinv.
  destruct (slot_indices _ Hs) as (Ht & Hval & Hw).
  destruct c as [s | s | s v]; cbn [call_slot] in *; cbn [run_call].
  - destruct (read_recorded (Processor.type_index s) p Hrb
                ltac:(rewrite Ht; lia) _ (readType_unfold s p))
      as (p' & Hst & Hwb' & Hrb' & Hlog).
    exists p', [IoRead 9]. rewrite Hwb'.
    split; [done |]. split; [done |]. split; [done |]. split; [done |].
    cbn. constructor.
  - destruct (read_recorded (Processor.value_index s) p Hrb
                ltac:(rewrite Hval; lia) _ (readValue_unfold s p))
      as (p' & Hst & Hwb' & Hrb' & Hlog).
    exists p', [IoRead 9]. rewrite Hwb'.
    split; [done |]. split; [done |]. split; [done |]. split; [done |].
    cbn. constructor.
  - destruct (writeValue_recorded s v p (proj1 Hinv)
                ltac:(rewrite Hw; lia))
      as (p' & Hst & Hwb' & Hrb' & Hlog).
    assert (Hinv' : rest_zero (Processor.writeBuffer p')).
    { rewrite Hwb'. apply rest_zero_insert; [rewrite Hw; lia |].
      by apply rest_zero_insert; [lia |]. }
    exists p', [IoWrite (Processor.writeBuffer p')].
    split; [done |]. split; [congruence |]. split; [done |].
    split; [done |]. cbn. by constructor.
Qed.

Lemma run_calls_rest_zero (cs : list call) (p : Processor.t (Logged.t D)) :
  Forall (λ c, call_slot c = 0 ∨ call_slot c = 1) cs →
  length (Processor.readBuffer p) = 9%nat →
  rest_zero (Processor.writeBuffer p) →
  ∃ p' new,
    run_calls cs p = Some p' ∧
    log_of p' = log_of p ++ new ∧
    Forall rest_zero (written new).
Proof.
  intros Hcs. revert p.
  induction Hcs as [| c cs Hc _ IH]; intros p Hrb Hinv.
  - exists p, []. cbn. rewrite app_nil_r. by repeat split.
  - destruct (run_call_rest_zero c p Hc Hrb Hinv)
      as (p1 & new1 & Hrun & Hrb1 & Hinv1 & Hlog1 & Hw1).
    destruct (IH p1 Hrb1 Hinv1) as (p' & new2 & Hruns & Hlog2 & Hw2).
    exists p', (new1 ++ new2). cbn [run_calls]. rewrite Hrun.
    split; [done |]. split; [by rewrite Hlog2, Hlog1, app_assoc |].
    unfold written. rewrite omap_app. by apply Forall_app.
Qed.

Lemma ctor_rest_zero (f : File.t (Logged.t D)) :
  rest_zero (Processor.writeBuffer (Processor.ctor f)).
Proof.
  split; [reflexivity |]. split; [reflexivity |].
  intros i Hi. unfold Processor.ctor, Processor.writeBuffer.
  apply lookup_replicate_2. lia.
Qed.

End Recorded.

Section Sticky.
Context {D : Type} `{RawChannel D}.

(** C7. On one processor, [writeValue 0 10] followed by
    [writeValue 1 20] sends two reports, and the second is 9 bytes
    long with 64 at offset 1, 10 at offset 2 and 20 at offset 3: the
    write buffer is kept between the calls, also when the first
    transfer fails.  In general a write to one slot leaves the byte
    of the other slot in the buffer as it was. *)
Theorem sticky_write_buffer (p : Processor.t (Logged.t D)) :
  length (Processor.writeBuffer p) = 9%nat →
  (∃ p1 p2 first second,
      state_of (Processor.writeValue 0 10 p) = Some p1 ∧
      state_of (Processor.writeValue 1 20 p1) = Some p2 ∧
      log_of p2 = log_of p ++ [IoWrite first; IoWrite second] ∧
      length second = 9%nat ∧
      second !! 1%nat = Some 64 ∧
      second !! 2%nat = Some 10 ∧
      second !! 3%nat = Some 20) ∧
  (∀ s v, s = 0 ∨ s = 1 →
      ∃ p', state_of (Processor.writeValue s v p) = Some p' ∧
            Processor.writeBuffer p' !! Z.to_nat (3 - s) =
              Processor.writeBuffer p !! Z.to_nat (3 - s)).
Proof.
  intros Hwb. split.
  - destruct (writeValue_recorded 0 10 p Hwb
                ltac:(change (Z.to_nat (Processor.write_index 0)) with 2%nat; lia))
      as (p1 & Hst1 & Hwb1 & _ & Hlog1).
    assert (Hlen1 : length (Processor.writeBuffer p1) = 9%nat)
      by (by rewrite Hwb1, !length_insert).
    destruct (writeValue_recorded 1 20 p1 Hlen1
                ltac:(change (Z.to_nat (Processor.write_index 1)) with 3%nat; lia))
      as (p2 & Hst2 & Hwb2 & _ & Hlog2).
    exists p1, p2, (Processor.writeBuffer p1), (Processor.writeBuffer p2).
    split; [done |]. split; [done |].
    split; [by rewrite Hlog2, Hlog1, <- app_assoc |].
    rewrite Hwb2, Hwb1.
    change (Z.to_nat (Processor.write_index 0)) with 2%nat.
    change (Z.to_nat (Processor.write_index 1)) with 3%nat.
    remember (Processor.writeBuffer p) as wb eqn:Heq; clear Heq.
    nine wb Hwb. by repeat split.
  - intros s v Hs.
    destruct (slot_indices _ Hs) as (_ & _ & Hw).
    destruct (writeValue_recorded s v p Hwb ltac:(rewrite Hw; lia))
      as (p' & Hst & Hwb' & _ & _).
    exists p'. split; [done |]. rewrite Hwb', Hw.
    rewrite !list_lookup_insert_ne by lia. done.
Qed.

(** C9. With a slot of 0 or 1 and the two buffers 9 bytes long, the
    indices of the three member functions lie inside the buffers, at
    most 6 for a read and at most 3 for a write (both reached by
    slot 1), and no call is undefined.  Nothing checks the slot: a
    write for a slot from 7 on, and a read for a slot from 3 on once
    the transfer has succeeded, is an access outside the buffer and
    not an exception. *)
Theorem slot_bounds (p : Processor.t D) (s v : Z) :
  s = 0 ∨ s = 1 →
  length (Processor.readBuffer p) = 9%nat →
  length (Processor.writeBuffer p) = 9%nat →
  (0 ≤ Processor.type_index s ≤ 6 ∧
   0 ≤ Processor.value_index s ≤ 6 ∧
   0 ≤ Processor.write_index s ≤ 3) ∧
  (Processor.type_index 1 = 6 ∧ Processor.write_index 1 = 3) ∧
  (is_undefined (Processor.readType s p) = false ∧
   is_undefined (Processor.readValue s p) = false ∧
   is_undefined (Processor.writeValue s v p) = false) ∧
  (∀ s', 7 ≤ s' ≤ 255 → Processor.writeValue s' v p = Undefined) ∧
  (∀ s' received d,
      3 ≤ s' ≤ 255 →
      sys_read (File.chan (Processor.file p)) 9 = (SysOk received, d) →
      Processor.readType s' p = Undefined ∧
      Processor.readValue s' p = Undefined).
Proof.
  intros Hs Hrb Hwb.
  destruct (slot_indices _ Hs) as (Ht & Hval & Hw).
  split; [rewrite Ht, Hval, Hw; lia |].
  split; [by split |].
  split; [split; [| split] |].
  - rewrite readType_unfold.
    destruct (sys_read _ _) as [[received | e] d]; [| done]. cbn zeta.
    destruct (lookup_lt_is_Some_2 (overwrite (Processor.readBuffer p) received)
                (Z.to_nat (Processor.type_index s))) as [b ->]; [| done].
    rewrite length_overwrite, Hrb, Ht. lia.
  - rewrite readValue_unfold.
    destruct (sys_read _ _) as [[received | e] d]; [| done]. cbn zeta.
    destruct (lookup_lt_is_Some_2 (overwrite (Processor.readBuffer p) received)
                (Z.to_nat (Processor.value_index s))) as [b ->]; [| done].
    rewrite length_overwrite, Hrb, Hval. lia.
  - rewrite writeValue_unfold.
    rewrite (array_set_Some _ 1 64) by (rewrite Hwb; lia).
    rewrite array_set_Some by (rewrite length_insert, Hwb, Hw; lia).
    by destruct (sys_write _ _) as [[n | e] d].
  - split.
    + intros s' Hs'. rewrite writeValue_unfold.
      rewrite (array_set_Some _ 1 64) by (rewrite Hwb; lia).
      rewrite array_set_None; [done |].
      rewrite length_insert, Hwb. unfold Processor.write_index, u32.
      rewrite Z.mod_small by lia. lia.
    + intros s' received d Hs' Hread.
      rewrite readType_unfold, readValue_unfold, Hrb, Hread. cbn zeta.
      rewrite !lookup_ge_None_2; [done | |];
        rewrite length_overwrite, Hrb;
        unfold Processor.value_index, Processor.type_index, u32;
        rewrite !Z.mod_small by (try rewrite Z.mod_small; lia); lia.
Qed.
End Sticky.

(** The sticky buffer on a fresh recorded processor. *)
Lemma sticky_write_buffer_witness :
  ∃ p1 p2 first second,
    state_of (Processor.writeValue 0 10 logged_processor) = Some p1 ∧
    state_of (Processor.writeValue 1 20 p1) = Some p2 ∧
    log_of p2 = log_of logged_processor ++ [IoWrite first; IoWrite second] ∧
    length second = 9%nat ∧
    second !! 1%nat = Some 64 ∧
    second !! 2%nat = Some 10 ∧
    second !! 3%nat = Some 20.
Proof.
  apply (sticky_write_buffer logged_processor). reflexivity.
Defined.

(** The bounds on a fresh processor, slot 1. *)
Lemma slot_bounds_witness :
  0 ≤ Processor.type_index 1 ≤ 6 ∧
  0 ≤ Processor.value_index 1 ≤ 6 ∧
  0 ≤ Processor.write_index 1 ≤ 3.
Proof.
  apply (slot_bounds echo_processor 1 0); [by right | reflexivity | reflexivity].
Defined.

(** ** Writing a slot and reading it back *)

(** C8. Against the echo stub, for a device on slot 0 or 1 and a byte
    [v]: [setValue v] returns, and [getValue] right after it returns
    [v]. *)
Theorem echo_roundtrip (h : list (Processor.t Echo.t)) (d : Device.t)
    (p : Processor.t Echo.t) (v : Z) :
  Device.slot d = 0 ∨ Device.slot d = 1 →
  0 ≤ v ≤ 255 →
  h !! Device.processor d = Some p →
  length (Processor.readBuffer p) = 9%nat →
  length (Processor.writeBuffer p) = 9%nat →
  length (File.chan (Processor.file p)) = 9%nat →
  ∃ h1 h2,
    Device.setValue d v h = Ret tt h1 ∧
    Device.getValue d h1 = Ret v h2.
Proof.
  intros Hs Hv Hp Hrb Hwb Hch.
  destruct d as [s a]; cbn [Device.slot Device.processor] in *.
  assert (Ha : (a < length h)%nat) by (by eapply lookup_lt_Some).
  destruct p as [[fd ch] rb wb]; cbn [Processor.readBuffer Processor.writeBuffer
    Processor.file File.chan] in *.
  nine rb Hrb. nine wb Hwb. nine ch Hch.
  unfold Device.setValue, Device.getValue, Device.deref;
    cbn [Device.slot Device.processor].
  rewrite Hp.
  destruct Hs as [-> | ->].
  - eexists _, _. split; [reflexivity |].
    rewrite list_lookup_insert_eq by done. reflexivity.
  - eexists _, _. split; [reflexivity |].
    rewrite list_lookup_insert_eq by done. reflexivity.
Qed.

(** The round trip on a fresh processor in a store of one. *)
Lemma echo_roundtrip_witness :
  ∃ h1 h2,
    Device.setValue (Device.mk 1 0) 200 [echo_processor] = Ret tt h1 ∧
    Device.getValue (Device.mk 1 0) h1 = Ret 200 h2.
Proof.
  apply (echo_roundtrip [echo_processor] (Device.mk 1 0) echo_processor 200);
    [by right | lia | reflexivity | reflexivity | reflexivity | reflexivity].
Defined.

(** ** The scan, candidate by candidate *)

Section Built.
Context {D : Type}.

Lemma built_app (base : nat) (a b : list (candidate D)) :
  built base (a ++ b) = built base a ++ built (base + length a) b.
Proof.
  unfold built. rewrite imap_app. f_equal.
  apply imap_ext. intros k c _. cbn.
  by replace (length a + k + base)%nat with (k + (base + length a))%nat by lia.
Qed.

Lemma allocated_app (a b : list (candidate D)) :
  allocated (a ++ b) = allocated a ++ allocated b.
Proof. apply fmap_app. Qed.

Lemma length_allocated (a : list (candidate D)) :
  length (allocated a) = length a.
Proof. apply length_fmap. Qed.

(** A hub of [built] is the hub of one candidate, and its processor
    is the one allocated for that candidate. *)
Lemma built_lookup (base : nat) (a : list (candidate D)) (hub : Hub.t) :
  hub ∈ built base a →
  ∃ k c,
    a !! k = Some c ∧
    hub = Hub.mk (c_name c) (c_path c)
            [Device.mk 0 (k + base); Device.mk 1 (k + base)] (k + base)%nat.
Proof.
  intros Hin. apply list_elem_of_lookup in Hin as [k Hk].
  unfold built in Hk. rewrite list_lookup_imap in Hk.
  destruct (a !! k) as [c |] eqn:Hc; [| done].
  exists k, c. split; [done |]. cbn in Hk. congruence.
Qed.

Lemma allocated_lookup (store : list (Processor.t D)) (a : list (candidate D))
    (k : nat) (c : candidate D) :
  a !! k = Some c →
  (store ++ allocated a) !! (k + length store)%nat =
    Some (Processor.mk (c_file c) (replicate 9 0) (replicate 9 0)).
Proof.
  intros Hc. rewrite lookup_app_r by lia.
  replace (k + length store - length store)%nat with k by lia.
  unfold allocated. by rewrite list_lookup_fmap, Hc.
Qed.
End Built.

Section PosixScan.
Context {D : Type} `{RawChannel D}.

(** One turn of the loop comes to the verdict on the entry. *)
Lemma posix_step (ent : Posix.node D) (hubs : list Hub.t) (s : env D) :
  (if String.prefix "hid" (Posix.d_name ent)
   then Posix.probe ent hubs
   else mret hubs) s =
    Ret (hubs ++ built (length (procs s)) (option_list (posix_verdict ent).1))
        (mk_env (procs s ++ allocated (option_list (posix_verdict ent).1))
                (trace s ++ (posix_verdict ent).2)).
Proof.
  destruct s as [store tr]. unfold posix_verdict, Posix.probe.
  destruct (String.prefix "hid" (Posix.d_name ent)); cbn;
    [| by rewrite !app_nil_r].
  unfold try_catch, mbind, File_ctor.
  destruct (Posix.n_open ent =? -1) eqn:Hopen; cbn;
    [by rewrite !app_nil_r |].
  unfold scoped, mbind, File_dtor; cbn.
  destruct (Posix.n_devinfo ent) as [[vendor product] | e]; cbn.
  - destruct ((vendor =? vendorId) && (product =? productId)); cbn.
    + destruct (Posix.n_name ent) as [deviceName | e]; cbn.
      * by rewrite app_nil_r.
      * rewrite Hopen; cbn. by rewrite !app_nil_r, <- app_assoc.
    + rewrite Hopen; cbn. by rewrite !app_nil_r.
  - rewrite Hopen; cbn. by rewrite !app_nil_r, <- app_assoc.
Qed.

Lemma posix_scan_spec (l : list (Posix.node D)) (at_null : option Z)
    (hubs : list Hub.t) (s : env D) :
  Posix.scan l at_null hubs s =
    Ret (hubs ++ built (length (procs s)) (posix_accepted l))
        (mk_env (procs s ++ allocated (posix_accepted l))
                (trace s ++ posix_events l)).
Proof.
  revert hubs s. induction l as [| ent rest IH]; intros hubs s.
  - destruct s as [store tr]. cbn. rewrite !app_nil_r.
    by destruct at_null.
  - cbn [Posix.scan]. unfold mbind at 1. rewrite posix_step, IH.
    cbn [procs trace].
    change (posix_accepted (ent :: rest))
      with (option_list (posix_verdict ent).1 ++ posix_accepted rest).
    change (posix_events (ent :: rest))
      with ((posix_verdict ent).2 ++ posix_events rest).
    rewrite built_app, allocated_app, length_app, length_allocated.
    by rewrite <- !app_assoc.
Qed.

Lemma posix_findHubs_spec (w : Posix.world D) (s : env D) :
  Posix.findHubs w s =
    match Posix.usb_dir w with
    | SysErr e => Throw (system_error e "Failed to open directory") s
    | SysOk dir =>
        Ret (built (length (procs s)) (posix_accepted (Posix.entries dir)))
            (mk_env (procs s ++ allocated (posix_accepted (Posix.entries dir)))
                    (trace s ++ posix_events (Posix.entries dir) ++ [CloseDir]))
    end.
Proof.
  unfold Posix.findHubs, mbind, syscall.
  destruct (Posix.usb_dir w) as [dir | e]; [| reflexivity]. cbn.
  unfold finally. rewrite posix_scan_spec. cbn. by rewrite <- app_assoc.
Qed.
End PosixScan.

Section Win32Scan.
Context {D : Type} `{RawChannel D}.

(** The [try] block of one interface comes to the verdict on it. *)
Lemma win32_probe_spec (i : Win32.iface D) (hubs : list Hub.t) (s : env D) :
  Win32.probe i (win32_path i) hubs s =
    Ret (hubs ++ built (length (procs s)) (option_list (win32_verdict i).1))
        (mk_env (procs s ++ allocated (option_list (win32_verdict i).1))
                (trace s ++ (win32_verdict i).2)).
Proof.
  destruct s as [store tr]. unfold win32_verdict, Win32.probe.
  unfold try_catch, mbind, File_ctor.
  destruct (Win32.i_open i =? -1) eqn:Hopen; cbn;
    [by rewrite !app_nil_r |].
  unfold scoped, mbind, File_dtor; cbn.
  destruct (Win32.i_attributes i) as [[VendorID ProductID] |]; cbn;
    [| rewrite Hopen; cbn; by rewrite !app_nil_r].
  destruct ((VendorID =? vendorId) && (ProductID =? productId)); cbn;
    [| rewrite Hopen; cbn; by rewrite !app_nil_r].
  unfold Win32.win_syscall, syscall.
  destruct (Win32.i_product_string i) as [u | e]; cbn;
    [| rewrite Hopen; cbn; by rewrite !app_nil_r].
  destruct (Win32.i_utf8_size i) as [byteCount | e]; cbn;
    [| rewrite Hopen; cbn; by rewrite !app_nil_r].
  destruct (Win32.i_utf8 i) as [buffer | e]; cbn;
    [| rewrite Hopen; cbn; by rewrite !app_nil_r].
  by rewrite app_nil_r.
Qed.

(** The statements before the [try] block throw exactly the failures
    of the enumeration. *)
Lemma win32_scan_cons (i : Win32.iface D) (rest : list (Win32.iface D))
    (enum_error : Z) (hubs : list Hub.t) (s : env D) :
  Win32.scan (i :: rest) enum_error hubs s =
    match win32_fatal i with
    | Some e => Throw e s
    | None =>
        (let* hubs' := Win32.probe i (win32_path i) hubs in
         Win32.scan rest enum_error hubs') s
    end.
Proof.
  cbn [Win32.scan]. unfold win32_fatal, win32_path, mbind,
    Win32.required_length, Win32.InterfaceDetailData_ctor,
    Win32.win_syscall, syscall.
  destruct (Win32.i_size_query i) as [u | error]; cbn.
  - destruct (Win32.i_malloc i); cbn; [| reflexivity].
    by destruct (Win32.i_detail i) as [DevicePath | e].
  - destruct (negb (error =? Win32.ERROR_INSUFFICIENT_BUFFER)); cbn;
      [reflexivity |].
    destruct (Win32.i_malloc i); cbn; [| reflexivity].
    by destruct (Win32.i_detail i) as [DevicePath | e].
Qed.

Lemma win32_scan_spec (l : list (Win32.iface D)) (enum_error : Z)
    (hubs : list Hub.t) (s : env D) :
  Win32.scan l enum_error hubs s =
    let s' := mk_env (procs s ++ allocated (win32_scan l enum_error).1.1)
                     (trace s ++ (win32_scan l enum_error).1.2) in
    match (win32_scan l enum_error).2 with
    | None =>
        Ret (hubs ++ built (length (procs s)) (win32_scan l enum_error).1.1) s'
    | Some e => Throw e s'
    end.
Proof.
  revert hubs s. induction l as [| i rest IH]; intros hubs s.
  - destruct s as [store tr]. cbn.
    destruct (negb (enum_error =? Win32.ERROR_NO_MORE_ITEMS)); cbn;
      by rewrite !app_nil_r.
  - rewrite win32_scan_cons. cbn [win32_scan].
    destruct (win32_fatal i) as [e |].
    + destruct s as [store tr]. cbn. by rewrite !app_nil_r.
    + unfold mbind. rewrite win32_probe_spec, IH.
      destruct (win32_scan rest enum_error) as [[cs evs] e].
      cbn [fst snd procs trace].
      rewrite built_app, allocated_app, length_app, length_allocated.
      rewrite <- !app_assoc. by destruct e.
Qed.

Lemma delete_processors_spec (ps : list (Processor.t D)) (s : env D) :
  Win32.delete_processors ps s =
    Ret tt (mk_env (procs s) (trace s ++ closes_of ps)).
Proof.
  revert s. induction ps as [| p rest IH]; intros s.
  - cbn. rewrite app_nil_r. by destruct s.
  - cbn [Win32.delete_processors]. unfold mbind, File_dtor.
    change (closes_of (p :: rest))
      with ((if File.fd (Processor.file p) =? -1
             then [] else [Close (File.fd (Processor.file p))])
            ++ closes_of rest).
    destruct (File.fd (Processor.file p) =? -1); cbn; rewrite IH; cbn.
    + done.
    + by rewrite <- app_assoc.
Qed.

Lemma win32_findHubs_spec (w : Win32.world D) (s : env D) :
  Win32.findHubs w s =
    match Win32.class_devs w with
    | SysErr e =>
        Throw (system_error (Win32.to_int e) "Failed to get devices") s
    | SysOk devInfo =>
        let scanned :=
          win32_scan (Win32.ifaces devInfo) (Win32.enum_error devInfo) in
        match scanned.2 with
        | None =>
            Ret (built (length (procs s)) scanned.1.1)
                (mk_env (procs s ++ allocated scanned.1.1)
                        (trace s ++ scanned.1.2 ++ [DestroyDevInfo]))
        | Some e =>
            Throw e
              (mk_env (procs s ++ allocated scanned.1.1)
                      (trace s ++ scanned.1.2 ++ [DestroyDevInfo] ++
                       closes_of (allocated scanned.1.1)))
        end
    end.
Proof.
  unfold Win32.findHubs, Win32.hubs_scope, mbind, Win32.win_syscall, syscall.
  destruct (Win32.class_devs w) as [devInfo | e]; cbn.
  - unfold finally. rewrite win32_scan_spec. cbn zeta.
    destruct (win32_scan _ _) as [[cs evs] [e |]]; cbn [fst snd].
    + cbn. rewrite drop_app_length, delete_processors_spec. cbn.
      by rewrite <- !app_assoc.
    + cbn. by rewrite <- app_assoc.
  - rewrite drop_all. cbn. by destruct s.
Qed.
End Win32Scan.

(** ** The shape of a hub *)

Section HubShape.
Context {D : Type} `{RawChannel D}.

Lemma Hub_ctor_spec (n p : string) (f : File.t D)
    (store : list (Processor.t D)) :
  Hub.ctor n p f store =
    Ret (Hub.mk n p [Device.mk 0 (length store); Device.mk 1 (length store)]
           (length store))
        (store ++ [Processor.ctor f]).
Proof. reflexivity. Qed.

(** The hub the constructor returns, its processor and its shape. *)
Lemma Hub_ctor_shape (n p : string) (f : File.t D)
    (store : list (Processor.t D)) :
  let hub := Hub.mk n p [Device.mk 0 (length store); Device.mk 1 (length store)]
               (length store) in
  Hub.ctor n p f store = Ret hub (store ++ [Processor.ctor f]) ∧
  (store ++ [Processor.ctor f]) !! Hub.processor hub = Some (Processor.ctor f) ∧
  hub_shape hub (store ++ [Processor.ctor f]).
Proof.
  intros hub.
  assert (Hnew : (store ++ [Processor.ctor f]) !! length store
                 = Some (Processor.ctor f))
    by (by rewrite lookup_app_r, Nat.sub_diag).
  split; [reflexivity |]. split; [exact Hnew |].
  split; [reflexivity |]. eexists. split; [exact Hnew |]. by split.
Qed.

(** A call for slot 0 or 1 on a processor with 9-byte buffers is
    defined and leaves the buffers 9 bytes long. *)
Lemma run_call_buffers (c : call) (p : Processor.t D) :
  call_slot c = 0 ∨ call_slot c = 1 →
  length (Processor.readBuffer p) = 9%nat →
  length (Processor.writeBuffer p) = 9%nat →
  ∃ p', run_call c p = Some p' ∧
        length (Processor.readBuffer p') = 9%nat ∧
        length (Processor.writeBuffer p') = 9%nat.
Proof.
  intros Hs Hrb Hwb.
  destruct (slot_indices _ Hs) as (Ht & Hval & Hw).
  destruct c as [s | s | s v]; cbn [call_slot run_call] in *.
  - rewrite readType_unfold.
    destruct (sys_read _ _) as [[received | e] d]; cbn zeta;
      [| eexists; by repeat split].
    destruct (lookup_lt_is_Some_2 (overwrite (Processor.readBuffer p) received)
                (Z.to_nat (Processor.type_index s))) as [b ->].
    { rewrite length_overwrite, Hrb, Ht. lia. }
    eexists. split; [reflexivity |]. cbn. by rewrite length_overwrite.
  - rewrite readValue_unfold.
    destruct (sys_read _ _) as [[received | e] d]; cbn zeta;
      [| eexists; by repeat split].
    destruct (lookup_lt_is_Some_2 (overwrite (Processor.readBuffer p) received)
                (Z.to_nat (Processor.value_index s))) as [b ->].
    { rewrite length_overwrite, Hrb, Hval. lia. }
    eexists. split; [reflexivity |]. cbn. by rewrite length_overwrite.
  - rewrite writeValue_unfold.
    rewrite (array_set_Some _ 1 64) by (rewrite Hwb; lia).
    rewrite array_set_Some by (rewrite length_insert, Hwb, Hw; lia).
    destruct (sys_write _ _) as [[n | e] d]; eexists;
      (split; [reflexivity |]); cbn; by rewrite !length_insert.
Qed.

(** A call through a pointer changes the cell it points at and
    nothing else of the store. *)
Lemma deref_state {A} (a : nat) (m : M (Processor.t D) A)
    (store : list (Processor.t D)) (p : Processor.t D) :
  store !! a = Some p →
  state_of (Device.deref a m store) = (λ p', <[a := p']> store) <$> state_of (m p).
Proof.
  intros Hp. unfold Device.deref. rewrite Hp. by destruct (m p).
Qed.

Lemma hub_shape_insert (hub : Hub.t) (store : list (Processor.t D))
    (p' : Processor.t D) :
  hub_shape hub store →
  length (Processor.readBuffer p') = 9%nat →
  length (Processor.writeBuffer p') = 9%nat →
  hub_shape hub (<[Hub.processor hub := p']> store).
Proof.
  intros (Hdev & p & Hp & _) Hrb Hwb. split; [done |].
  exists p'. split; [| done].
  apply list_lookup_insert_eq. by eapply lookup_lt_Some.
Qed.

Lemma state_of_defined {S A} (o : outcome S A) :
  is_undefined o = false → ∃ s, state_of o = Some s.
Proof. destruct o; [by eexists | by eexists | done]. Qed.

(** The devices of a hub carry slot 0 or 1 and its processor. *)
Lemma device_of_shape (hub : Hub.t) (store : list (Processor.t D))
    (i : nat) (d : Device.t) :
  hub_shape hub store →
  Hub.getDevices hub !! i = Some d →
  (Device.slot d = 0 ∨ Device.slot d = 1) ∧
  Device.processor d = Hub.processor hub.
Proof.
  intros [Hdev _] Hd. rewrite Hdev in Hd.
  destruct i as [| [| i]]; cbn in Hd; [| | done];
    injection Hd as <-; cbn; auto.
Qed.

(** The state a member function of a device leaves, from the state its
    call leaves on the processor. *)
Ltac device_step pc :=
  lazymatch goal with
  | Hp : ?store !! Hub.processor ?hub = Some ?p,
    Hproc : Device.processor ?d = Hub.processor ?hub
    |- context [Device.deref (Device.processor ?d) ?m ?store] =>
      let Hst := fresh "Hst" in
      rewrite <- Hproc in Hp;
      pose proof (deref_state (Device.processor d) m store p Hp) as Hst;
      destruct (Device.deref (Device.processor d) m store) as [? h | ? h |];
      cbn in Hst |- *; [| | done];
      (intros [= <- <-]; split; [reflexivity |]; right; exists pc;
       cbn [run_call call_slot];
       destruct (state_of (m p)) as [p' |]; [| done];
       injection Hst as ->; exists p'; rewrite Hproc; by repeat split)
  end.

(** A call on a hub leaves the hub as it was, and the store either as
    it was or with the processor of the hub after one call for slot 0
    or 1. *)
Lemma run_hub_call_step (c : hub_call) (hub : Hub.t)
    (store : list (Processor.t D)) (p : Processor.t D) :
  hub_shape hub store →
  store !! Hub.processor hub = Some p →
  ∀ hub' store',
    state_of (run_hub_call c (hub, store)) = Some (hub', store') →
    hub' = hub ∧
    (store' = store ∨
     ∃ pc p',
       (call_slot pc = 0 ∨ call_slot pc = 1) ∧
       run_call pc p = Some p' ∧
       store' = <[Hub.processor hub := p']> store).
Proof.
  intros Hshape Hp hub' store'.
  destruct c as [| | | i | i | i | i v]; cbn [run_hub_call fst];
    try (cbn; intros [= <- <-]; by auto).
  - unfold mbind, device_at.
    destruct (Hub.getDevices hub !! i) as [d |]; [| done].
    cbn. intros [= <- <-]. by auto.
  - unfold mbind, device_at.
    destruct (Hub.getDevices hub !! i) as [d |] eqn:Hd; [| done].
    destruct (device_of_shape hub store i d Hshape Hd) as [Hslot Hproc].
    unfold on_store, Device.getType, mbind; cbn [snd fst].
    device_step (ReadType (Device.slot d)).
  - unfold mbind, device_at.
    destruct (Hub.getDevices hub !! i) as [d |] eqn:Hd; [| done].
    destruct (device_of_shape hub store i d Hshape Hd) as [Hslot Hproc].
    unfold on_store, Device.getValue, mbind; cbn [snd fst].
    device_step (ReadValue (Device.slot d)).
  - unfold mbind, device_at.
    destruct (Hub.getDevices hub !! i) as [d |] eqn:Hd; [| done].
    destruct (device_of_shape hub store i d Hshape Hd) as [Hslot Hproc].
    unfold on_store, Device.setValue, mbind; cbn [snd fst].
    device_step (WriteValue (Device.slot d) v).
Qed.

(** A member function of one of the two devices of a hub. *)
Lemma device_call_shape (hub : Hub.t) (store : list (Processor.t D))
    (i : nat) (d : Device.t) (c : call) :
  hub_shape hub store →
  Hub.getDevices hub !! i = Some d →
  call_slot c = Device.slot d →
  ∃ p store',
    store !! Device.processor d = Some p ∧
    (λ p', <[Device.processor d := p']> store) <$> run_call c p = Some store' ∧
    hub_shape hub store'.
Proof.
  intros Hshape Hd Hc.
  pose proof Hshape as (Hdev & p & Hp & Hrb & Hwb).
  destruct (device_of_shape hub store i d Hshape Hd) as [Hslot Hproc].
  rewrite <- Hc in Hslot.
  destruct (run_call_buffers c p Hslot Hrb Hwb) as (p' & Hrun & Hrb' & Hwb').
  exists p, (<[Hub.processor hub := p']> store).
  rewrite Hproc, Hrun. split; [done |]. split; [done |].
  by apply hub_shape_insert.
Qed.

(** No call on a hub changes the hub, and the shape is kept. *)
Lemma run_hub_call_shape (c : hub_call) (hub : Hub.t)
    (store : list (Processor.t D)) :
  hub_shape hub store →
  ∀ hub' store',
    state_of (run_hub_call c (hub, store)) = Some (hub', store') →
    hub' = hub ∧ hub_shape hub store'.
Proof.
  intros Hshape hub' store' Hst.
  pose proof Hshape as (_ & p & Hp & Hrb & Hwb).
  destruct (run_hub_call_step c hub store p Hshape Hp hub' store' Hst)
    as [-> [-> | (pc & p' & Hslot & Hrun & ->)]]; [done |].
  split; [done |].
  destruct (run_call_buffers pc p Hslot Hrb Hwb) as (p'' & Hrun' & Hrb' & Hwb').
  assert (p'' = p') as -> by congruence.
  by apply hub_shape_insert.
Qed.

(** The hubs built by a scan have the shape, in the store the scan
    leaves. *)
Lemma built_shape (store : list (Processor.t D)) (cs : list (candidate D)) :
  Forall (λ hub, hub_shape hub (store ++ allocated cs))
         (built (length store) cs).
Proof.
  apply Forall_forall. intros hub Hin.
  apply built_lookup in Hin as (k & c & Hc & ->).
  split; [reflexivity |]. cbn [Hub.processor].
  eexists. split; [by apply allocated_lookup |]. by split.
Qed.
End HubShape.

Section HubInvariant.
Context {D : Type} `{RawChannel D}.

(** With a position inside the vector every call on a hub is
    defined. *)
Lemma run_hub_call_defined (c : hub_call) (hub : Hub.t)
    (store : list (Processor.t D)) :
  hub_shape hub store →
  (hub_call_index c < 2)%nat →
  is_undefined (run_hub_call c (hub, store)) = false.
Proof.
  intros Hshape Hi.
  assert (Hd : ∀ i, (i < 2)%nat → ∃ d, Hub.getDevices hub !! i = Some d).
  { intros i Hlt. apply lookup_lt_is_Some_2.
    destruct Hshape as [-> _]. cbn. lia. }
  destruct c as [| | | i | i | i | i v]; cbn [run_hub_call fst hub_call_index] in *;
    try done; destruct (Hd i Hi) as [d Hdi];
    unfold mbind, device_at; rewrite Hdi; [done | | |].
  - destruct (device_call_shape hub store i d (ReadType (Device.slot d))
                Hshape Hdi eq_refl) as (p & store1 & Hp & Hrun & _).
    unfold on_store, Device.getType, mbind; cbn [snd fst].
    pose proof (deref_state (Device.processor d)
                  (Processor.readType (Device.slot d)) store p Hp) as Hst.
    cbn [run_call] in Hrun. rewrite Hrun in Hst.
    by destruct (Device.deref _ _ store) as [b h | e h |].
  - destruct (device_call_shape hub store i d (ReadValue (Device.slot d))
                Hshape Hdi eq_refl) as (p & store1 & Hp & Hrun & _).
    unfold on_store, Device.getValue, mbind; cbn [snd fst].
    pose proof (deref_state (Device.processor d)
                  (Processor.readValue (Device.slot d)) store p Hp) as Hst.
    cbn [run_call] in Hrun. rewrite Hrun in Hst.
    by destruct (Device.deref _ _ store) as [b h | e h |].
  - destruct (device_call_shape hub store i d (WriteValue (Device.slot d) v)
                Hshape Hdi eq_refl) as (p & store1 & Hp & Hrun & _).
    unfold on_store, Device.setValue, mbind; cbn [snd fst].
    pose proof (deref_state (Device.processor d)
                  (Processor.writeValue (Device.slot d) v) store p Hp) as Hst.
    cbn [run_call] in Hrun. rewrite Hrun in Hst.
    by destruct (Device.deref _ _ store) as [b h | e h |].
Qed.

(** C4. The constructor of [Hub] allocates one processor and gives
    the hub exactly two devices, slot 0 then slot 1, both pointing
    at that processor.  Every call on a hub — an accessor or a
    member function of one of its devices — is defined when it
    indexes inside [getDevices()], and leaves the hub, and so its
    device sequence, as it was.  The hubs [findHubs] returns, on
    either platform, have this shape. *)
Theorem hub_two_devices (store : list (Processor.t D)) :
  (∀ n p f,
      ∃ hub store',
        Hub.ctor n p f store = Ret hub store' ∧
        Hub.getDevices hub =
          [Device.mk 0 (Hub.processor hub); Device.mk 1 (Hub.processor hub)] ∧
        Device.getSlot <$> Hub.getDevices hub = [0; 1] ∧
        store !! Hub.processor hub = None ∧
        store' = store ++ [Processor.ctor f] ∧
        store' !! Hub.processor hub = Some (Processor.ctor f) ∧
        hub_shape hub store') ∧
  (∀ hub c,
      hub_shape hub store →
      ((hub_call_index c < 2)%nat →
       is_undefined (run_hub_call c (hub, store)) = false) ∧
      ∀ hub' store',
        state_of (run_hub_call c (hub, store)) = Some (hub', store') →
        Hub.getDevices hub' = Hub.getDevices hub ∧
        hub' = hub ∧
        hub_shape hub' store') ∧
  (∀ w tr hubs s',
      Posix.findHubs w (mk_env store tr) = Ret hubs s' →
      Forall (λ hub, length (Hub.getDevices hub) = 2%nat ∧
                     hub_shape hub (procs s')) hubs) ∧
  (∀ w tr hubs s',
      Win32.findHubs w (mk_env store tr) = Ret hubs s' →
      Forall (λ hub, length (Hub.getDevices hub) = 2%nat ∧
                     hub_shape hub (procs s')) hubs).
Proof.
  split; [| split; [| split]].
  - intros n p f. eexists _, _. split; [apply Hub_ctor_spec |].
    split; [reflexivity |]. split; [reflexivity |].
    split; [by apply lookup_ge_None_2 |]. split; [reflexivity |].
    assert (Hnew : (store ++ [Processor.ctor f]) !! length store
                   = Some (Processor.ctor f))
      by (by rewrite lookup_app_r, Nat.sub_diag).
    split; [exact Hnew |]. split; [reflexivity |].
    eexists. split; [exact Hnew |]. by split.
  - intros hub c Hshape. split; [by apply run_hub_call_defined |].
    intros hub' store' Hst.
    destruct (run_hub_call_shape c hub store Hshape hub' store' Hst)
      as [-> Hshape'].
    split; [reflexivity |]. split; [reflexivity | exact Hshape'].
  - intros w tr hubs s'. rewrite posix_findHubs_spec.
    destruct (Posix.usb_dir w) as [dir | e]; [| done].
    cbn [procs]. intros [= <- <-]. cbn [procs].
    eapply Forall_impl; [apply built_shape |].
    intros hub Hshape. split; [| done]. by destruct Hshape as [-> _].
  - intros w tr hubs s'. rewrite win32_findHubs_spec.
    destruct (Win32.class_devs w) as [devInfo | e]; [| done].
    cbn zeta. cbn [procs].
    destruct (win32_scan _ _).2; [done |].
    intros [= <- <-]. cbn [procs].
    eapply Forall_impl; [apply built_shape |].
    intros hub Hshape. split; [| done]. by destruct Hshape as [-> _].
Qed.
End HubInvariant.

(** The scan of section 8 of the specification: of three candidates,
    the first fails to open, the second is another product, the third
    is a hub; exactly the third is returned, and the second is closed. *)
Example posix_three_candidates :
  Posix.findHubs posix_three start =
    Ret [the_hub]
        (mk_env [Processor.ctor (File.mk 5 Echo.init)]
                [Cerr (system_error EACCES "Failed to open file");
                 Close 4; CloseDir]).
Proof. reflexivity. Qed.

Example win32_three_candidates :
  Win32.findHubs win32_three start =
    Ret [Hub.mk "LEGO USB Hub" "hid#2" [Device.mk 0 0; Device.mk 1 0] 0]
        (mk_env [Processor.ctor (File.mk 5 Echo.init)]
                [Close 4; DestroyDevInfo]).
Proof. reflexivity. Qed.

(** The shape of the hub of the example, and a call on it. *)
Lemma hub_two_devices_witness :
  ∃ store',
    state_of (run_hub_call (SetValue 1 7)
                (the_hub, [Processor.ctor (File.mk 5 Echo.init)]))
      = Some (the_hub, store') ∧
    Hub.getDevices the_hub = [Device.mk 0 0; Device.mk 1 0] ∧
    hub_shape the_hub store'.
Proof.
  assert (Hshape : hub_shape the_hub [Processor.ctor (File.mk 5 Echo.init)]).
  { split; [reflexivity |]. eexists. by repeat split. }
  destruct (hub_two_devices [Processor.ctor (File.mk 5 Echo.init)])
    as (_ & Hcall & _).
  destruct (Hcall the_hub (SetValue 1 7) Hshape) as [_ Hkeep].
  eexists. split; [reflexivity |]. split; [reflexivity |].
  eapply Hkeep. reflexivity.
Defined.

(** ** The write reports of a hub *)

Section HubWrites.
Context {D : Type} `{RawChannel D}.

(** What holds of a hub and its recorded processor between calls. *)
Lemma run_hub_calls_rest_zero (cs : list hub_call) (hub : Hub.t)
    (store : list (Processor.t (Logged.t D))) (p : Processor.t (Logged.t D)) :
  Forall (λ c, (hub_call_index c < 2)%nat) cs →
  hub_shape hub store →
  store !! Hub.processor hub = Some p →
  length (Processor.readBuffer p) = 9%nat →
  rest_zero (Processor.writeBuffer p) →
  ∃ store' p' new,
    run_hub_calls cs (hub, store) = Some (hub, store') ∧
    store' !! Hub.processor hub = Some p' ∧
    log_of p' = log_of p ++ new ∧
    Forall rest_zero (written new).
Proof.
  intros Hcs. revert store p.
  induction Hcs as [| c cs Hc _ IH]; intros store p Hshape Hp Hrb Hinv.
  - exists store, p, []. rewrite app_nil_r. by repeat split.
  - cbn [run_hub_calls].
    destruct (state_of_defined _ (run_hub_call_defined c hub store Hshape Hc))
      as [[hub1 store1] Hst].
    rewrite Hst.
    destruct (run_hub_call_step c hub store p Hshape Hp hub1 store1 Hst)
      as [-> [-> | (pc & p1 & Hslot & Hrun & ->)]].
    + apply (IH store p Hshape Hp Hrb Hinv).
    + destruct (run_call_rest_zero pc p Hslot Hrb Hinv)
        as (p1' & new1 & Hrun' & Hrb1 & Hinv1 & Hlog1 & Hw1).
      assert (p1' = p1) as -> by congruence.
      assert (Hp1 : <[Hub.processor hub := p1]> store !! Hub.processor hub
                    = Some p1).
      { apply list_lookup_insert_eq. by eapply lookup_lt_Some. }
      destruct (IH _ p1 (hub_shape_insert hub store p1 Hshape Hrb1 (proj1 Hinv1))
                  Hp1 Hrb1 Hinv1)
        as (store' & p' & new2 & Hruns & Hp' & Hlog2 & Hw2).
      exists store', p', (new1 ++ new2).
      split; [done |]. split; [done |].
      split; [by rewrite Hlog2, Hlog1, app_assoc |].
      unfold written. rewrite omap_app. by apply Forall_app.
Qed.

(** C10. A processor is built on an open file and then receives any
    sequence of calls, each for slot 0 or 1: no call is undefined, and
    every write report sent over the channel in that time is 9 bytes
    long with zero at offset 0 and at offsets 4 to 8.  The processor
    of a hub receives no other calls: a hub is built and then
    receives any sequence of calls through its two devices, and every
    write report its processor sends is of that form. *)
Theorem write_reports_rest_zero (f : File.t (Logged.t D)) :
  (∀ cs : list call,
      Forall (λ c, call_slot c = 0 ∨ call_slot c = 1) cs →
      ∃ p' new,
        run_calls cs (Processor.ctor f) = Some p' ∧
        Logged.log (File.chan (Processor.file p')) =
          Logged.log (File.chan f) ++ new ∧
        ∀ r, r ∈ written new →
             length r = 9%nat ∧
             r !! 0%nat = Some 0 ∧
             ∀ i, (4 ≤ i ≤ 8)%nat → r !! i = Some 0) ∧
  (∀ (n path : string) (store : list (Processor.t (Logged.t D)))
     (cs : list hub_call),
      Forall (λ c, (hub_call_index c < 2)%nat) cs →
      ∃ hub store0 store' p' new,
        Hub.ctor n path f store = Ret hub store0 ∧
        run_hub_calls cs (hub, store0) = Some (hub, store') ∧
        store' !! Hub.processor hub = Some p' ∧
        Logged.log (File.chan (Processor.file p')) =
          Logged.log (File.chan f) ++ new ∧
        ∀ r, r ∈ written new →
             length r = 9%nat ∧
             r !! 0%nat = Some 0 ∧
             ∀ i, (4 ≤ i ≤ 8)%nat → r !! i = Some 0).
Proof.
  split.
  - intros cs Hcs.
    destruct (run_calls_rest_zero cs (Processor.ctor f) Hcs eq_refl
                (ctor_rest_zero f)) as (p' & new & Hrun & Hlog & Hw).
    exists p', new. split; [done |]. split; [exact Hlog |].
    intros r Hr. rewrite Forall_forall in Hw. exact (Hw r Hr).
  - intros n path store cs Hcs.
    destruct (Hub_ctor_shape n path f store) as (Hctor & Hnew & Hshape).
    destruct (run_hub_calls_rest_zero cs _ _ _ Hcs Hshape Hnew eq_refl
                (ctor_rest_zero f)) as (store' & p' & new & Hrun & Hp' & Hlog & Hw).
    eexists _, _, store', p', new.
    split; [exact Hctor |]. split; [exact Hrun |]. split; [exact Hp' |].
    split; [exact Hlog |].
    intros r Hr. rewrite Forall_forall in Hw. exact (Hw r Hr).
Qed.
End HubWrites.

(** The invariant at a concrete life: write slot 0, read it, write
    slot 1. *)
Lemma write_reports_rest_zero_witness :
  ∃ p' new,
    run_calls [WriteValue 0 10; ReadValue 0; WriteValue 1 20]
      logged_processor = Some p' ∧
    Logged.log (File.chan (Processor.file p')) = [] ++ new ∧
    ∀ r, r ∈ written new →
         length r = 9%nat ∧
         r !! 0%nat = Some 0 ∧
         ∀ i, (4 ≤ i ≤ 8)%nat → r !! i = Some 0.
Proof.
  apply (proj1 (write_reports_rest_zero (File.mk 3 (Logged.mk Echo.init [])))).
  repeat (constructor; [cbn; auto |]). constructor.
Defined.

(** ** Verdicts *)

Section Verdicts.
Context {D : Type}.

Lemma bind_skip {A B} (f : A → list B) (l1 l2 : list A) (x : A) :
  f x = [] → (l1 ++ x :: l2) ≫= f = (l1 ++ l2) ≫= f.
Proof. intros Hx. by rewrite !bind_app, bind_cons, Hx. Qed.

Lemma elem_of_bind_option {A B} (f : A → option B) (l : list A) (b : B) :
  b ∈ l ≫= (λ a, option_list (f a)) → ∃ a, a ∈ l ∧ f a = Some b.
Proof.
  intros Hb. apply list_elem_of_bind in Hb as (a & Hb & Ha).
  exists a. split; [done |].
  destruct (f a); cbn in Hb; [| by apply elem_of_nil in Hb].
  apply list_elem_of_singleton in Hb. by subst.
Qed.

(** An accepted entry passed every step. *)
Lemma posix_verdict_Some (ent : Posix.node D) (c : candidate D) :
  (posix_verdict ent).1 = Some c →
  String.prefix "hid" (Posix.d_name ent) = true ∧
  Posix.n_open ent ≠ -1 ∧
  Posix.n_devinfo ent = SysOk (vendorId, productId) ∧
  Posix.n_name ent = SysOk (c_name c) ∧
  c_path c = "/dev/usb/" +:+ Posix.d_name ent ∧
  c_file c = File.mk (Posix.n_open ent) (Posix.n_chan ent).
Proof.
  unfold posix_verdict.
  destruct (String.prefix _ _); [| done].
  destruct (Posix.n_open ent =? -1) eqn:Hopen; [done |].
  destruct (Posix.n_devinfo ent) as [[vendor product] | e]; [| done].
  destruct ((vendor =? vendorId) && (product =? productId)) eqn:Hid; [| done].
  destruct (Posix.n_name ent) as [deviceName | e]; [| done].
  cbn. intros [= <-]. cbn.
  apply andb_true_iff in Hid as [->%Z.eqb_eq ->%Z.eqb_eq].
  apply Z.eqb_neq in Hopen. done.
Qed.

Lemma posix_verdict_mismatch (ent : Posix.node D) (vendor product : Z) :
  Posix.n_devinfo ent = SysOk (vendor, product) →
  (vendor, product) ≠ (vendorId, productId) →
  (posix_verdict ent).1 = None ∧
  (String.prefix "hid" (Posix.d_name ent) = true →
   Posix.n_open ent ≠ -1 →
   (posix_verdict ent).2 = [Close (Posix.n_open ent)]).
Proof.
  intros Hinfo Hne. split.
  - destruct (posix_verdict ent).1 as [c |] eqn:Hc; [| done].
    apply posix_verdict_Some in Hc as (_ & _ & Hinfo' & _). congruence.
  - intros Hhid Hopen. unfold posix_verdict. rewrite Hhid, Hinfo.
    apply Z.eqb_neq in Hopen. rewrite Hopen.
    destruct ((vendor =? vendorId) && (product =? productId)) eqn:Hid; [| done].
    apply andb_true_iff in Hid as [->%Z.eqb_eq ->%Z.eqb_eq]. done.
Qed.

Lemma posix_verdict_failed (ent : Posix.node D) :
  Posix.n_open ent = -1 ∨
  (∃ e, Posix.n_devinfo ent = SysErr e) ∨
  (∃ e, Posix.n_name ent = SysErr e) →
  (posix_verdict ent).1 = None.
Proof.
  intros Hfail.
  destruct (posix_verdict ent).1 as [c |] eqn:Hc; [| done].
  apply posix_verdict_Some in Hc as (_ & Hopen & Hinfo & Hname & _).
  destruct Hfail as [? | [[e ?] | [e ?]]]; congruence.
Qed.

(** An accepted interface passed every step. *)
Lemma win32_verdict_Some (i : Win32.iface D) (c : candidate D) :
  (win32_verdict i).1 = Some c →
  Win32.i_open i ≠ -1 ∧
  Win32.i_attributes i = Some (vendorId, productId) ∧
  (∃ u, Win32.i_product_string i = SysOk u) ∧
  (∃ n, Win32.i_utf8_size i = SysOk n) ∧
  Win32.i_utf8 i = SysOk (c_name c) ∧
  c_path c = win32_path i ∧
  c_file c = File.mk (Win32.i_open i) (Win32.i_chan i).
Proof.
  unfold win32_verdict.
  destruct (Win32.i_open i =? -1) eqn:Hopen; [done |].
  destruct (Win32.i_attributes i) as [[VendorID ProductID] |]; [| done].
  destruct ((VendorID =? vendorId) && (ProductID =? productId)) eqn:Hid;
    [| done].
  destruct (Win32.i_product_string i) as [u | e]; [| done].
  destruct (Win32.i_utf8_size i) as [n | e]; [| done].
  destruct (Win32.i_utf8 i) as [buffer | e]; [| done].
  cbn. intros [= <-]. cbn.
  apply andb_true_iff in Hid as [->%Z.eqb_eq ->%Z.eqb_eq].
  apply Z.eqb_neq in Hopen. eauto 10.
Qed.

Lemma win32_verdict_mismatch (i : Win32.iface D) (VendorID ProductID : Z) :
  Win32.i_attributes i = Some (VendorID, ProductID) →
  (VendorID, ProductID) ≠ (vendorId, productId) →
  (win32_verdict i).1 = None ∧
  (Win32.i_open i ≠ -1 → (win32_verdict i).2 = [Close (Win32.i_open i)]).
Proof.
  intros Hattr Hne. split.
  - destruct (win32_verdict i).1 as [c |] eqn:Hc; [| done].
    apply win32_verdict_Some in Hc as (_ & Hattr' & _). congruence.
  - intros Hopen. unfold win32_verdict. rewrite Hattr.
    apply Z.eqb_neq in Hopen. rewrite Hopen.
    destruct ((VendorID =? vendorId) && (ProductID =? productId)) eqn:Hid;
      [| done].
    apply andb_true_iff in Hid as [->%Z.eqb_eq ->%Z.eqb_eq]. done.
Qed.

Lemma win32_verdict_failed (i : Win32.iface D) :
  Win32.i_open i = -1 ∨
  Win32.i_attributes i = None ∨
  (∃ e, Win32.i_product_string i = SysErr e) ∨
  (∃ e, Win32.i_utf8_size i = SysErr e) ∨
  (∃ e, Win32.i_utf8 i = SysErr e) →
  (win32_verdict i).1 = None.
Proof.
  intros Hfail.
  destruct (win32_verdict i).1 as [c |] eqn:Hc; [| done].
  apply win32_verdict_Some in Hc
    as (Hopen & Hattr & [u Hu] & [n Hn] & Hname & _).
  destruct Hfail as [? | [? | [[e ?] | [[e ?] | [e ?]]]]]; congruence.
Qed.

(** An interface is delivered without a failure when the query for the
    size succeeds or asks for a buffer, the buffer is allocated and
    the path is delivered. *)
Lemma win32_fatal_None (i : Win32.iface D) :
  win32_fatal i = None ↔
    (Win32.i_size_query i = SysOk tt ∨
     Win32.i_size_query i = SysErr Win32.ERROR_INSUFFICIENT_BUFFER) ∧
    Win32.i_malloc i = true ∧
    ∃ DevicePath, Win32.i_detail i = SysOk DevicePath.
Proof.
  unfold win32_fatal.
  destruct (Win32.i_size_query i) as [[] | error].
  - destruct (Win32.i_malloc i), (Win32.i_detail i) as [DevicePath | e];
      split; try done; try (intros (_ & _ & [? ?]); done); try (by intros (_ & ? & _));
      eauto.
  - destruct (error =? Win32.ERROR_INSUFFICIENT_BUFFER) eqn:He; cbn [negb].
    + apply Z.eqb_eq in He as ->.
      destruct (Win32.i_malloc i), (Win32.i_detail i) as [DevicePath | e];
        split; try done; try (intros (_ & _ & [? ?]); done);
        try (by intros (_ & ? & _)); eauto.
    + apply Z.eqb_neq in He. split; [done |].
      intros ([? | [= ?]] & _); done.
Qed.

(** A scan that ends without an exception met no failure of the
    enumeration, and went over every interface. *)
Lemma win32_scan_None (l : list (Win32.iface D)) (enum_error : Z) :
  (win32_scan l enum_error).2 = None →
  win32_scan l enum_error = (win32_accepted l, win32_events l, None) ∧
  Forall (λ i, win32_fatal i = None) l ∧
  enum_error = Win32.ERROR_NO_MORE_ITEMS.
Proof.
  induction l as [| i rest IH]; cbn [win32_scan].
  - destruct (enum_error =? Win32.ERROR_NO_MORE_ITEMS) eqn:He; [| done].
    apply Z.eqb_eq in He. by repeat split.
  - destruct (win32_fatal i) as [e |] eqn:Hfatal; [done |].
    destruct (win32_scan rest enum_error) as [[cs evs] e]. cbn [snd] in *.
    intros ->. destruct (IH eq_refl) as ([= -> ->] & Hall & Herr).
    split; [reflexivity |]. split; [by constructor | exact Herr].
Qed.

Lemma win32_scan_all (l : list (Win32.iface D)) :
  Forall (λ i, win32_fatal i = None) l →
  ∀ enum_error,
    win32_scan l enum_error =
      (win32_accepted l, win32_events l,
       if negb (enum_error =? Win32.ERROR_NO_MORE_ITEMS)
       then Some (system_error (Win32.to_int enum_error)
                    "Failed to enumerate device interfaces")
       else None).
Proof.
  intros Hall enum_error.
  induction Hall as [| i rest Hi _ IH]; [reflexivity |].
  cbn [win32_scan]. by rewrite Hi, IH.
Qed.

(** An interface that is enumerated and then rejected does not
    change what the scan accepts nor how it ends. *)
Lemma win32_scan_skip (l1 l2 : list (Win32.iface D)) (i : Win32.iface D)
    (enum_error : Z) :
  win32_fatal i = None →
  (win32_verdict i).1 = None →
  (win32_scan (l1 ++ i :: l2) enum_error).1.1 =
    (win32_scan (l1 ++ l2) enum_error).1.1 ∧
  (win32_scan (l1 ++ i :: l2) enum_error).2 =
    (win32_scan (l1 ++ l2) enum_error).2.
Proof.
  intros Hfatal Hnone. induction l1 as [| i0 l1 IH]; cbn [app win32_scan].
  - rewrite Hfatal, Hnone.
    by destruct (win32_scan l2 enum_error) as [[cs evs] e].
  - destruct (win32_fatal i0); [done |].
    destruct (win32_scan (l1 ++ i :: l2) enum_error) as [[cs evs] e].
    destruct (win32_scan (l1 ++ l2) enum_error) as [[cs' evs'] e'].
    cbn [fst snd] in *. destruct IH as [-> ->]. done.
Qed.
End Verdicts.

(** ** Discovery *)

Section Discovery.
Context {D : Type} `{RawChannel D}.

Lemma posix_result (w : Posix.world D) (s : env D) :
  result (Posix.findHubs w s) =
    match Posix.usb_dir w with
    | SysErr e => Throw (system_error e "Failed to open directory") (procs s)
    | SysOk dir =>
        Ret (built (length (procs s)) (posix_accepted (Posix.entries dir)))
            (procs s ++ allocated (posix_accepted (Posix.entries dir)))
    end.
Proof.
  rewrite posix_findHubs_spec. by destruct (Posix.usb_dir w).
Qed.

Lemma win32_result (w : Win32.world D) (s : env D) :
  result (Win32.findHubs w s) =
    match Win32.class_devs w with
    | SysErr e =>
        Throw (system_error (Win32.to_int e) "Failed to get devices") (procs s)
    | SysOk devInfo =>
        let scanned :=
          win32_scan (Win32.ifaces devInfo) (Win32.enum_error devInfo) in
        match scanned.2 with
        | None => Ret (built (length (procs s)) scanned.1.1)
                      (procs s ++ allocated scanned.1.1)
        | Some e => Throw e (procs s ++ allocated scanned.1.1)
        end
    end.
Proof.
  rewrite win32_findHubs_spec.
  destruct (Win32.class_devs w) as [devInfo | e]; [| done].
  cbn zeta. by destruct (win32_scan _ _).2.
Qed.

(** The hubs of a scan of [/dev/usb] come from accepted entries. *)
Lemma posix_hub_origin (l : list (Posix.node D))
    (store : list (Processor.t D)) (hub : Hub.t) :
  hub ∈ built (length store) (posix_accepted l) →
  ∃ ent,
    ent ∈ l ∧
    String.prefix "hid" (Posix.d_name ent) = true ∧
    Posix.n_open ent ≠ -1 ∧
    Posix.n_devinfo ent = SysOk (vendorId, productId) ∧
    Posix.n_name ent = SysOk (Hub.getName hub) ∧
    Hub.getPath hub = "/dev/usb/" +:+ Posix.d_name ent ∧
    (store ++ allocated (posix_accepted l)) !! Hub.processor hub =
      Some (Processor.ctor (File.mk (Posix.n_open ent) (Posix.n_chan ent))).
Proof.
  intros Hin. apply built_lookup in Hin as (k & c & Hc & ->).
  pose proof (list_elem_of_lookup_2 _ _ _ Hc) as Hin.
  apply elem_of_bind_option in Hin as (ent & Hent & Hv).
  apply posix_verdict_Some in Hv as (Hhid & Hopen & Hinfo & Hname & Hpath & Hfile).
  exists ent. cbn. repeat (split; [done |]).
  rewrite (allocated_lookup store _ k c Hc). by rewrite Hfile.
Qed.

Lemma win32_hub_origin (l : list (Win32.iface D))
    (store : list (Processor.t D)) (hub : Hub.t) :
  hub ∈ built (length store) (win32_accepted l) →
  ∃ i,
    i ∈ l ∧
    Win32.i_open i ≠ -1 ∧
    Win32.i_attributes i = Some (vendorId, productId) ∧
    (∃ u, Win32.i_product_string i = SysOk u) ∧
    (∃ n, Win32.i_utf8_size i = SysOk n) ∧
    Win32.i_utf8 i = SysOk (Hub.getName hub) ∧
    Hub.getPath hub = win32_path i ∧
    (store ++ allocated (win32_accepted l)) !! Hub.processor hub =
      Some (Processor.ctor (File.mk (Win32.i_open i) (Win32.i_chan i))).
Proof.
  intros Hin. apply built_lookup in Hin as (k & c & Hc & ->).
  pose proof (list_elem_of_lookup_2 _ _ _ Hc) as Hin.
  apply elem_of_bind_option in Hin as (i & Hi & Hv).
  apply win32_verdict_Some in Hv
    as (Hopen & Hattr & Hu & Hn & Hname & Hpath & Hfile).
  exists i. cbn. repeat (split; [done |]).
  rewrite (allocated_lookup store _ k c Hc). by rewrite Hfile.
Qed.

(** C3. Whenever [findHubs] returns, on either platform, every hub
    in the list was built from a candidate whose queried identifier
    pair is (0x0694, 0x0003), on the file opened for that candidate.
    A candidate that answers another pair is skipped: the hubs and
    the processors are those of the scan without it; and if it was
    opened, its descriptor has been closed. *)
Theorem findHubs_identifier_filter (s : env D) :
  (∀ w hubs s',
      Posix.findHubs w s = Ret hubs s' →
      ∃ dir,
        Posix.usb_dir w = SysOk dir ∧
        (∀ hub, hub ∈ hubs →
            ∃ ent,
              ent ∈ Posix.entries dir ∧
              Posix.n_devinfo ent = SysOk (0x0694, 0x0003) ∧
              Hub.getPath hub = "/dev/usb/" +:+ Posix.d_name ent ∧
              ∃ p, procs s' !! Hub.processor hub = Some p ∧
                   Processor.file p =
                     File.mk (Posix.n_open ent) (Posix.n_chan ent)) ∧
        (∀ l1 ent l2 vendor product,
            Posix.entries dir = l1 ++ ent :: l2 →
            Posix.n_devinfo ent = SysOk (vendor, product) →
            (vendor, product) ≠ (0x0694, 0x0003) →
            (String.prefix "hid" (Posix.d_name ent) = true →
             Posix.n_open ent ≠ -1 →
             Close (Posix.n_open ent) ∈ trace s') ∧
            result (Posix.findHubs
                      (Posix.mk_world
                         (SysOk (Posix.mk_DIR (l1 ++ l2) (Posix.at_null dir))))
                      s)
              = Ret hubs (procs s'))) ∧
  (∀ w hubs s',
      Win32.findHubs w s = Ret hubs s' →
      ∃ devInfo,
        Win32.class_devs w = SysOk devInfo ∧
        (∀ hub, hub ∈ hubs →
            ∃ i,
              i ∈ Win32.ifaces devInfo ∧
              Win32.i_attributes i = Some (0x0694, 0x0003) ∧
              Win32.i_detail i = SysOk (Hub.getPath hub) ∧
              ∃ p, procs s' !! Hub.processor hub = Some p ∧
                   Processor.file p =
                     File.mk (Win32.i_open i) (Win32.i_chan i)) ∧
        (∀ l1 i l2 VendorID ProductID,
            Win32.ifaces devInfo = l1 ++ i :: l2 →
            Win32.i_attributes i = Some (VendorID, ProductID) →
            (VendorID, ProductID) ≠ (0x0694, 0x0003) →
            (Win32.i_open i ≠ -1 → Close (Win32.i_open i) ∈ trace s') ∧
            result (Win32.findHubs
                      (Win32.mk_world
                         (SysOk (Win32.mk_DevInfo (l1 ++ l2)
                                   (Win32.enum_error devInfo))))
                      s)
              = Ret hubs (procs s'))).
Proof.
  change (0x0694, 0x0003) with (vendorId, productId). split.
  - intros w hubs s' Hrun. rewrite posix_findHubs_spec in Hrun.
    destruct (Posix.usb_dir w) as [dir | e]; [| done].
    injection Hrun as <- <-. exists dir. split; [done |]. split.
    + intros hub Hin.
      apply posix_hub_origin in Hin
        as (ent & Hent & _ & _ & Hinfo & _ & Hpath & Hp).
      exists ent. repeat (split; [done |]).
      eexists. split; [exact Hp | reflexivity].
    + intros l1 ent l2 vendor product Hl Hinfo Hne.
      destruct (posix_verdict_mismatch ent vendor product Hinfo Hne)
        as [Hnone Hclose].
      split.
      * intros Hhid Hopen. cbn [trace]. rewrite Hl.
        unfold posix_events. rewrite bind_app, bind_cons, (Hclose Hhid Hopen).
        rewrite !elem_of_app, elem_of_cons. auto 10.
      * rewrite posix_result. cbn [Posix.usb_dir Posix.entries procs].
        rewrite Hl. unfold posix_accepted.
        by rewrite (bind_skip _ l1 l2 ent) by (by rewrite Hnone).
  - intros w hubs s' Hrun. rewrite win32_findHubs_spec in Hrun.
    destruct (Win32.class_devs w) as [devInfo | e]; [| done].
    cbn zeta in Hrun.
    destruct (win32_scan _ _).2 eqn:Hend; [done |].
    apply win32_scan_None in Hend as (Hscan & Hall & Herr).
    rewrite Hscan in Hrun. cbn [fst snd] in Hrun.
    injection Hrun as <- <-. exists devInfo. split; [done |]. split.
    + intros hub Hin.
      apply win32_hub_origin in Hin
        as (i & Hi & _ & Hattr & _ & _ & _ & Hpath & Hp).
      exists i. repeat (split; [done |]). split.
      * rewrite Forall_forall in Hall. specialize (Hall i Hi).
        rewrite Hpath. unfold win32_path.
        unfold win32_fatal in Hall.
        destruct (Win32.i_detail i); [done |].
        destruct (Win32.i_size_query i);
          [| destruct (negb _); [done |]];
          by destruct (Win32.i_malloc i).
      * eexists. split; [exact Hp | reflexivity].
    + intros l1 i l2 VendorID ProductID Hl Hattr Hne.
      destruct (win32_verdict_mismatch i VendorID ProductID Hattr Hne)
        as [Hnone Hclose].
      split.
      * intros Hopen. cbn [trace]. rewrite Hl.
        unfold win32_events. rewrite bind_app, bind_cons, (Hclose Hopen).
        rewrite !elem_of_app, elem_of_cons. auto 10.
      * rewrite win32_result.
        cbn [Win32.class_devs Win32.ifaces Win32.enum_error procs]. cbn zeta.
        rewrite Hl in Hall, Hscan.
        assert (Hi : win32_fatal i = None).
        { apply Forall_app in Hall as [_ Hall]. by inversion Hall. }
        destruct (win32_scan_skip l1 l2 i (Win32.enum_error devInfo) Hi Hnone)
          as [<- <-].
        rewrite Hscan. cbn [fst snd]. by rewrite Hl.
Qed.
End Discovery.

(** The filter on the three entries of the example. *)
Lemma findHubs_identifier_filter_witness :
  ∃ ent,
    ent ∈ [node_locked; node_other; node_hub] ∧
    Posix.n_devinfo ent = SysOk (0x0694, 0x0003) ∧
    Hub.getPath the_hub = "/dev/usb/" +:+ Posix.d_name ent ∧
    ∃ p, [Processor.ctor (File.mk 5 Echo.init)] !! Hub.processor the_hub = Some p ∧
         Processor.file p = File.mk (Posix.n_open ent) (Posix.n_chan ent).
Proof.
  destruct (proj1 (findHubs_identifier_filter start) posix_three [the_hub] _
              posix_three_candidates) as (dir & Hdir & Horigin & _).
  injection Hdir as <-. apply Horigin. by apply list_elem_of_singleton.
Defined.

Section Tolerance.
Context {D : Type} `{RawChannel D}.

Lemma bind_all_nil {A B} (f : A → list B) (l : list A) :
  Forall (λ x, f x = []) l → l ≫= f = [].
Proof.
  induction 1 as [| x l Hx _ IH]; [done |]. by rewrite bind_cons, Hx, IH.
Qed.

(** C5. A candidate whose probe fails — it cannot be opened, its
    identifier cannot be queried, or, its identifier having matched,
    its name cannot be retrieved or converted — is skipped and the
    scan goes on: [findHubs] ends as it does without that candidate,
    with the same hubs and the same processors.  When every
    candidate fails the result is the empty list.  A hub in the
    result was opened, matched and named, and has its two devices and
    its processor.  On Windows this is for a candidate the
    enumeration itself delivered without a failure. *)
Theorem findHubs_skips_failed_candidate (s : env D) :
  (∀ l1 ent l2 at_null,
      Posix.n_open ent = -1 ∨
      (∃ e, Posix.n_devinfo ent = SysErr e) ∨
      (∃ e, Posix.n_name ent = SysErr e) →
      ∃ hubs s1 s2,
        Posix.findHubs
          (Posix.mk_world (SysOk (Posix.mk_DIR (l1 ++ ent :: l2) at_null))) s
          = Ret hubs s1 ∧
        Posix.findHubs
          (Posix.mk_world (SysOk (Posix.mk_DIR (l1 ++ l2) at_null))) s
          = Ret hubs s2 ∧
        procs s1 = procs s2 ∧
        ∀ hub, hub ∈ hubs →
          hub_shape hub (procs s1) ∧
          ∃ ent', ent' ∈ l1 ++ l2 ∧
                  Posix.n_open ent' ≠ -1 ∧
                  Posix.n_devinfo ent' = SysOk (0x0694, 0x0003) ∧
                  Posix.n_name ent' = SysOk (Hub.getName hub)) ∧
  (∀ l at_null,
      Forall (λ ent, Posix.n_open ent = -1 ∨
                     (∃ e, Posix.n_devinfo ent = SysErr e) ∨
                     (∃ e, Posix.n_name ent = SysErr e)) l →
      ∃ s', Posix.findHubs (Posix.mk_world (SysOk (Posix.mk_DIR l at_null))) s
              = Ret [] s' ∧
            procs s' = procs s) ∧
  (∀ l1 i l2 enum_error,
      win32_fatal i = None →
      Win32.i_open i = -1 ∨
      Win32.i_attributes i = None ∨
      (∃ e, Win32.i_product_string i = SysErr e) ∨
      (∃ e, Win32.i_utf8_size i = SysErr e) ∨
      (∃ e, Win32.i_utf8 i = SysErr e) →
      result (Win32.findHubs
                (Win32.mk_world
                   (SysOk (Win32.mk_DevInfo (l1 ++ i :: l2) enum_error))) s) =
        result (Win32.findHubs
                  (Win32.mk_world
                     (SysOk (Win32.mk_DevInfo (l1 ++ l2) enum_error))) s) ∧
      ∀ hubs s1,
        Win32.findHubs
          (Win32.mk_world
             (SysOk (Win32.mk_DevInfo (l1 ++ i :: l2) enum_error))) s
          = Ret hubs s1 →
        ∀ hub, hub ∈ hubs →
          hub_shape hub (procs s1) ∧
          ∃ i', i' ∈ l1 ++ l2 ∧
                Win32.i_open i' ≠ -1 ∧
                Win32.i_attributes i' = Some (0x0694, 0x0003) ∧
                Win32.i_utf8 i' = SysOk (Hub.getName hub)) ∧
  (∀ l,
      Forall (λ i, win32_fatal i = None ∧
                   (Win32.i_open i = -1 ∨
                    Win32.i_attributes i = None ∨
                    (∃ e, Win32.i_product_string i = SysErr e) ∨
                    (∃ e, Win32.i_utf8_size i = SysErr e) ∨
                    (∃ e, Win32.i_utf8 i = SysErr e))) l →
      ∃ s', Win32.findHubs
              (Win32.mk_world
                 (SysOk (Win32.mk_DevInfo l Win32.ERROR_NO_MORE_ITEMS))) s
              = Ret [] s' ∧
            procs s' = procs s).
Proof.
  change (0x0694, 0x0003) with (vendorId, productId).
  split; [| split; [| split]].
  - intros l1 ent l2 at_null Hfail.
    apply posix_verdict_failed in Hfail.
    assert (Hskip : posix_accepted (l1 ++ ent :: l2) = posix_accepted (l1 ++ l2)).
    { unfold posix_accepted. apply bind_skip. by rewrite Hfail. }
    rewrite !posix_findHubs_spec.
    cbn [Posix.usb_dir Posix.entries]. rewrite Hskip.
    eexists _, _, _. split; [reflexivity |]. split; [reflexivity |].
    split; [reflexivity |].
    intros hub Hin. cbn [procs]. split.
    + pose proof (built_shape (procs s) (posix_accepted (l1 ++ l2))) as Hall.
      rewrite Forall_forall in Hall. by apply Hall.
    + apply posix_hub_origin in Hin
        as (ent' & Hent' & _ & Hopen & Hinfo & Hname & _).
      by exists ent'.
  - intros l at_null Hall.
    rewrite posix_findHubs_spec. cbn [Posix.usb_dir Posix.entries].
    assert (Hnil : posix_accepted l = []).
    { unfold posix_accepted. apply bind_all_nil.
      eapply Forall_impl; [exact Hall |].
      intros ent Hfail. cbn. by rewrite (posix_verdict_failed ent Hfail). }
    rewrite Hnil. eexists. split; [reflexivity |]. cbn. apply app_nil_r.
  - intros l1 i l2 enum_error Hfatal Hfail.
    apply win32_verdict_failed in Hfail.
    destruct (win32_scan_skip l1 l2 i enum_error Hfatal Hfail) as [Hcs Hend].
    split.
    + rewrite !win32_result.
      cbn [Win32.class_devs Win32.ifaces Win32.enum_error]. cbn zeta.
      by rewrite Hcs, Hend.
    + intros hubs s1. rewrite win32_findHubs_spec.
      cbn [Win32.class_devs Win32.ifaces Win32.enum_error]. cbn zeta.
      rewrite Hcs, Hend.
      destruct (win32_scan (l1 ++ l2) enum_error).2 eqn:Hnone; [done |].
      apply win32_scan_None in Hnone as (Hscan & _ & _).
      rewrite Hscan. cbn [fst snd]. intros [= <- <-] hub Hin.
      cbn [procs]. split.
      * pose proof (built_shape (procs s) (win32_accepted (l1 ++ l2))) as Hall.
        rewrite Forall_forall in Hall. by apply Hall.
      * apply win32_hub_origin in Hin
          as (i' & Hi' & Hopen & Hattr & _ & _ & Hname & _).
        by exists i'.
  - intros l Hall.
    rewrite win32_findHubs_spec.
    cbn [Win32.class_devs Win32.ifaces Win32.enum_error]. cbn zeta.
    rewrite win32_scan_all
      by (eapply Forall_impl; [exact Hall |]; by intros i [? _]).
    cbn [fst snd negb Z.eqb Win32.ERROR_NO_MORE_ITEMS].
    assert (Hnil : win32_accepted l = []).
    { unfold win32_accepted. apply bind_all_nil.
      eapply Forall_impl; [exact Hall |].
      intros i [_ Hfail]. cbn. by rewrite (win32_verdict_failed i Hfail). }
    rewrite Hnil. eexists. split; [reflexivity |]. cbn. apply app_nil_r.
Qed.

(** Where the enumeration is checked, its failure is thrown: a
    directory that cannot be opened, a device information set that
    cannot be obtained, and on Windows any failure of the
    enumeration call other than [ERROR_NO_MORE_ITEMS]. *)
Lemma enumeration_failure_propagates (s : env D) :
  (∀ e, Posix.findHubs (Posix.mk_world (SysErr e)) s =
          Throw (system_error e "Failed to open directory") s) ∧
  (∀ e, Win32.findHubs (Win32.mk_world (SysErr e)) s =
          Throw (system_error (Win32.to_int e) "Failed to get devices") s) ∧
  (∀ l enum_error,
      Forall (λ i, win32_fatal i = None) l →
      enum_error ≠ Win32.ERROR_NO_MORE_ITEMS →
      ∃ s', Win32.findHubs
              (Win32.mk_world (SysOk (Win32.mk_DevInfo l enum_error))) s =
            Throw (system_error (Win32.to_int enum_error)
                     "Failed to enumerate device interfaces") s') ∧
  (∀ l,
      Forall (λ i, win32_fatal i = None) l →
      ∃ hubs s', Win32.findHubs
                   (Win32.mk_world
                      (SysOk (Win32.mk_DevInfo l Win32.ERROR_NO_MORE_ITEMS))) s =
                 Ret hubs s').
Proof.
  split; [by intros e |].
  split; [intros e; by rewrite win32_findHubs_spec |]. split.
  - intros l enum_error Hall Hne. rewrite win32_findHubs_spec.
    cbn [Win32.class_devs Win32.ifaces Win32.enum_error]. cbn zeta.
    rewrite (win32_scan_all l Hall). cbn [fst snd].
    apply Z.eqb_neq in Hne. rewrite Hne. cbn [negb]. by eexists.
  - intros l Hall. rewrite win32_findHubs_spec.
    cbn [Win32.class_devs Win32.ifaces Win32.enum_error]. cbn zeta.
    rewrite (win32_scan_all l Hall). cbn [fst snd].
    by eexists _, _.
Qed.

(** On the directory loop a failure of [readdir] is not told apart
    from the end of the directory: the scan ends as if the directory
    had ended, and returns. *)
Lemma posix_readdir_failure_ignored (l : list (Posix.node D)) (e : Z)
    (s : env D) :
  Posix.findHubs (Posix.mk_world (SysOk (Posix.mk_DIR l (Some e)))) s =
    Posix.findHubs (Posix.mk_world (SysOk (Posix.mk_DIR l None))) s ∧
  ∃ hubs s',
    Posix.findHubs (Posix.mk_world (SysOk (Posix.mk_DIR l (Some e)))) s =
      Ret hubs s'.
Proof.
  rewrite !posix_findHubs_spec. cbn. split; [reflexivity | by eexists _, _].
Qed.
End Tolerance.

(** The first of the three entries fails to open and is skipped. *)
Lemma findHubs_skips_failed_candidate_witness :
  ∃ hubs s1 s2,
    Posix.findHubs posix_three start = Ret hubs s1 ∧
    Posix.findHubs
      (Posix.mk_world (SysOk (Posix.mk_DIR [node_other; node_hub] None))) start
      = Ret hubs s2 ∧
    procs s1 = procs s2.
Proof.
  destruct (proj1 (findHubs_skips_failed_candidate start)
              [] node_locked [node_other; node_hub] None
              (or_introl eq_refl))
    as (hubs & s1 & s2 & H1 & H2 & Hprocs & _).
  exists hubs, s1, s2. by repeat split.
Defined.

(** C6, on the [/dev/usb] branch.  The directory delivers a hub and
    then [readdir] fails with [ENOENT] (the directory went away under
    the scan).  [findHubs] does not throw: it returns the hub found so
    far, as at the end of the directory. *)
Theorem posix_readdir_failure_returns_hubs :
  Posix.findHubs
    (Posix.mk_world (SysOk (Posix.mk_DIR [node_hub] (Some ENOENT)))) start =
    Ret [the_hub]
        (mk_env [Processor.ctor (File.mk 5 Echo.init)] [CloseDir]).
Proof. reflexivity. Qed.

(** ** Examples on the stubs *)

(** Both writes fail on an unplugged device, and the second report
    still carries the value of the first. *)
Example sticky_when_unplugged :
  ∃ p1 p2,
    Processor.writeValue 0 10 unplugged_processor
      = Throw (system_error Unplugged.ENODEV "Failed to write to file") p1 ∧
    Processor.writeValue 1 20 p1
      = Throw (system_error Unplugged.ENODEV "Failed to write to file") p2 ∧
    written (log_of p2) =
      [[0; 64; 10; 0; 0; 0; 0; 0; 0]; [0; 64; 10; 20; 0; 0; 0; 0; 0]].
Proof. eexists _, _. by repeat split. Qed.

(** A slot outside {0, 1} is taken as it comes: slot 2 writes offset 4
    of the report, slot 7 writes past the end of the buffer. *)
Example slot_is_not_checked :
  written (log_of (default logged_processor
                     (state_of (Processor.writeValue 2 5 logged_processor))))
    = [[0; 64; 0; 0; 5; 0; 0; 0; 0]] ∧
  Processor.writeValue 7 5 logged_processor = Undefined.
Proof. by split. Qed.

(** C10 as it is worded fails for a slot outside {0, 1}: on a new
    processor [writeValue 2 5] returns, and the report it sends
    carries 5 at offset 4. *)
Lemma write_report_offset_4_counterexample :
  ∃ p' r,
    Processor.writeValue 2 5 logged_processor = Ret tt p' ∧
    written (log_of p') = [r] ∧
    r = [0; 64; 0; 0; 5; 0; 0; 0; 0] ∧
    r !! 4%nat = Some 5 ∧
    r !! 4%nat ≠ Some 0.
Proof. eexists _, _. by repeat split. Qed.

(** The type of an empty slot and of a motor, read through a device. *)
Example getType_of_report :
  ∃ h1 h2,
    Device.getType (Device.mk 0 0)
      [Processor.ctor (File.mk 3 [0; 0; 0; 0; 231; 0; 240; 0; 0])]
      = Ret Device.none h1 ∧
    Device.getType (Device.mk 1 0) h1 = Ret Device.motor h2.
Proof. eexists _, _. by split. Qed.

(** The same failure on the SetupAPI branch: the enumeration delivers a
    hub and then fails with [ERROR_GEN_FAILURE]; [findHubs] throws and
    returns no list; the hub found before is destroyed, and its handle
    closed, after the device information set. *)
Example win32_enumeration_failure_throws :
  Win32.findHubs
    (Win32.mk_world (SysOk (Win32.mk_DevInfo [iface_hub] ERROR_GEN_FAILURE)))
    start =
    Throw (system_error ERROR_GEN_FAILURE "Failed to enumerate device interfaces")
          (mk_env [Processor.ctor (File.mk 5 Echo.init)]
                  [DestroyDevInfo; Close 5]).
Proof. reflexivity. Qed.

(** A hub whose name cannot be read is left out on both branches, and
    the scan goes on to the hub after it. *)
Example nameless_hub_is_skipped :
  result (Posix.findHubs
            (Posix.mk_world (SysOk (Posix.mk_DIR [node_nameless; node_hub] None)))
            start) =
    Ret [the_hub] [Processor.ctor (File.mk 5 Echo.init)] ∧
  result (Win32.findHubs
            (Win32.mk_world
               (SysOk (Win32.mk_DevInfo [iface_nameless; iface_hub]
                         Win32.ERROR_NO_MORE_ITEMS)))
            start) =
    Ret [Hub.mk "LEGO USB Hub" "hid#2" [Device.mk 0 0; Device.mk 1 0] 0]
        [Processor.ctor (File.mk 5 Echo.init)].
Proof. by split. Qed.

(** * Further properties of the code *)

(** ** The hubs of a scan, in order *)

Section ScanOrder.
Context {D : Type} `{RawChannel D}.

Lemma built_paths (base : nat) (cs : list (candidate D)) :
  Hub.getPath <$> built base cs = c_path <$> cs.
Proof.
  apply list_eq. intros k. unfold built.
  rewrite !list_lookup_fmap, list_lookup_imap. by destruct (cs !! k).
Qed.

Lemma built_names (base : nat) (cs : list (candidate D)) :
  Hub.getName <$> built base cs = c_name <$> cs.
Proof.
  apply list_eq. intros k. unfold built.
  rewrite !list_lookup_fmap, list_lookup_imap. by destruct (cs !! k).
Qed.

Lemma built_processors (base : nat) (cs : list (candidate D)) :
  Hub.processor <$> built base cs = seq base (length cs).
Proof.
  unfold built. revert base. induction cs as [| c cs IH]; intros base; [done |].
  cbn. f_equal. rewrite <- (IH (S base)). f_equal.
  apply imap_ext. intros k c' _. cbn.
  by replace (S (k + base)) with (k + S base)%nat by lia.
Qed.

(** The verdict on an entry, from the answers of the system alone. *)
Lemma posix_verdict_accepts (ent : Posix.node D) :
  option_list (posix_verdict ent).1 =
    if posix_accepts ent
    then match Posix.n_name ent with
         | SysOk deviceName =>
             [mk_candidate deviceName ("/dev/usb/" +:+ Posix.d_name ent)
                (File.mk (Posix.n_open ent) (Posix.n_chan ent))]
         | SysErr _ => []
         end
    else [].
Proof.
  unfold posix_verdict, posix_accepts, posix_opened.
  destruct (String.prefix _ _); [| done].
  destruct (Posix.n_open ent =? -1); [done |].
  destruct (Posix.n_devinfo ent) as [[vendor product] | e]; [| done].
  destruct ((vendor =? vendorId) && (product =? productId)); [| done].
  by destruct (Posix.n_name ent).
Qed.

Lemma win32_verdict_accepts (i : Win32.iface D) :
  option_list (win32_verdict i).1 =
    if win32_accepts i
    then match Win32.i_utf8 i with
         | SysOk buffer =>
             [mk_candidate buffer (win32_path i)
                (File.mk (Win32.i_open i) (Win32.i_chan i))]
         | SysErr _ => []
         end
    else [].
Proof.
  unfold win32_verdict, win32_accepts, win32_opened.
  destruct (Win32.i_open i =? -1); [done |].
  destruct (Win32.i_attributes i) as [[VendorID ProductID] |]; [| done].
  destruct ((VendorID =? vendorId) && (ProductID =? productId)); [| done].
  destruct (Win32.i_product_string i); [| done].
  destruct (Win32.i_utf8_size i); [| done].
  by destruct (Win32.i_utf8 i).
Qed.

Lemma posix_accepted_paths (l : list (Posix.node D)) :
  c_path <$> posix_accepted l =
    (λ ent, "/dev/usb/" +:+ Posix.d_name ent) <$> List.filter posix_accepts l.
Proof.
  induction l as [| ent rest IH]; [done |].
  change (posix_accepted (ent :: rest))
    with (option_list (posix_verdict ent).1 ++ posix_accepted rest).
  rewrite fmap_app, IH, posix_verdict_accepts. cbn [List.filter].
  destruct (posix_accepts ent) eqn:Hacc; [| done].
  unfold posix_accepts in Hacc.
  destruct (Posix.n_name ent); [done |].
  by rewrite andb_false_r in Hacc.
Qed.

Lemma win32_accepted_paths (l : list (Win32.iface D)) :
  c_path <$> win32_accepted l = win32_path <$> List.filter win32_accepts l.
Proof.
  induction l as [| i rest IH]; [done |].
  change (win32_accepted (i :: rest))
    with (option_list (win32_verdict i).1 ++ win32_accepted rest).
  rewrite fmap_app, IH, win32_verdict_accepts. cbn [List.filter].
  destruct (win32_accepts i) eqn:Hacc; [| done].
  unfold win32_accepts in Hacc.
  destruct (Win32.i_utf8 i); [done |].
  destruct (Win32.i_product_string i), (Win32.i_utf8_size i);
    by rewrite andb_false_r in Hacc.
Qed.

(** X1. Once [/dev/usb] is open, [findHubs] returns, and the hubs are
    those of the entries that pass every step of the probe — the name
    begins with "hid", [open] succeeds, the identifiers are those of
    the hub, the name is read — one hub each, in the order [readdir]
    delivered the entries, with the path [/dev/usb/<name>]. *)
Theorem posix_hubs_in_directory_order (dir : Posix.DIR D) (s : env D) :
  ∃ hubs s',
    Posix.findHubs (Posix.mk_world (SysOk dir)) s = Ret hubs s' ∧
    Hub.getPath <$> hubs =
      (λ ent, "/dev/usb/" +:+ Posix.d_name ent)
        <$> List.filter posix_accepts (Posix.entries dir).
Proof.
  rewrite posix_findHubs_spec. cbn [Posix.usb_dir].
  eexists _, _. split; [reflexivity |].
  by rewrite built_paths, posix_accepted_paths.
Qed.

(** X2. When the SetupAPI scan returns, the hubs are those of the
    interfaces that pass every step of the [try] block, one hub each,
    in the order of the enumeration, with the device path of the
    interface as path. *)
Theorem win32_hubs_in_enumeration_order (devInfo : Win32.DevInfo D)
    (s : env D) (hubs : list Hub.t) (s' : env D) :
  Win32.findHubs (Win32.mk_world (SysOk devInfo)) s = Ret hubs s' →
  Hub.getPath <$> hubs =
    win32_path <$> List.filter win32_accepts (Win32.ifaces devInfo).
Proof.
  rewrite win32_findHubs_spec. cbn [Win32.class_devs]. cbn zeta.
  destruct (win32_scan _ _).2 eqn:Hend; [done |].
  apply win32_scan_None in Hend as (Hscan & _ & _).
  rewrite Hscan. cbn [fst snd]. intros [= <- <-].
  by rewrite built_paths, win32_accepted_paths.
Qed.

(** X3. The hubs one scan returns own processors of their own: their
    addresses are the next free ones of the store, in order, so no two
    hubs share a processor and none takes one that was there before. *)
Theorem scanned_hubs_own_fresh_processors (s : env D) :
  (∀ w hubs s',
      Posix.findHubs w s = Ret hubs s' →
      Hub.processor <$> hubs = seq (length (procs s)) (length hubs) ∧
      length (procs s') = (length (procs s) + length hubs)%nat ∧
      NoDup (Hub.processor <$> hubs)) ∧
  (∀ w hubs s',
      Win32.findHubs w s = Ret hubs s' →
      Hub.processor <$> hubs = seq (length (procs s)) (length hubs) ∧
      length (procs s') = (length (procs s) + length hubs)%nat ∧
      NoDup (Hub.processor <$> hubs)).
Proof.
  split.
  - intros w hubs s'. rewrite posix_findHubs_spec.
    destruct (Posix.usb_dir w) as [dir | e]; [| done].
    intros [= <- <-]. cbn [procs].
    rewrite built_processors, length_app, length_allocated.
    unfold built. rewrite length_imap.
    split; [done |]. split; [done |]. apply NoDup_seq.
  - intros w hubs s'. rewrite win32_findHubs_spec.
    destruct (Win32.class_devs w) as [devInfo | e]; [| done].
    cbn zeta. destruct (win32_scan _ _).2; [done |].
    intros [= <- <-]. cbn [procs].
    rewrite built_processors, length_app, length_allocated.
    unfold built. rewrite length_imap.
    split; [done |]. split; [done |]. apply NoDup_seq.
Qed.
End ScanOrder.

(** The order on the three interfaces of the example. *)
Lemma win32_hubs_in_enumeration_order_witness :
  Hub.getPath <$> [Hub.mk "LEGO USB Hub" "hid#2" [Device.mk 0 0; Device.mk 1 0] 0]
    = win32_path <$> List.filter win32_accepts [iface_locked; iface_other; iface_hub].
Proof.
  apply (win32_hubs_in_enumeration_order
           (Win32.mk_DevInfo [iface_locked; iface_other; iface_hub]
              Win32.ERROR_NO_MORE_ITEMS) start _ _ win32_three_candidates).
Defined.

(** Fresh processors on the three entries of the example. *)
Lemma scanned_hubs_own_fresh_processors_witness :
  Hub.processor <$> [the_hub] = seq 0 1 ∧
  length [Processor.ctor (File.mk 5 Echo.init)] = (0 + 1)%nat ∧
  NoDup (Hub.processor <$> [the_hub]).
Proof.
  apply (proj1 (scanned_hubs_own_fresh_processors start) posix_three [the_hub] _
           posix_three_candidates).
Defined.

(** ** Descriptors: none leaked, none closed twice *)

Section Descriptors.
Context {D : Type} `{RawChannel D}.

Lemma closed_fds_app (a b : list os_event) :
  closed_fds (a ++ b) = closed_fds a ++ closed_fds b.
Proof. apply omap_app. Qed.

Lemma cerr_lines_app (a b : list os_event) :
  cerr_lines (a ++ b) = cerr_lines a ++ cerr_lines b.
Proof. apply omap_app. Qed.

Lemma owned_fds_app (a b : list (Processor.t D)) :
  owned_fds (a ++ b) = owned_fds a ++ owned_fds b.
Proof. apply fmap_app. Qed.

(** An entry that was opened is closed by the probe or handed to a
    hub, never both; an entry that was not opened is neither. *)
Lemma posix_entry_accounted (ent : Posix.node D) :
  closed_fds (posix_verdict ent).2 ++
    owned_fds (allocated (option_list (posix_verdict ent).1)) =
  if posix_opened ent then [Posix.n_open ent] else [].
Proof.
  unfold posix_verdict, posix_opened.
  destruct (String.prefix _ _); [| done].
  destruct (Posix.n_open ent =? -1); [done |].
  destruct (Posix.n_devinfo ent) as [[vendor product] | e]; [| done].
  destruct ((vendor =? vendorId) && (product =? productId)); [| done].
  by destruct (Posix.n_name ent).
Qed.

Lemma win32_iface_accounted (i : Win32.iface D) :
  closed_fds (win32_verdict i).2 ++
    owned_fds (allocated (option_list (win32_verdict i).1)) =
  if win32_opened i then [Win32.i_open i] else [].
Proof.
  unfold win32_verdict, win32_opened.
  destruct (Win32.i_open i =? -1); [done |].
  destruct (Win32.i_attributes i) as [[VendorID ProductID] |]; [| done].
  destruct ((VendorID =? vendorId) && (ProductID =? productId)); [| done].
  destruct (Win32.i_product_string i); [| done].
  destruct (Win32.i_utf8_size i); [| done].
  by destruct (Win32.i_utf8 i).
Qed.

Lemma accounted_step (c1 c2 o1 o2 : list Z) :
  (c1 ++ c2) ++ (o1 ++ o2) ≡ₚ (c1 ++ o1) ++ (c2 ++ o2).
Proof.
  rewrite <- !(assoc_L (++)). apply Permutation_app_head.
  rewrite !(assoc_L (++)). apply Permutation_app_tail.
  apply Permutation_app_comm.
Qed.

Lemma posix_accounted (l : list (Posix.node D)) :
  closed_fds (posix_events l) ++ owned_fds (allocated (posix_accepted l))
    ≡ₚ Posix.n_open <$> List.filter posix_opened l.
Proof.
  induction l as [| ent rest IH]; [done |].
  change (posix_accepted (ent :: rest))
    with (option_list (posix_verdict ent).1 ++ posix_accepted rest).
  change (posix_events (ent :: rest))
    with ((posix_verdict ent).2 ++ posix_events rest).
  rewrite closed_fds_app, allocated_app, owned_fds_app, accounted_step.
  rewrite posix_entry_accounted, IH. cbn [List.filter].
  by destruct (posix_opened ent).
Qed.

Lemma win32_accounted (l : list (Win32.iface D)) :
  closed_fds (win32_events l) ++ owned_fds (allocated (win32_accepted l))
    ≡ₚ Win32.i_open <$> List.filter win32_opened l.
Proof.
  induction l as [| i rest IH]; [done |].
  change (win32_accepted (i :: rest))
    with (option_list (win32_verdict i).1 ++ win32_accepted rest).
  change (win32_events (i :: rest))
    with ((win32_verdict i).2 ++ win32_events rest).
  rewrite closed_fds_app, allocated_app, owned_fds_app, accounted_step.
  rewrite win32_iface_accounted, IH. cbn [List.filter].
  by destruct (win32_opened i).
Qed.

(** X4. A scan of [/dev/usb] leaks no descriptor and closes none
    twice: the descriptors it closed, together with those held by the
    processors it allocated, are exactly the descriptors [open]
    returned for the entries it probed, each once. *)
Theorem posix_descriptors_accounted (dir : Posix.DIR D) (s : env D) :
  ∃ hubs s' events fresh,
    Posix.findHubs (Posix.mk_world (SysOk dir)) s = Ret hubs s' ∧
    trace s' = trace s ++ events ∧
    procs s' = procs s ++ fresh ∧
    closed_fds events ++ owned_fds fresh
      ≡ₚ Posix.n_open <$> List.filter posix_opened (Posix.entries dir).
Proof.
  rewrite posix_findHubs_spec. cbn [Posix.usb_dir].
  eexists _, _, _, _. split; [reflexivity |]. cbn [procs trace].
  split; [reflexivity |]. split; [reflexivity |].
  rewrite closed_fds_app. cbn [closed_fds omap]. rewrite app_nil_r.
  apply posix_accounted.
Qed.

(** X5. The same for a SetupAPI scan that returns: every handle
    [CreateFileA] returned is closed once or held by the processor of
    one returned hub. *)
Theorem win32_descriptors_accounted (devInfo : Win32.DevInfo D)
    (s : env D) (hubs : list Hub.t) (s' : env D) :
  Win32.findHubs (Win32.mk_world (SysOk devInfo)) s = Ret hubs s' →
  ∃ events fresh,
    trace s' = trace s ++ events ∧
    procs s' = procs s ++ fresh ∧
    length fresh = length hubs ∧
    closed_fds events ++ owned_fds fresh
      ≡ₚ Win32.i_open <$> List.filter win32_opened (Win32.ifaces devInfo).
Proof.
  rewrite win32_findHubs_spec. cbn [Win32.class_devs]. cbn zeta.
  destruct (win32_scan _ _).2 eqn:Hend; [done |].
  apply win32_scan_None in Hend as (Hscan & _ & _).
  rewrite Hscan. cbn [fst snd]. intros [= <- <-]. cbn [procs trace].
  eexists _, _. split; [reflexivity |]. split; [reflexivity |].
  split; [unfold built; by rewrite length_imap, length_allocated |].
  rewrite closed_fds_app. cbn [closed_fds omap]. rewrite app_nil_r.
  apply win32_accounted.
Qed.

(** X6. Entries of [/dev/usb] whose name does not begin with "hid" are
    never touched: the scan ends exactly as on the directory without
    them, hubs, processors and events alike. *)
Theorem posix_ignores_other_entries (l : list (Posix.node D))
    (at_null : option Z) (s : env D) :
  Posix.findHubs (Posix.mk_world (SysOk (Posix.mk_DIR l at_null))) s =
    Posix.findHubs
      (Posix.mk_world
         (SysOk (Posix.mk_DIR
                   (List.filter (λ ent, String.prefix "hid" (Posix.d_name ent)) l)
                   at_null))) s.
Proof.
  rewrite !posix_findHubs_spec. cbn [Posix.usb_dir Posix.entries].
  assert (Hsame :
    posix_accepted l =
      posix_accepted (List.filter (λ ent, String.prefix "hid" (Posix.d_name ent)) l) ∧
    posix_events l =
      posix_events (List.filter (λ ent, String.prefix "hid" (Posix.d_name ent)) l)).
  { induction l as [| ent rest [IHa IHe]]; [done |].
    cbn [List.filter].
    destruct (String.prefix "hid" (Posix.d_name ent)) eqn:Hhid.
    - change (posix_accepted (ent :: ?r))
        with (option_list (posix_verdict ent).1 ++ posix_accepted r).
      change (posix_events (ent :: ?r))
        with ((posix_verdict ent).2 ++ posix_events r).
      by rewrite <- IHa, <- IHe.
    - change (posix_accepted (ent :: rest))
        with (option_list (posix_verdict ent).1 ++ posix_accepted rest).
      change (posix_events (ent :: rest))
        with ((posix_verdict ent).2 ++ posix_events rest).
      unfold posix_verdict. rewrite Hhid. done. }
  destruct Hsame as [<- <-]. reflexivity.
Qed.

(** X7. On the [/dev/usb] branch [findHubs] throws only when
    [opendir] fails, with the error of [opendir], and then it has done
    nothing: no descriptor opened or closed, no [closedir].  Once the
    directory is open it always returns. *)
Theorem posix_throws_only_for_opendir (w : Posix.world D) (s : env D) :
  match Posix.usb_dir w with
  | SysErr e =>
      Posix.findHubs w s = Throw (system_error e "Failed to open directory") s
  | SysOk _ => ∃ hubs s', Posix.findHubs w s = Ret hubs s'
  end.
Proof.
  rewrite posix_findHubs_spec.
  destruct (Posix.usb_dir w); [by eexists _, _ | done].
Qed.
End Descriptors.

(** The handles of the three interfaces of the example. *)
Lemma win32_descriptors_accounted_witness :
  ∃ events fresh,
    [Close 4; DestroyDevInfo] = [] ++ events ∧
    [Processor.ctor (File.mk 5 Echo.init)] = [] ++ fresh ∧
    length fresh = 1%nat ∧
    closed_fds events ++ owned_fds fresh
      ≡ₚ Win32.i_open <$> List.filter win32_opened
                             [iface_locked; iface_other; iface_hub].
Proof.
  apply (win32_descriptors_accounted
           (Win32.mk_DevInfo [iface_locked; iface_other; iface_hub]
              Win32.ERROR_NO_MORE_ITEMS) start _ _ win32_three_candidates).
Defined.

(** ** How a scan ends *)

Section ScanEnd.
Context {D : Type} `{RawChannel D}.

(** The scan of the interfaces up to the first failure of the
    enumeration. *)
Lemma win32_scan_fatal (l1 l2 : list (Win32.iface D)) (i : Win32.iface D)
    (enum_error : Z) (e : exception) :
  Forall (λ i, win32_fatal i = None) l1 →
  win32_fatal i = Some e →
  win32_scan (l1 ++ i :: l2) enum_error =
    (win32_accepted l1, win32_events l1, Some e).
Proof.
  intros Hall Hi. induction Hall as [| i0 l1 Hi0 _ IH]; cbn [app win32_scan].
  - by rewrite Hi.
  - by rewrite Hi0, IH.
Qed.

(** X8. A failure to get the detail of one interface (or to allocate
    the buffer for it) ends the SetupAPI scan there: [findHubs] throws
    that exception, and what it has done by then is the same
    whatever interfaces follow and however the enumeration would have
    ended: no later interface is looked at. *)
Theorem win32_detail_failure_aborts (l1 l2 : list (Win32.iface D))
    (i : Win32.iface D) (enum_error : Z) (e : exception) (s : env D) :
  Forall (λ i, win32_fatal i = None) l1 →
  win32_fatal i = Some e →
  ∃ s',
    Win32.findHubs
      (Win32.mk_world (SysOk (Win32.mk_DevInfo (l1 ++ i :: l2) enum_error))) s
      = Throw e s' ∧
    ∀ l2' enum_error',
      Win32.findHubs
        (Win32.mk_world (SysOk (Win32.mk_DevInfo (l1 ++ i :: l2') enum_error'))) s
        = Throw e s'.
Proof.
  intros Hall Hi. eexists. split.
  - rewrite win32_findHubs_spec.
    cbn [Win32.class_devs Win32.ifaces Win32.enum_error]. cbn zeta.
    rewrite (win32_scan_fatal l1 l2 i enum_error e Hall Hi). cbn [fst snd].
    reflexivity.
  - intros l2' enum_error'. rewrite win32_findHubs_spec.
    cbn [Win32.class_devs Win32.ifaces Win32.enum_error]. cbn zeta.
    rewrite (win32_scan_fatal l1 l2' i enum_error' e Hall Hi). cbn [fst snd].
    reflexivity.
Qed.

Lemma posix_events_kinds (l : list (Posix.node D)) (ev : os_event) :
  ev ∈ posix_events l → (∃ fd, ev = Close fd) ∨ (∃ e, ev = Cerr e).
Proof.
  intros Hin. apply list_elem_of_bind in Hin as (ent & Hev & _).
  unfold posix_verdict in Hev.
  repeat match type of Hev with
         | context [if ?b then _ else _] => destruct b
         | context [match ?x with _ => _ end] => destruct x
         end; cbn in Hev;
    repeat (apply elem_of_cons in Hev as [-> | Hev]; [by eauto |]);
    by apply elem_of_nil in Hev.
Qed.

Lemma win32_events_kinds (l : list (Win32.iface D)) (ev : os_event) :
  ev ∈ win32_events l → ∃ fd, ev = Close fd.
Proof.
  intros Hin. apply list_elem_of_bind in Hin as (i & Hev & _).
  unfold win32_verdict in Hev.
  repeat match type of Hev with
         | context [if ?b then _ else _] => destruct b
         | context [match ?x with _ => _ end] => destruct x
         end; cbn in Hev;
    repeat (apply elem_of_cons in Hev as [-> | Hev]; [by eauto |]);
    by apply elem_of_nil in Hev.
Qed.

(** The events of a SetupAPI scan, ended or aborted, are those of the
    interfaces of a prefix of the enumeration. *)
Lemma win32_scan_events (l : list (Win32.iface D)) (enum_error : Z) :
  ∃ l1 l2, l = l1 ++ l2 ∧ (win32_scan l enum_error).1.2 = win32_events l1.
Proof.
  induction l as [| i rest (l1 & l2 & Hl & Hev)]; cbn [win32_scan].
  - by exists [], [].
  - destruct (win32_fatal i).
    + by exists [], (i :: rest).
    + destruct (win32_scan rest enum_error) as [[cs evs] e]. cbn [fst snd] in *.
      exists (i :: l1), l2. split; [by rewrite Hl |]. by rewrite Hev.
Qed.

Lemma closes_of_kinds {D' : Type} (ps : list (Processor.t D')) (ev : os_event) :
  ev ∈ closes_of ps → ∃ fd, ev = Close fd.
Proof.
  intros Hin. apply list_elem_of_bind in Hin as (p & Hev & _).
  destruct (File.fd (Processor.file p) =? -1);
    [by apply elem_of_nil in Hev |].
  apply list_elem_of_singleton in Hev. by eexists.
Qed.

(** X9. The handle of the enumeration is released exactly once, after
    the last probe.  A scan of [/dev/usb] ends with the one [closedir]
    of its events.  A SetupAPI scan makes the one
    [SetupDiDestroyDeviceInfoList] of its events after every
    descriptor its probes closed; when it returns that is its last
    event, and when it throws the only events after it are the closes
    of the handles of the hubs built before, which are destroyed
    then. *)
Theorem enumeration_handle_released_last (s : env D) :
  (∀ dir : Posix.DIR D,
      ∃ hubs s' events,
        Posix.findHubs (Posix.mk_world (SysOk dir)) s = Ret hubs s' ∧
        trace s' = trace s ++ events ++ [CloseDir] ∧
        (CloseDir ∉ events) ∧ (DestroyDevInfo ∉ events)) ∧
  (∀ devInfo : Win32.DevInfo D,
      ∃ s' events after,
        state_of (Win32.findHubs (Win32.mk_world (SysOk devInfo)) s) = Some s' ∧
        trace s' = trace s ++ events ++ [DestroyDevInfo] ++ after ∧
        (∀ ev, ev ∈ events ++ after → ∃ fd, ev = Close fd) ∧
        ((∃ hubs, Win32.findHubs (Win32.mk_world (SysOk devInfo)) s = Ret hubs s') →
         after = []) ∧
        ((∃ e, Win32.findHubs (Win32.mk_world (SysOk devInfo)) s = Throw e s') →
         after = closes_of (drop (length (procs s)) (procs s')))).
Proof.
  split.
  - intros dir. rewrite posix_findHubs_spec. cbn [Posix.usb_dir].
    eexists _, _, _. split; [reflexivity |]. split; [reflexivity |].
    split; intros Hin; apply posix_events_kinds in Hin as [[fd ?] | [e ?]]; done.
  - intros devInfo. rewrite win32_findHubs_spec. cbn [Win32.class_devs]. cbn zeta.
    destruct (win32_scan_events (Win32.ifaces devInfo) (Win32.enum_error devInfo))
      as (l1 & l2 & _ & Hev).
    destruct (win32_scan (Win32.ifaces devInfo) (Win32.enum_error devInfo))
      as [[cs evs] [e |]]; cbn [fst snd] in *; subst evs.
    + eexists _, (win32_events l1), (closes_of (allocated cs)).
      split; [reflexivity |]. split; [reflexivity |].
      split; [| split].
      * intros ev Hin. apply elem_of_app in Hin as [Hin | Hin].
        -- by apply win32_events_kinds in Hin.
        -- by apply closes_of_kinds in Hin.
      * by intros [hubs ?].
      * intros _. cbn [procs]. by rewrite drop_app_length.
    + eexists _, (win32_events l1), [].
      split; [reflexivity |]. split; [reflexivity |].
      split; [| split].
      * intros ev Hin. rewrite app_nil_r in Hin.
        by apply win32_events_kinds in Hin.
      * done.
      * by intros [e ?].
Qed.

Lemma posix_entry_cerr (ent : Posix.node D) :
  length (cerr_lines (posix_verdict ent).2) =
    if posix_throws ent then 1%nat else 0%nat.
Proof.
  unfold posix_verdict, posix_throws.
  destruct (String.prefix _ _); [| done].
  destruct (Posix.n_open ent =? -1); [done |].
  destruct (Posix.n_devinfo ent) as [[vendor product] | e]; [| done].
  destruct ((vendor =? vendorId) && (product =? productId)); [| done].
  by destruct (Posix.n_name ent).
Qed.

(** X10. On the [/dev/usb] branch every probe that ends in the
    [catch] block writes one line to [std::cerr], and no other probe
    writes any: a device of another product is passed over silently.
    On the SetupAPI branch nothing is ever written. *)
Theorem probe_failures_on_cerr (s : env D) :
  (∀ dir : Posix.DIR D,
      ∃ hubs s' events,
        Posix.findHubs (Posix.mk_world (SysOk dir)) s = Ret hubs s' ∧
        trace s' = trace s ++ events ∧
        length (cerr_lines events) =
          length (List.filter posix_throws (Posix.entries dir))) ∧
  (∀ w : Win32.world D,
      ∃ s' events,
        state_of (Win32.findHubs w s) = Some s' ∧
        trace s' = trace s ++ events ∧
        cerr_lines events = []).
Proof.
  split.
  - intros dir. rewrite posix_findHubs_spec. cbn [Posix.usb_dir].
    eexists _, _, _. split; [reflexivity |]. split; [reflexivity |].
    rewrite cerr_lines_app. cbn [cerr_lines omap]. rewrite app_nil_r.
    induction (Posix.entries dir) as [| ent rest IH]; [done |].
    change (posix_events (ent :: rest))
      with ((posix_verdict ent).2 ++ posix_events rest).
    rewrite cerr_lines_app, length_app, posix_entry_cerr, IH.
    cbn [List.filter]. by destruct (posix_throws ent).
  - intros w. rewrite win32_findHubs_spec.
    destruct (Win32.class_devs w) as [devInfo | e].
    + cbn zeta.
      destruct (win32_scan_events (Win32.ifaces devInfo) (Win32.enum_error devInfo))
        as (l1 & l2 & _ & Hev).
      destruct (win32_scan (Win32.ifaces devInfo) (Win32.enum_error devInfo))
        as [[cs evs] e].
      cbn [fst snd] in *. subst evs.
      assert (Hprobes : cerr_lines (win32_events l1) = []); last first.
      { assert (Hcloses : cerr_lines (closes_of (allocated cs)) = []).
        { generalize (allocated cs). intros ps.
          induction ps as [| p ps IH]; [done |].
          change (closes_of (p :: ps))
            with ((if File.fd (Processor.file p) =? -1
                   then [] else [Close (File.fd (Processor.file p))])
                  ++ closes_of ps).
          rewrite cerr_lines_app, IH.
          by destruct (File.fd (Processor.file p) =? -1). }
        destruct e as [e |].
        - eexists _, _. split; [reflexivity |]. split; [reflexivity |].
          rewrite !cerr_lines_app, Hprobes, Hcloses. done.
        - eexists _, _. split; [reflexivity |]. split; [reflexivity |].
          rewrite !cerr_lines_app, Hprobes. done. }
      induction l1 as [| i rest IH]; [done |].
      change (win32_events (i :: rest))
        with ((win32_verdict i).2 ++ win32_events rest).
      rewrite cerr_lines_app, IH, app_nil_r.
      unfold win32_verdict.
      repeat match goal with
             | |- context [if ?b then _ else _] => destruct b
             | |- context [match ?x with _ => _ end] => destruct x
             end; done.
    + exists s, []. cbn. by rewrite app_nil_r.
Qed.

Lemma hub_shape_app (hub : Hub.t) (store more : list (Processor.t D)) :
  hub_shape hub store → hub_shape hub (store ++ more).
Proof.
  intros (Hdev & p & Hp & Hrb & Hwb). split; [done |].
  exists p. split; [| done]. by apply lookup_app_l_Some.
Qed.

(** X11. A later scan leaves the hubs of an earlier one intact: their
    processors are where and as they were, every earlier hub still has
    its shape in the store after the second scan, and no hub of the
    second scan points at a processor of a hub of the first. *)
Theorem later_scan_keeps_earlier_hubs (s s1 s2 : env D)
    (w1 w2 : Posix.world D) (hubs1 hubs2 : list Hub.t) :
  Posix.findHubs w1 s = Ret hubs1 s1 →
  Posix.findHubs w2 s1 = Ret hubs2 s2 →
  Forall (λ hub, hub_shape hub (procs s2) ∧
                 procs s2 !! Hub.processor hub = procs s1 !! Hub.processor hub)
         hubs1 ∧
  ∀ hub1 hub2, hub1 ∈ hubs1 → hub2 ∈ hubs2 →
               Hub.processor hub1 ≠ Hub.processor hub2.
Proof.
  rewrite !posix_findHubs_spec.
  destruct (Posix.usb_dir w1) as [dir1 | e1]; [| done].
  destruct (Posix.usb_dir w2) as [dir2 | e2]; [| done].
  intros [= <- <-] [= <- <-]. cbn [procs]. split.
  - apply Forall_forall. intros hub Hin.
    pose proof (built_shape (procs s) (posix_accepted (Posix.entries dir1)))
      as Hall.
    rewrite Forall_forall in Hall. specialize (Hall hub Hin).
    split; [by apply hub_shape_app |].
    destruct Hall as (_ & p & Hp & _).
    rewrite Hp. by apply lookup_app_l_Some.
  - intros hub1 hub2 Hin1 Hin2.
    apply built_lookup in Hin1 as (k1 & c1 & Hc1 & ->).
    apply built_lookup in Hin2 as (k2 & c2 & Hc2 & ->).
    cbn [Hub.processor]. apply lookup_lt_Some in Hc1.
    rewrite length_app, length_allocated. lia.
Qed.
End ScanEnd.

(** An interface whose detail cannot be read, after one of another
    product. *)
Lemma win32_detail_failure_aborts_witness :
  ∃ s',
    Win32.findHubs
      (Win32.mk_world
         (SysOk (Win32.mk_DevInfo
                   ([iface_other] ++
                    Win32.mk_iface (SysErr Win32.ERROR_INSUFFICIENT_BUFFER) 80 true
                      (SysErr ERROR_GEN_FAILURE) 7 0 Echo.init None
                      (SysOk tt) (SysOk 1) (SysOk "") :: [iface_hub])
                   Win32.ERROR_NO_MORE_ITEMS))) start
      = Throw (system_error ERROR_GEN_FAILURE "Failed to get interface detail") s'.
Proof.
  destruct (win32_detail_failure_aborts [iface_other] [iface_hub]
              (Win32.mk_iface (SysErr Win32.ERROR_INSUFFICIENT_BUFFER) 80 true
                 (SysErr ERROR_GEN_FAILURE) 7 0 Echo.init None
                 (SysOk tt) (SysOk 1) (SysOk ""))
              Win32.ERROR_NO_MORE_ITEMS
              (system_error ERROR_GEN_FAILURE "Failed to get interface detail")
              start)
    as (s' & Hthrow & _).
  - repeat constructor.
  - reflexivity.
  - by exists s'.
Defined.

(** Two scans of the three entries of the example, one after the
    other. *)
Lemma later_scan_keeps_earlier_hubs_witness :
  Forall (λ hub,
            hub_shape hub [Processor.ctor (File.mk 5 Echo.init);
                           Processor.ctor (File.mk 5 Echo.init)] ∧
            [Processor.ctor (File.mk 5 Echo.init);
             Processor.ctor (File.mk 5 Echo.init)] !! Hub.processor hub =
              [Processor.ctor (File.mk 5 Echo.init)] !! Hub.processor hub)
         [the_hub].
Proof.
  apply (later_scan_keeps_earlier_hubs start
           (mk_env [Processor.ctor (File.mk 5 Echo.init)]
              [Cerr (system_error EACCES "Failed to open file"); Close 4; CloseDir])
           (mk_env [Processor.ctor (File.mk 5 Echo.init);
                    Processor.ctor (File.mk 5 Echo.init)]
              [Cerr (system_error EACCES "Failed to open file"); Close 4; CloseDir;
               Cerr (system_error EACCES "Failed to open file"); Close 4; CloseDir])
           posix_three posix_three [the_hub]
           [Hub.mk "LEGO USB Hub" "/dev/usb/hiddev2"
              [Device.mk 0 1; Device.mk 1 1] 1]);
    reflexivity.
Defined.

(** ** Calls on the devices of a hub *)

Section DeviceCalls.
Context {D : Type} `{RawChannel D}.

(** X13. The hubs of one scan do not interfere: a call on one hub,
    whatever it is and however it ends, leaves the processor of every
    other hub of the scan as it was. *)
Theorem scanned_hubs_are_isolated (w : Posix.world D) (s s' : env D)
    (hubs : list Hub.t) (i j : nat) (hubA hubB : Hub.t) (c : hub_call)
    (hub' : Hub.t) (store' : list (Processor.t D)) :
  Posix.findHubs w s = Ret hubs s' →
  hubs !! i = Some hubA →
  hubs !! j = Some hubB →
  i ≠ j →
  state_of (run_hub_call c (hubA, procs s')) = Some (hub', store') →
  store' !! Hub.processor hubB = procs s' !! Hub.processor hubB ∧
  hub_shape hubB store'.
Proof.
  rewrite posix_findHubs_spec.
  destruct (Posix.usb_dir w) as [dir | e]; [| done].
  intros [= <- <-] HA HB Hne Hst. cbn [procs] in *.
  pose proof (built_shape (procs s) (posix_accepted (Posix.entries dir))) as Hall.
  rewrite Forall_forall in Hall.
  pose proof (Hall hubA (list_elem_of_lookup_2 _ _ _ HA)) as HshapeA.
  pose proof (Hall hubB (list_elem_of_lookup_2 _ _ _ HB)) as HshapeB.
  assert (Hproc : Hub.processor hubA ≠ Hub.processor hubB).
  { pose proof (built_processors (length (procs s))
                  (posix_accepted (Posix.entries dir))) as Hseq.
    assert (HpA : (Hub.processor <$> built (length (procs s))
                     (posix_accepted (Posix.entries dir))) !! i
                  = Some (Hub.processor hubA))
      by (by rewrite list_lookup_fmap, HA).
    assert (HpB : (Hub.processor <$> built (length (procs s))
                     (posix_accepted (Posix.entries dir))) !! j
                  = Some (Hub.processor hubB))
      by (by rewrite list_lookup_fmap, HB).
    rewrite Hseq in HpA, HpB.
    apply lookup_seq in HpA as [-> _]. apply lookup_seq in HpB as [-> _]. lia. }
  pose proof HshapeA as (_ & p & Hp & Hrb & Hwb).
  destruct (run_hub_call_step c hubA _ p HshapeA Hp hub' store' Hst)
    as [-> [-> | (pc & p' & _ & _ & ->)]]; [done |].
  split; [by apply list_lookup_insert_ne |].
  destruct HshapeB as (Hdev & pB & HpB & HrbB & HwbB). split; [done |].
  exists pB. split; [| done]. by rewrite list_lookup_insert_ne.
Qed.

(** The byte a transfer leaves at an index of the buffer: the byte
    received there, or the byte that was there when the transfer was
    shorter. *)
Lemma overwrite_lookup (buf received : list Z) (i : nat) :
  (i < length buf)%nat →
  overwrite buf received !! i =
    if decide (i < length received)%nat then received !! i else buf !! i.
Proof.
  intros Hi. unfold overwrite. case_decide as Hlt.
  - rewrite lookup_app_l by (rewrite length_take; lia).
    by apply lookup_take_lt.
  - rewrite lookup_app_r by (rewrite length_take; lia).
    rewrite length_take, lookup_drop. f_equal. lia.
Qed.

(** X14. [File::read] does not look at the number of bytes read: a
    read that delivers fewer bytes than the index of the byte asked
    for returns the byte the previous transfer left there (zero on a
    new processor), and a read that delivers enough returns the byte
    of this transfer whatever the buffer held. *)
Theorem short_read_keeps_stale_byte (p : Processor.t D) (s : Z)
    (received : list Z) (d : D) :
  s = 0 ∨ s = 1 →
  length (Processor.readBuffer p) = 9%nat →
  sys_read (File.chan (Processor.file p)) 9 = (SysOk received, d) →
  ∃ t v p',
    Processor.readType s p = Ret t p' ∧
    Processor.readValue s p = Ret v p' ∧
    Some t = (if decide (Z.to_nat (4 + s * 2) < length received)%nat
              then received !! Z.to_nat (4 + s * 2)
              else Processor.readBuffer p !! Z.to_nat (4 + s * 2)) ∧
    Some v = (if decide (Z.to_nat (3 + s * 2) < length received)%nat
              then received !! Z.to_nat (3 + s * 2)
              else Processor.readBuffer p !! Z.to_nat (3 + s * 2)).
Proof.
  intros Hs Hrb Hread.
  destruct (slot_indices _ Hs) as (Ht & Hv & _).
  rewrite readType_unfold, readValue_unfold, Hrb, Hread, Ht, Hv. cbn zeta.
  assert (Hlt : ∀ i, (i < 9)%nat →
            is_Some (overwrite (Processor.readBuffer p) received !! i)).
  { intros i Hi. apply lookup_lt_is_Some_2. rewrite length_overwrite, Hrb. lia. }
  destruct (Hlt (Z.to_nat (4 + s * 2))) as [t Ht']; [lia |].
  destruct (Hlt (Z.to_nat (3 + s * 2))) as [v Hv']; [lia |].
  rewrite Ht', Hv'. eexists t, v, _.
  split; [reflexivity |]. split; [reflexivity |].
  rewrite <- !overwrite_lookup by (rewrite Hrb; lia). by split.
Qed.

(** The devices of a hub, by their slot. *)
Lemma hub_device (hub : Hub.t) (store : list (Processor.t D)) (d : Device.t) :
  hub_shape hub store →
  d ∈ Hub.getDevices hub →
  (Device.slot d = 0 ∨ Device.slot d = 1) ∧
  Device.processor d = Hub.processor hub.
Proof.
  intros Hshape Hin. apply list_elem_of_lookup in Hin as [i Hi].
  by eapply device_of_shape.
Qed.

(** X15. A failed transfer on a hub is not absorbed: when the read
    fails, [getType] and [getValue] throw the error of the read and
    the buffers are as before; when the write fails, [setValue] throws
    the error of the write, and the value is in the write buffer all
    the same.  After either the hub still has its shape. *)
Theorem device_errors_surface (hub : Hub.t) (store : list (Processor.t D))
    (d : Device.t) (p : Processor.t D) (v e : Z) (ch : D) :
  hub_shape hub store →
  d ∈ Hub.getDevices hub →
  store !! Hub.processor hub = Some p →
  (sys_read (File.chan (Processor.file p)) 9 = (SysErr e, ch) →
   let store' :=
     <[Hub.processor hub :=
         Processor.mk (File.mk (File.fd (Processor.file p)) ch)
           (Processor.readBuffer p) (Processor.writeBuffer p)]> store in
   Device.getType d store
     = Throw (system_error e "Failed to read from file") store' ∧
   Device.getValue d store
     = Throw (system_error e "Failed to read from file") store' ∧
   hub_shape hub store') ∧
  (let wb := <[Z.to_nat (2 + Device.slot d) := v]>
               (<[1%nat := 64]> (Processor.writeBuffer p)) in
   sys_write (File.chan (Processor.file p)) wb = (SysErr e, ch) →
   let store' :=
     <[Hub.processor hub :=
         Processor.mk (File.mk (File.fd (Processor.file p)) ch)
           (Processor.readBuffer p) wb]> store in
   Device.setValue d v store
     = Throw (system_error e "Failed to write to file") store' ∧
   hub_shape hub store').
Proof.
  intros Hshape Hin Hp.
  destruct (hub_device hub store d Hshape Hin) as [Hslot Hproc].
  destruct (slot_indices _ Hslot) as (_ & _ & Hw).
  pose proof Hshape as (_ & p0 & Hp0 & Hrb & Hwb).
  assert (p0 = p) as -> by congruence.
  split.
  - intros Hread store'. subst store'.
    unfold Device.getType, Device.getValue, Device.deref, mbind.
    rewrite Hproc, Hp, readType_unfold, readValue_unfold, Hrb, Hread.
    split; [reflexivity |]. split; [reflexivity |].
    by apply hub_shape_insert.
  - intros wb Hwrite store'. subst store' wb.
    unfold Device.setValue, Device.deref.
    rewrite Hproc, Hp, writeValue_unfold.
    rewrite (array_set_Some _ 1 64) by (rewrite Hwb; lia).
    rewrite array_set_Some by (rewrite length_insert, Hwb, Hw; lia).
    rewrite Hw. change (Z.to_nat 1) with 1%nat. rewrite Hwrite.
    split; [reflexivity |].
    apply hub_shape_insert; [done | done |]. cbn. by rewrite !length_insert.
Qed.

(** X16. [getType] keeps nothing from one call to the next: when the
    read delivers a whole report, the type is the decoding of the
    byte at offset [4 + slot * 2] of that report and [getValue] is its
    byte at offset [3 + slot * 2], whatever the read buffer held
    before; the report is then the read buffer. *)
Theorem device_reads_fresh_report (hub : Hub.t) (store : list (Processor.t D))
    (d : Device.t) (p : Processor.t D) (report : list Z) (ch : D) :
  hub_shape hub store →
  d ∈ Hub.getDevices hub →
  store !! Hub.processor hub = Some p →
  length report = 9%nat →
  sys_read (File.chan (Processor.file p)) 9 = (SysOk report, ch) →
  ∃ t v,
    report !! Z.to_nat (4 + Device.slot d * 2) = Some t ∧
    report !! Z.to_nat (3 + Device.slot d * 2) = Some v ∧
    let store' :=
      <[Hub.processor hub :=
          Processor.mk (File.mk (File.fd (Processor.file p)) ch)
            report (Processor.writeBuffer p)]> store in
    Device.getType d store = Ret (Device.getDeviceType t) store' ∧
    Device.getValue d store = Ret v store'.
Proof.
  intros Hshape Hin Hp Hlen Hread.
  destruct (hub_device hub store d Hshape Hin) as [Hslot Hproc].
  destruct (slot_indices _ Hslot) as (Ht & Hv & _).
  pose proof Hshape as (_ & p0 & Hp0 & Hrb & Hwb).
  assert (p0 = p) as -> by congruence.
  assert (Hfull : overwrite (Processor.readBuffer p) report = report).
  { unfold overwrite. rewrite Hrb, Hlen, <- Hrb, drop_all, app_nil_r.
    rewrite Hrb, <- Hlen. apply firstn_all. }
  destruct (lookup_lt_is_Some_2 report (Z.to_nat (4 + Device.slot d * 2)))
    as [t Htb]; [lia |].
  destruct (lookup_lt_is_Some_2 report (Z.to_nat (3 + Device.slot d * 2)))
    as [v Hvb]; [lia |].
  exists t, v. split; [done |]. split; [done |]. intros store'. subst store'.
  unfold Device.getType, Device.getValue, Device.deref, mbind.
  rewrite Hproc, Hp, readType_unfold, readValue_unfold, Hrb, Hread, Ht, Hv.
  cbn zeta. rewrite Hfull, Htb, Hvb. by split.
Qed.
End DeviceCalls.

(** Two hubs from one scan: a write on the first leaves the second. *)
Lemma scanned_hubs_are_isolated_witness :
  ∃ hubs s' hubA hubB store',
    Posix.findHubs posix_two_hubs start = Ret hubs s' ∧
    hubs !! 0%nat = Some hubA ∧ hubs !! 1%nat = Some hubB ∧
    state_of (run_hub_call (SetValue 0 9) (hubA, procs s')) = Some (hubA, store') ∧
    store' !! Hub.processor hubB = procs s' !! Hub.processor hubB ∧
    hub_shape hubB store'.
Proof.
  eexists _, _, _, _, _.
  split; [reflexivity |]. split; [reflexivity |]. split; [reflexivity |].
  split; [reflexivity |].
  eapply (scanned_hubs_are_isolated posix_two_hubs start _ _ 0 1 _ _ (SetValue 0 9));
    [reflexivity | reflexivity | reflexivity | lia | reflexivity].
Defined.

(** A read that delivers no byte, on a new processor: the zeros of the
    buffer come back. *)
Lemma short_read_keeps_stale_byte_witness :
  ∃ t v p',
    Processor.readType 1 (Processor.ctor (File.mk 3 ([] : Echo.t))) = Ret t p' ∧
    Processor.readValue 1 (Processor.ctor (File.mk 3 ([] : Echo.t))) = Ret v p' ∧
    Some t = Some 0 ∧ Some v = Some 0.
Proof.
  destruct (short_read_keeps_stale_byte
              (Processor.ctor (File.mk 3 ([] : Echo.t))) 1 [] [])
    as (t & v & p' & Ht & Hv & Htb & Hvb);
    [by right | reflexivity | reflexivity |].
  exists t, v, p'. by repeat split.
Defined.

(** A read and a write on the hub of an unplugged device. *)
Lemma device_errors_surface_witness :
  Device.getValue (Device.mk 1 0) unplugged_store
    = Throw (system_error Unplugged.ENODEV "Failed to read from file")
            unplugged_store ∧
  Device.setValue (Device.mk 1 0) 7 unplugged_store
    = Throw (system_error Unplugged.ENODEV "Failed to write to file")
            [Processor.mk (File.mk 5 tt) (replicate 9 0)
               [0; 64; 0; 7; 0; 0; 0; 0; 0]].
Proof.
  assert (Hshape : hub_shape the_hub unplugged_store).
  { split; [reflexivity |]. eexists. by repeat split. }
  destruct (device_errors_surface the_hub unplugged_store (Device.mk 1 0)
              (Processor.ctor (File.mk 5 tt)) 7 Unplugged.ENODEV tt Hshape)
    as [Hread Hwrite].
  - apply elem_of_cons. right. by apply list_elem_of_singleton.
  - reflexivity.
  - split.
    + apply (Hread eq_refl).
    + apply (Hwrite eq_refl).
Defined.

(** The report of the echo stub read through the second device. *)
Lemma device_reads_fresh_report_witness :
  ∃ t v,
    Echo.init !! 6%nat = Some t ∧ Echo.init !! 5%nat = Some v ∧
    Device.getType (Device.mk 1 0) [Processor.ctor (File.mk 5 Echo.init)]
      = Ret (Device.getDeviceType t) [Processor.ctor (File.mk 5 Echo.init)] ∧
    Device.getValue (Device.mk 1 0) [Processor.ctor (File.mk 5 Echo.init)]
      = Ret v [Processor.ctor (File.mk 5 Echo.init)].
Proof.
  assert (Hshape : hub_shape the_hub [Processor.ctor (File.mk 5 Echo.init)]).
  { split; [reflexivity |]. eexists. by repeat split. }
  destruct (device_reads_fresh_report the_hub
              [Processor.ctor (File.mk 5 Echo.init)] (Device.mk 1 0)
              (Processor.ctor (File.mk 5 Echo.init)) Echo.init Echo.init Hshape)
    as (t & v & Ht & Hv & Hget);
    [apply elem_of_cons; right; by apply list_elem_of_singleton
    | reflexivity | reflexivity | reflexivity |].
  exists t, v. split; [exact Ht |]. split; [exact Hv |]. exact Hget.
Defined.

(** ** Calls in a row *)

Section Transfers.
Context {D : Type} `{RawChannel D}.

(** One call, one transfer of the kind the call asks for. *)
Lemma run_call_asks (c : call) (p : Processor.t (Logged.t D)) :
  call_slot c = 0 ∨ call_slot c = 1 →
  length (Processor.readBuffer p) = 9%nat →
  length (Processor.writeBuffer p) = 9%nat →
  ∃ p' ev,
    run_call c p = Some p' ∧
    length (Processor.readBuffer p') = 9%nat ∧
    length (Processor.writeBuffer p') = 9%nat ∧
    log_of p' = log_of p ++ [ev] ∧
    asks_for c ev.
Proof.
  intros Hs Hrb Hwb.
  destruct (slot_indices _ Hs) as (Ht & Hval & Hw).
  destruct c as [s | s | s v]; cbn [call_slot run_call] in *.
  - destruct (read_recorded (Processor.type_index s) p Hrb
                ltac:(rewrite Ht; lia) _ (readType_unfold s p))
      as (p' & Hst & Hwb' & Hrb' & Hlog).
    exists p', (IoRead 9). rewrite Hwb'. by repeat split.
  - destruct (read_recorded (Processor.value_index s) p Hrb
                ltac:(rewrite Hval; lia) _ (readValue_unfold s p))
      as (p' & Hst & Hwb' & Hrb' & Hlog).
    exists p', (IoRead 9). rewrite Hwb'. by repeat split.
  - destruct (writeValue_recorded s v p Hwb ltac:(rewrite Hw; lia))
      as (p' & Hst & Hwb' & Hrb' & Hlog).
    exists p', (IoWrite (Processor.writeBuffer p')).
    split; [done |]. split; [congruence |].
    split; [by rewrite Hwb', !length_insert |]. split; [done |].
    cbn [asks_for]. rewrite Hwb', Hw.
    split; [by rewrite !length_insert |].
    split; [rewrite list_lookup_insert_ne by lia;
            apply list_lookup_insert_eq; lia |].
    apply list_lookup_insert_eq. rewrite length_insert. lia.
Qed.

(** X17. Every call of a processor makes exactly one transfer, and of
    its own kind: over any sequence of calls for slot 0 or 1 the
    channel sees as many transfers as there were calls, in the order
    of the calls — a read of 9 bytes for each [readType] and
    [readValue] (nothing is cached, nothing is read ahead), and for
    each [writeValue] one report of 9 bytes carrying 64 at offset 1
    and the value at the offset of the slot. *)
Theorem one_transfer_per_call (cs : list call) (p : Processor.t (Logged.t D)) :
  Forall (λ c, call_slot c = 0 ∨ call_slot c = 1) cs →
  length (Processor.readBuffer p) = 9%nat →
  length (Processor.writeBuffer p) = 9%nat →
  ∃ p' new,
    run_calls cs p = Some p' ∧
    log_of p' = log_of p ++ new ∧
    Forall2 asks_for cs new.
Proof.
  intros Hcs. revert p.
  induction Hcs as [| c cs Hc _ IH]; intros p Hrb Hwb.
  - exists p, []. rewrite app_nil_r. by repeat split.
  - destruct (run_call_asks c p Hc Hrb Hwb)
      as (p1 & ev & Hrun & Hrb1 & Hwb1 & Hlog1 & Hev).
    destruct (IH p1 Hrb1 Hwb1) as (p' & new & Hruns & Hlog & Hall).
    exists p', (ev :: new). cbn [run_calls]. rewrite Hrun.
    split; [done |]. split; [by rewrite Hlog, Hlog1, <- app_assoc |].
    by constructor.
Qed.
End Transfers.

(** Three calls on a new recorded processor. *)
Lemma one_transfer_per_call_witness :
  ∃ p' new,
    run_calls [WriteValue 0 10; ReadType 1; WriteValue 1 20] logged_processor
      = Some p' ∧
    log_of p' = log_of logged_processor ++ new ∧
    Forall2 asks_for [WriteValue 0 10; ReadType 1; WriteValue 1 20] new.
Proof.
  apply (one_transfer_per_call [WriteValue 0 10; ReadType 1; WriteValue 1 20]
           logged_processor);
    [repeat (constructor; [cbn; auto |]); constructor
    | reflexivity | reflexivity].
Defined.

(** ** Writes and a read against the echo stub *)

Lemma echo_write (p : Processor.t Echo.t) (sl v : Z) :
  sl = 0 ∨ sl = 1 →
  length (Processor.readBuffer p) = 9%nat →
  length (Processor.writeBuffer p) = 9%nat →
  length (File.chan (Processor.file p)) = 9%nat →
  ∃ p1,
    run_call (WriteValue sl v) p = Some p1 ∧
    length (Processor.readBuffer p1) = 9%nat ∧
    length (Processor.writeBuffer p1) = 9%nat ∧
    length (File.chan (Processor.file p1)) = 9%nat ∧
    Processor.writeBuffer p1 =
      <[Z.to_nat (2 + sl) := v]> (<[1%nat := 64]> (Processor.writeBuffer p)) ∧
    File.chan (Processor.file p1) !! 3%nat = Processor.writeBuffer p1 !! 2%nat ∧
    File.chan (Processor.file p1) !! 5%nat = Processor.writeBuffer p1 !! 3%nat.
Proof.
  intros Hs Hrb Hwb Hch.
  destruct p as [[fd ch] rb wb]; cbn [Processor.readBuffer Processor.writeBuffer
    Processor.file File.chan] in *.
  nine rb Hrb. nine wb Hwb. nine ch Hch.
  destruct Hs as [-> | ->]; eexists; by repeat split.
Qed.

Lemma echo_synced_read (p : Processor.t Echo.t) (s : Z) :
  s = 0 ∨ s = 1 →
  length (Processor.readBuffer p) = 9%nat →
  length (Processor.writeBuffer p) = 9%nat →
  length (File.chan (Processor.file p)) = 9%nat →
  File.chan (Processor.file p) !! 3%nat = Processor.writeBuffer p !! 2%nat →
  File.chan (Processor.file p) !! 5%nat = Processor.writeBuffer p !! 3%nat →
  ∃ p',
    Processor.readValue s p =
      Ret (default 0 (Processor.writeBuffer p !! Z.to_nat (2 + s))) p'.
Proof.
  intros Hs Hrb Hwb Hch H3 H5.
  destruct p as [[fd ch] rb wb]; cbn [Processor.readBuffer Processor.writeBuffer
    Processor.file File.chan] in *.
  nine rb Hrb. nine wb Hwb. nine ch Hch.
  cbn in H3, H5. injection H3 as ->. injection H5 as ->.
  destruct Hs as [-> | ->]; eexists; reflexivity.
Qed.

Lemma echo_writes (ws : list (Z * Z)) (p : Processor.t Echo.t) (s : Z) :
  s = 0 ∨ s = 1 →
  Forall (λ w, w.1 = 0 ∨ w.1 = 1) ws →
  length (Processor.readBuffer p) = 9%nat →
  length (Processor.writeBuffer p) = 9%nat →
  length (File.chan (Processor.file p)) = 9%nat →
  File.chan (Processor.file p) !! 3%nat = Processor.writeBuffer p !! 2%nat →
  File.chan (Processor.file p) !! 5%nat = Processor.writeBuffer p !! 3%nat →
  ∃ p',
    run_calls (write_calls ws) p = Some p' ∧
    length (Processor.readBuffer p') = 9%nat ∧
    length (Processor.writeBuffer p') = 9%nat ∧
    length (File.chan (Processor.file p')) = 9%nat ∧
    File.chan (Processor.file p') !! 3%nat = Processor.writeBuffer p' !! 2%nat ∧
    File.chan (Processor.file p') !! 5%nat = Processor.writeBuffer p' !! 3%nat ∧
    default 0 (Processor.writeBuffer p' !! Z.to_nat (2 + s)) =
      last_written s (default 0 (Processor.writeBuffer p !! Z.to_nat (2 + s))) ws.
Proof.
  intros Hs Hws. revert p.
  induction Hws as [| [sl v] ws Hsl _ IH]; intros p Hrb Hwb Hch H3 H5.
  - exists p. by repeat split.
  - cbn [fst] in Hsl.
    destruct (echo_write p sl v Hsl Hrb Hwb Hch)
      as (p1 & Hrun & Hrb1 & Hwb1 & Hch1 & Hins & H31 & H51).
    destruct (IH p1 Hrb1 Hwb1 Hch1 H31 H51)
      as (p' & Hruns & Hrb' & Hwb' & Hch' & H3' & H5' & Hlast).
    exists p'. cbn [write_calls fmap list_fmap run_calls fst snd].
    change (list_fmap _ _ (λ w, WriteValue w.1 w.2) ws) with (write_calls ws).
    rewrite Hrun. repeat (split; [done |]).
    rewrite Hlast. cbn [last_written]. f_equal.
    rewrite Hins. destruct (Z.eqb_spec sl s) as [-> | Hne].
    + rewrite list_lookup_insert_eq; [done |].
      rewrite length_insert, Hwb. destruct Hs as [-> | ->]; cbn; lia.
    + rewrite !list_lookup_insert_ne; [done | |].
      * destruct Hs as [-> | ->]; cbn; lia.
      * destruct Hs as [-> | ->], Hsl as [-> | ->]; cbn; try lia; done.
Qed.

(** X18. Against the echo stub the last write wins, slot by slot:
    after any writes for slots 0 and 1, at least one, [readValue] of a
    slot returns the value of the last write for that slot, and the
    byte the write buffer held for it when no write was for that slot
    (zero on a new processor): each report carries the bytes of both
    slots. *)
Theorem echo_last_write_wins (ws : list (Z * Z)) (p : Processor.t Echo.t)
    (s : Z) :
  s = 0 ∨ s = 1 →
  Forall (λ w, w.1 = 0 ∨ w.1 = 1) ws →
  ws ≠ [] →
  length (Processor.readBuffer p) = 9%nat →
  length (Processor.writeBuffer p) = 9%nat →
  length (File.chan (Processor.file p)) = 9%nat →
  ∃ p' p'',
    run_calls (write_calls ws) p = Some p' ∧
    Processor.readValue s p' =
      Ret (last_written s
             (default 0 (Processor.writeBuffer p !! Z.to_nat (2 + s))) ws) p''.
Proof.
  intros Hs Hws Hne Hrb Hwb Hch.
  destruct ws as [| [sl v] rest]; [done |].
  apply Forall_cons in Hws as [Hsl Hrest]. cbn [fst] in Hsl.
  destruct (echo_write p sl v Hsl Hrb Hwb Hch)
    as (p1 & Hrun & Hrb1 & Hwb1 & Hch1 & Hins & H31 & H51).
  destruct (echo_writes rest p1 s Hs Hrest Hrb1 Hwb1 Hch1 H31 H51)
    as (p' & Hruns & Hrb' & Hwb' & Hch' & H3' & H5' & Hlast).
  destruct (echo_synced_read p' s Hs Hrb' Hwb' Hch' H3' H5') as [p'' Hread].
  exists p', p''. cbn [write_calls fmap list_fmap run_calls fst snd].
  change (list_fmap _ _ (λ w, WriteValue w.1 w.2) rest) with (write_calls rest).
  rewrite Hrun. split; [done |].
  rewrite Hread, Hlast. cbn [last_written]. do 2 f_equal.
  rewrite Hins. destruct (Z.eqb_spec sl s) as [-> | Hneq].
  - rewrite list_lookup_insert_eq; [done |].
    rewrite length_insert, Hwb. destruct Hs as [-> | ->]; cbn; lia.
  - rewrite !list_lookup_insert_ne; [done | |].
    + destruct Hs as [-> | ->]; cbn; lia.
    + destruct Hs as [-> | ->], Hsl as [-> | ->]; cbn; try lia; done.
Qed.

(** Three writes and a read of each slot. *)
Lemma echo_last_write_wins_witness :
  ∃ p' p'',
    run_calls (write_calls [(0, 10); (1, 20); (0, 30)]) echo_processor = Some p' ∧
    Processor.readValue 0 p' = Ret 30 p''.
Proof.
  apply (echo_last_write_wins [(0, 10); (1, 20); (0, 30)] echo_processor 0);
    [by left
    | repeat (constructor; [cbn; auto |]); constructor
    | done | reflexivity | reflexivity | reflexivity].
Defined.

(** ** The life of a [File] object *)

Section FileLife.
Context {D : Type} `{RawChannel D}.

Lemma File_destroy_spec (objs : list (File.t D)) (e : env D) (a : nat)
    (f : File.t D) :
  objs !! a = Some f →
  File_destroy a (objs, e) =
    Ret tt (objs, mk_env (procs e)
                    (trace e ++ if File.fd f =? -1 then [] else [Close (File.fd f)])).
Proof.
  intros Hf. unfold File_destroy, File_dtor. cbn [fst snd]. rewrite Hf.
  destruct (File.fd f =? -1); cbn; [| done].
  rewrite app_nil_r. by destruct e.
Qed.

(** X19. Moving a [File] hands the descriptor over: the new object
    holds it, the old one holds [-1], and when both are destroyed, in
    either order, the descriptor is closed exactly once. *)
Theorem File_move_closes_once (objs : list (File.t D)) (e : env D) (a : nat)
    (f : File.t D) :
  objs !! a = Some f →
  File.fd f ≠ -1 →
  ∃ b objs',
    File_move_ctor a (objs, e) = Ret b (objs', e) ∧
    b ≠ a ∧
    File.fd <$> objs' !! a = Some (-1) ∧
    File.fd <$> objs' !! b = Some (File.fd f) ∧
    (do File_destroy a then File_destroy b) (objs', e) =
      Ret tt (objs', mk_env (procs e) (trace e ++ [Close (File.fd f)])) ∧
    (do File_destroy b then File_destroy a) (objs', e) =
      Ret tt (objs', mk_env (procs e) (trace e ++ [Close (File.fd f)])).
Proof.
  intros Hf Hfd. pose proof (lookup_lt_Some _ _ _ Hf) as Ha.
  unfold File_move_ctor. cbn [fst snd]. rewrite Hf.
  eexists _, _. split; [reflexivity |]. split; [lia |].
  assert (Hold : (<[a := moved_from f]> objs ++ [moved_to f]) !! a
                 = Some (moved_from f)).
  { rewrite lookup_app_l by (rewrite length_insert; lia).
    by apply list_lookup_insert_eq. }
  assert (Hnew : (<[a := moved_from f]> objs ++ [moved_to f]) !! length objs
                 = Some (moved_to f)).
  { rewrite lookup_app_r by (rewrite length_insert; lia).
    by rewrite length_insert, Nat.sub_diag. }
  split; [by rewrite Hold |]. split; [by rewrite Hnew |].
  apply Z.eqb_neq in Hfd.
  unfold mbind.
  rewrite (File_destroy_spec _ e a _ Hold), (File_destroy_spec _ e _ _ Hnew).
  rewrite (File_destroy_spec _ _ _ _ Hold), (File_destroy_spec _ _ _ _ Hnew).
  unfold moved_from, moved_to. cbn [File.fd procs trace].
  change (-1 =? -1) with true. cbn iota. rewrite Hfd.
  by rewrite !app_nil_r.
Qed.

(** X20. Move assignment takes the descriptor of the other object and
    leaves that one with [-1], but it does not close the descriptor
    the target held: after [a = std::move(b)] and the destruction of
    both, the only descriptor closed is the one [b] had; the one [a]
    had is held by no object and was never closed.  Assigning an
    object to itself changes nothing. *)
Theorem File_move_assign_drops_target (objs : list (File.t D)) (e : env D)
    (this other : nat) (t o : File.t D) :
  objs !! this = Some t →
  objs !! other = Some o →
  File_move_assign this this (objs, e) = Ret tt (objs, e) ∧
  (this ≠ other →
   ∃ objs',
     File_move_assign this other (objs, e) = Ret tt (objs', e) ∧
     File.fd <$> objs' !! this = Some (File.fd o) ∧
     File.fd <$> objs' !! other = Some (-1) ∧
     (∀ a, a ≠ this → a ≠ other → objs' !! a = objs !! a) ∧
     ∃ e',
       (do File_destroy this then File_destroy other) (objs', e)
         = Ret tt (objs', e') ∧
       procs e' = procs e ∧
       ∃ events,
         trace e' = trace e ++ events ∧
         closed_fds events = if File.fd o =? -1 then [] else [File.fd o]).
Proof.
  intros Ht Ho. split.
  - unfold File_move_assign. cbn [fst]. rewrite Ht.
    rewrite bool_decide_eq_false_2; [done | by intros []].
  - intros Hne.
    pose proof (lookup_lt_Some _ _ _ Ht) as Hlt.
    pose proof (lookup_lt_Some _ _ _ Ho) as Hlo.
    unfold File_move_assign. cbn [fst snd]. rewrite Ht, Ho.
    rewrite bool_decide_eq_true_2 by done.
    eexists. split; [reflexivity |].
    assert (Hthis : <[other := moved_from o]> (<[this := moved_to o]> objs) !! this
                    = Some (moved_to o)).
    { rewrite list_lookup_insert_ne by done. by apply list_lookup_insert_eq. }
    assert (Hother : <[other := moved_from o]> (<[this := moved_to o]> objs) !! other
                     = Some (moved_from o)).
    { apply list_lookup_insert_eq. by rewrite length_insert. }
    split; [by rewrite Hthis |]. split; [by rewrite Hother |].
    split; [intros a Ha1 Ha2; by rewrite !list_lookup_insert_ne |].
    unfold mbind.
    rewrite (File_destroy_spec _ e this _ Hthis).
    rewrite (File_destroy_spec _ _ other _ Hother).
    unfold moved_from, moved_to. cbn [File.fd procs trace].
    change (-1 =? -1) with true. cbn iota.
    eexists. split; [reflexivity |]. split; [reflexivity |].
    eexists. split; [by rewrite app_nil_r |].
    by destruct (File.fd o =? -1).
Qed.
End FileLife.

(** A file on descriptor 5 moved into a new object. *)
Lemma File_move_closes_once_witness :
  ∃ b objs',
    File_move_ctor 0 ([File.mk 5 Echo.init], start) = Ret b (objs', start) ∧
    b ≠ 0%nat ∧
    (do File_destroy 0 then File_destroy b) (objs', start) =
      Ret tt (objs', mk_env [] [Close 5]).
Proof.
  destruct (File_move_closes_once [File.mk 5 Echo.init] start 0
              (File.mk 5 Echo.init) eq_refl ltac:(done))
    as (b & objs' & Hmove & Hne & _ & _ & Hab & _).
  by exists b, objs'.
Defined.

(** Descriptor 4 assigned over descriptor 5: only 4 is ever closed. *)
Lemma File_move_assign_drops_target_witness :
  ∃ objs' e',
    File_move_assign 0 1 ([File.mk 5 Echo.init; File.mk 4 Echo.init], start)
      = Ret tt (objs', start) ∧
    (do File_destroy 0 then File_destroy 1) (objs', start) = Ret tt (objs', e') ∧
    closed_fds (trace e') = [4].
Proof.
  destruct (File_move_assign_drops_target
              [File.mk 5 Echo.init; File.mk 4 Echo.init] start 0 1
              (File.mk 5 Echo.init) (File.mk 4 Echo.init) eq_refl eq_refl)
    as [_ Hassign].
  destruct (Hassign ltac:(done))
    as (objs' & Hmove & _ & _ & _ & e' & Hdestroy & _ & events & Htrace & Hclosed).
  exists objs', e'. split; [exact Hmove |]. split; [exact Hdestroy |].
  rewrite Htrace. exact Hclosed.
Defined.

(** ** Which interfaces reach the probe *)

(** X21. On the SetupAPI branch the scan of one interface returns
    exactly when the enumeration delivers it whole: the query for the
    size succeeds or fails with [ERROR_INSUFFICIENT_BUFFER], which is
    the answer expected of it and no error; the buffer is allocated;
    the detail call succeeds.  In every other case [findHubs] throws,
    whatever the device behind the interface is. *)
Theorem win32_interface_delivered {D : Type} `{RawChannel D}
    (i : Win32.iface D) (s : env D) :
  (∃ hubs s',
      Win32.findHubs
        (Win32.mk_world (SysOk (Win32.mk_DevInfo [i] Win32.ERROR_NO_MORE_ITEMS)))
        s = Ret hubs s') ↔
  (Win32.i_size_query i = SysOk tt ∨
   Win32.i_size_query i = SysErr Win32.ERROR_INSUFFICIENT_BUFFER) ∧
  Win32.i_malloc i = true ∧
  ∃ DevicePath, Win32.i_detail i = SysOk DevicePath.
Proof.
  rewrite <- win32_fatal_None, win32_findHubs_spec.
  cbn [Win32.class_devs Win32.ifaces Win32.enum_error win32_scan]. cbn zeta.
  destruct (win32_fatal i) as [e |]; cbn.
  - split; [by intros (hubs & s' & ?) | done].
  - split; [done | intros _; by eexists _, _].
Qed.
